(** * socquery dashboard: the API client and the dashboard pages

    A shallow embedding of the TypeScript sources

      - [src/lib/api.ts]                        (modules [Api], [AuthApi])
      - [src/app/dashboard/rules/page.tsx]      (module [RulesPage])
      - [src/app/dashboard/alerts/page.tsx]     (module [AlertsPage])
      - the dashboard overview page             (module [Overview])
      - [src/app/(auth)/login/page.tsx]         (module [LoginPage])
      - [src/app/dashboard/layout.tsx]          (module [Layout])
      - [src/app/dashboard/agents/[id]/page.tsx] (module [AgentDetail])

    together with the part of the JavaScript runtime they rely on
    (module [JS]): strings as sequences of UTF-16 code units, numbers as
    IEEE 754 binary64 values, JSON-shaped values, truthiness, and
    [ToString], which throws on an object that has a key [toString] of
    its own.

    Conventions.
      - An [async] function is a computation in the monad [Api.io]: it
        threads the client-side world (token variable, local storage,
        the log of [fetch] calls) and either returns or throws.
      - One call runs to completion before the next one starts.  The
        state the module shares between pending calls is
        [refreshPromise]: a call can find the refresh of another call
        under way, and then waits for it ([Api.join]) instead of
        starting one.
      - [localStorage.setItem] throws when its argument does not convert
        to a string and when the browser refuses the write.
      - React state is a record; a handler maps the state captured at the
        time of the event to the state after all its [setX] calls.
      - The pages see the agent API through typed calls ([AgentApi]); what
        a call puts on the wire is in [Api].

    The definitions come first, then sample data ([Samples]), then the
    properties: [JSFacts], [OverviewFacts], [RulesPageFacts],
    [AlertsPageFacts], [ApiFacts], [SessionFacts], [LoginPageFacts],
    [LayoutFacts], [RulesPageStateFacts], [AlertsPageStateFacts],
    [AgentDetailFacts]. *)

From Stdlib Require Import ZArith NArith List Ascii String Bool Lia.
From Stdlib Require Import Floats.SpecFloat.
From stdpp Require Import base option list gmap.
Import ListNotations.

Set Default Proof Using "Type".
Local Open Scope Z_scope.

(* ===================================================================== *)
(** * The JavaScript runtime                                              *)
(* ===================================================================== *)

Module JS.

(** ** Strings: sequences of UTF-16 code units *)

Definition code_unit := N.
Abbreviation jsstring := (list N).

(** An ASCII literal of the source, as code units. *)
Definition js (s : string) : jsstring :=
  List.map N_of_ascii (list_ascii_of_string s).
Arguments js : simpl never.

(** WhiteSpace and LineTerminator code points of ECMA-262, the characters
    [String.prototype.trim] strips. *)
Definition is_whitespace (c : N) : bool :=
  ((9 <=? c) && (c <=? 13) || (c =? 32) || (c =? 160) || (c =? 5760)
   || (8192 <=? c) && (c <=? 8202) || (c =? 8232) || (c =? 8233)
   || (c =? 8239) || (c =? 8287) || (c =? 12288) || (c =? 65279))%N.

Fixpoint trimStart (s : jsstring) : jsstring :=
  match s with
  | c :: s' => if is_whitespace c then trimStart s' else s
  | [] => []
  end.

Definition trimEnd (s : jsstring) : jsstring := rev (trimStart (rev s)).

Definition trim (s : jsstring) : jsstring := trimEnd (trimStart s).


(** A string is truthy when it is not empty. *)
Definition truthy_string (s : jsstring) : bool :=
  match s with [] => false | _ => true end.

(** [s] consists of white space only: [!s.trim()]. *)
Definition blank (s : jsstring) : bool := negb (truthy_string (trim s)).

(** ** Numbers: binary64 *)

Abbreviation number := spec_float.

Definition prec : Z := 53.
Definition emax : Z := 1024.

(** The number denoted by an integer literal. *)
Definition of_Z (z : Z) : number := binary_normalize prec emax z 0 false.

Definition NaN : number := S754_nan.

Definition sub (x y : number) : number := SFsub prec emax x y.
Definition div (x y : number) : number := SFdiv prec emax x y.
Definition ltb (x y : number) : bool := SFltb x y.
Definition leb (x y : number) : bool := SFleb x y.

Definition Number_isNaN (x : number) : bool :=
  match x with S754_nan => true | _ => false end.

(** Truthiness of a number: everything but [+0], [-0] and [NaN]. *)
Definition truthy_number (x : number) : bool :=
  match x with
  | S754_zero _ | S754_nan => false
  | _ => true
  end.

(** [Math.floor].  A finite value with a negative exponent is
    [m * 2^e]; shifting the signed mantissa right rounds towards minus
    infinity.  The sign of a zero result is the sign of the argument. *)
Definition Math_floor (x : number) : number :=
  match x with
  | S754_finite s m e =>
      if 0 <=? e then x
      else
        let q := Z.shiftr (cond_Zopp s (Zpos m)) (- e) in
        if q =? 0 then S754_zero s else of_Z q
  | _ => x
  end.

(** The integer a finite number denotes, when it denotes one. *)
Definition to_integer (x : number) : option Z :=
  match x with
  | S754_zero _ => Some 0
  | S754_finite s m e =>
      let z := cond_Zopp s (Zpos m) in
      if 0 <=? e then Some (Z.shiftl z e)
      else if Z.shiftl (Z.shiftr z (- e)) (- e) =? z
           then Some (Z.shiftr z (- e)) else None
  | _ => None
  end.

(** Decimal digits of a natural number. *)
Definition digit (d : N) : N := (48 + d)%N.

Fixpoint decimal_fuel (fuel : nat) (n : N) (acc : jsstring) : jsstring :=
  match fuel with
  | O => acc
  | S fuel' =>
      let acc' := digit (n mod 10) :: acc in
      if (n <? 10)%N then acc' else decimal_fuel fuel' (n / 10) acc'
  end.

Definition decimal (n : N) : jsstring :=
  decimal_fuel (S (N.to_nat (N.log2 n))) n [].

(** The number a string of decimal digits denotes, read after [acc]. *)
Fixpoint digits_value (s : jsstring) (acc : N) : N :=
  match s with
  | [] => acc
  | c :: s' => digits_value s' (10 * acc + (c - 48))%N
  end.

Section NumberToString.

(** [Number::toString] of a finite value that is not a safe integer
    (a fraction, or a magnitude of 2^53 and more): the shortest
    digit string that reads back as the same number.  Left to the
    engine. *)
Variable shortest_digits : number -> jsstring.

Definition safe_integer (z : Z) : bool := Z.abs z <? 2 ^ 53.

Definition Number_toString (x : number) : jsstring :=
  match x with
  | S754_nan => js "NaN"
  | S754_zero _ => js "0"
  | S754_infinity s => if s then js "-Infinity" else js "Infinity"
  | S754_finite s _ _ =>
      match to_integer x with
      | Some z =>
          if safe_integer z
          then (if s then js "-" else []) ++ decimal (Z.to_N (Z.abs z))
          else shortest_digits x
      | None => shortest_digits x
      end
  end.

End NumberToString.

(** ** JSON-shaped values

    What [JSON.parse] and [Response.json] produce, plus [undefined].  An
    object is the list of its own properties in the order
    [Object.entries] enumerates them. *)

#[warnings="-register-all"]
Inductive value :=
| VUndefined
| VNull
| VBool (b : bool)
| VNum (n : number)
| VStr (s : jsstring)
| VArr (items : list value)
| VObj (props : list (jsstring * value)).

(** ToBoolean. *)
Definition truthy (v : value) : bool :=
  match v with
  | VUndefined | VNull => false
  | VBool b => b
  | VNum n => truthy_number n
  | VStr s => truthy_string s
  | VArr _ | VObj _ => true
  end.

(** [a || b]. *)
Definition or_else (a b : value) : value := if truthy a then a else b.

Fixpoint join (sep : jsstring) (parts : list jsstring) : jsstring :=
  match parts with
  | [] => []
  | [p] => p
  | p :: rest => p ++ sep ++ join sep rest
  end.

(** Own property lookup of a parsed object. *)
Fixpoint own_property (props : list (jsstring * value)) (key : jsstring)
  : option value :=
  match props with
  | [] => None
  | (k, v) :: rest =>
      if decide (k = key) then Some v else own_property rest key
  end.

(** ** Exceptions and completions *)

Inductive exn :=
| ApiError (status : N) (message : jsstring) (data : value)
| TypeError (message : jsstring)
| SyntaxError (message : jsstring)
| Error (message : jsstring)
| DOMException (name message : jsstring).

(** [err.message]; every exception above is an [Error]. *)
Definition exn_message (e : exn) : jsstring :=
  match e with
  | ApiError _ m _ | TypeError m | SyntaxError m | Error m | DOMException _ m => m
  end.

Inductive completion (A : Type) :=
| Return (a : A)
| Throw (e : exn).
Arguments Return {A} a.
Arguments Throw {A} e.

(** The rest of an evaluation after a step that may throw. *)
Definition and_then {A B} (c : completion A) (k : A -> completion B)
  : completion B :=
  match c with
  | Return a => k a
  | Throw e => Throw e
  end.

Section ToString.

Variable shortest_digits : number -> jsstring.

(** ToString, as a template literal, [String(v)], the [Error]
    constructor and [localStorage.setItem] apply it.

    A parsed object has no callable property of its own.  Without an
    own [toString] key it inherits [Object.prototype.toString] and
    converts to ["[object Object]"].  With one, the key shadows the
    inherited method and is not callable, [valueOf] (inherited, or
    shadowed likewise) gives no primitive, and the conversion throws a
    TypeError.  An array is joined with commas by
    [Array.prototype.join]: [null] and [undefined] elements give the
    empty string, the other elements are converted in order, and the
    first conversion that throws ends the join. *)
Fixpoint ToString (v : value) : completion jsstring :=
  match v with
  | VUndefined => Return (js "undefined")
  | VNull => Return (js "null")
  | VBool b => Return (if b then js "true" else js "false")
  | VNum n => Return (Number_toString shortest_digits n)
  | VStr s => Return s
  | VArr items =>
      and_then
        ((fix elements (items : list value) : completion (list jsstring) :=
            match items with
            | [] => Return []
            | i :: rest =>
                and_then
                  (match i with
                   | VUndefined | VNull => Return []
                   | _ => ToString i
                   end)
                  (fun s => and_then (elements rest) (fun ss => Return (s :: ss)))
            end) items)
        (fun parts => Return (join (js ",") parts))
  | VObj props =>
      match own_property props (js "toString") with
      | Some _ => Throw (TypeError (js "Cannot convert object to primitive value"))
      | None => Return (js "[object Object]")
      end
  end.

End ToString.

(** [v.key] for a key that no prototype defines (["error"], ["alerts"],
    ["access_token"], ...): reading a property of [null] or [undefined]
    throws a TypeError, a missing property reads as [undefined]. *)
Definition key_owner (v : value) : jsstring :=
  match v with VNull => js "null" | _ => js "undefined" end.

Definition Get (v : value) (key : jsstring) : completion value :=
  match v with
  | VUndefined | VNull =>
      Throw (TypeError (js "Cannot read properties of " ++ key_owner v))
  | VObj props =>
      Return (match own_property props key with
              | Some x => x
              | None => VUndefined
              end)
  | _ => Return VUndefined
  end.

(** ** application/x-www-form-urlencoded

    [URLSearchParams.prototype.toString]: names and values are converted
    to scalar values (a lone surrogate becomes U+FFFD), encoded in UTF-8,
    and every byte outside [A-Za-z0-9*-._] is percent-encoded, a space
    becoming [+]. *)

Definition is_high_surrogate (c : N) : bool := ((55296 <=? c) && (c <=? 56319))%N.
Definition is_low_surrogate (c : N) : bool := ((56320 <=? c) && (c <=? 57343))%N.

Fixpoint scalar_values (s : jsstring) : list N :=
  match s with
  | [] => []
  | c :: s' =>
      if is_high_surrogate c then
        match s' with
        | d :: s'' =>
            if is_low_surrogate d
            then (65536 + (c - 55296) * 1024 + (d - 56320))%N :: scalar_values s''
            else 65533%N :: scalar_values s'
        | [] => [65533%N]
        end
      else if is_low_surrogate c then 65533%N :: scalar_values s'
      else c :: scalar_values s'
  end.

Definition utf8_bytes (cp : N) : list N :=
  (if cp <? 128 then [cp]
   else if cp <? 2048 then [192 + cp / 64; 128 + cp mod 64]
   else if cp <? 65536 then
     [224 + cp / 4096; 128 + (cp / 64) mod 64; 128 + cp mod 64]
   else
     [240 + cp / 262144; 128 + (cp / 4096) mod 64;
      128 + (cp / 64) mod 64; 128 + cp mod 64])%N.

Definition hex_digit (d : N) : N := (if d <? 10 then 48 + d else 55 + d)%N.

Definition is_alphanumeric (b : N) : bool :=
  ((48 <=? b) && (b <=? 57) || (65 <=? b) && (b <=? 90)
   || (97 <=? b) && (b <=? 122))%N.

Definition urlencode_byte (b : N) : jsstring :=
  (if is_alphanumeric b || (b =? 42) || (b =? 45) || (b =? 46) || (b =? 95)
   then [b]
   else if b =? 32 then [43]
   else [37; hex_digit (b / 16); hex_digit (b mod 16)])%N.

Definition urlencode (s : jsstring) : jsstring :=
  List.concat (List.map urlencode_byte
                 (List.concat (List.map utf8_bytes (scalar_values s)))).

(** [URLSearchParams]: an ordered list of name/value pairs. *)
Abbreviation URLSearchParams := (list (jsstring * jsstring)).

(** [qs.set(name, value)]: the first pair named [name] takes the value
    and the later ones go; with none, the pair is appended. *)
Fixpoint qs_set (qs : URLSearchParams) (name val : jsstring) : URLSearchParams :=
  match qs with
  | [] => [(name, val)]
  | (k, v) :: rest =>
      if decide (k = name)
      then (k, val) :: List.filter (fun p => negb (bool_decide (fst p = name))) rest
      else (k, v) :: qs_set rest name val
  end.

Definition qs_toString (qs : URLSearchParams) : jsstring :=
  join (js "&")
    (List.map (fun p => urlencode (fst p) ++ js "=" ++ urlencode (snd p)) qs).

End JS.

(* ===================================================================== *)
(** * src/lib/api.ts                                                      *)
(* ===================================================================== *)

Module Api.
Import JS.

(** ** The world outside the module *)

(** The second argument of [fetch].  [headers] is the plain object the
    module builds, its keys compared exactly as object keys are: what
    [fetch] makes of two keys that differ in case only is not
    modelled.  The headers of a caller are a record of strings, as the
    cast in [apiFetch] takes them to be. *)
Record RequestInit := {
  method : option jsstring;
  headers : gmap jsstring jsstring;
  body : option jsstring;
}.

(** [{}], the default of [options]. *)
Definition no_options : RequestInit :=
  {| method := None; headers := ∅; body := None |}.

Record Request := {
  url : jsstring;
  init : RequestInit;
}.

Record Response := {
  (** an integer, which [`HTTP ${res.status}`] prints in decimal *)
  status : N;
  (** what [res.json()] resolves to; [None] when the body is not JSON
      and the promise rejects *)
  json_body : option value;
  (** the message of the SyntaxError it then rejects with, as the
      engine words it for this body *)
  json_error : jsstring;
}.

(** [res.ok]. *)
Definition ok (res : Response) : bool := ((200 <=? status res) && (status res <=? 299))%N.

(** The deployment and the engine: what the module reads but never
    writes. *)
Record Env := {
  (** [typeof window !== 'undefined'] *)
  has_window : bool;
  (** [process.env.NEXT_PUBLIC_API_URL] *)
  NEXT_PUBLIC_API_URL : option jsstring;
  (** the network: the outcome of a [fetch], given the requests made so
      far (latest first, the one being answered at the head); [None] is
      a rejected [fetch] *)
  network : list Request -> option Response;
  (** [Number::toString] beyond the safe integers *)
  shortest_digits : number -> jsstring;
  (** [JSON.stringify] *)
  JSON_stringify : value -> jsstring;
  (** whether the browser accepts [localStorage.setItem(key, text)] on
      the store given; it refuses a write that would exceed the quota,
      and some browsers refuse every write in a private window *)
  storage_accepts : gmap jsstring jsstring -> jsstring -> jsstring -> bool;
  (** the message of the error it throws when it refuses *)
  quota_message : jsstring;
}.

(** A refresh under way, started by another call of [apiFetch] that
    has not finished yet: the response its request is about to receive
    ([None] when that [fetch] fails, or when there was no refresh token
    to send), and the requests other calls make until the call that
    waits for the refresh goes on. *)
Record Pending := {
  pending_response : option Response;
  pending_requests : list Request;
}.

(** The mutable state: the module variables [accessToken] and
    [refreshPromise], local storage, the page location, and the [fetch]
    calls made so far. *)
Record World := {
  accessToken : value;
  localStorage : gmap jsstring jsstring;
  location_href : option jsstring;
  fetch_log : list Request;
  (** [null], or the promise of the refresh under way *)
  refreshPromise : option Pending;
}.

Definition set_accessToken (v : value) (w : World) : World :=
  {| accessToken := v; localStorage := localStorage w;
     location_href := location_href w; fetch_log := fetch_log w;
     refreshPromise := refreshPromise w |}.
Definition set_localStorage (m : gmap jsstring jsstring) (w : World) : World :=
  {| accessToken := accessToken w; localStorage := m;
     location_href := location_href w; fetch_log := fetch_log w;
     refreshPromise := refreshPromise w |}.
Definition set_location_href (h : jsstring) (w : World) : World :=
  {| accessToken := accessToken w; localStorage := localStorage w;
     location_href := Some h; fetch_log := fetch_log w;
     refreshPromise := refreshPromise w |}.
Definition log_fetch (r : Request) (w : World) : World :=
  {| accessToken := accessToken w; localStorage := localStorage w;
     location_href := location_href w; fetch_log := r :: fetch_log w;
     refreshPromise := refreshPromise w |}.
(** The refresh under way has settled: [refreshPromise] is [null] again,
    and the log holds what the other calls requested meanwhile. *)
Definition settle (p : Pending) (w : World) : World :=
  {| accessToken := accessToken w; localStorage := localStorage w;
     location_href := location_href w;
     fetch_log := pending_requests p ++ fetch_log w;
     refreshPromise := None |}.

(** ** The monad of asynchronous functions *)

Definition io (A : Type) : Type := World -> completion A * World.

Definition ret {A} (a : A) : io A := fun w => (Return a, w).
Definition throw {A} (e : exn) : io A := fun w => (Throw e, w).
Definition bind {A B} (c : io A) (k : A -> io B) : io B :=
  fun w => match c w with
           | (Return a, w') => k a w'
           | (Throw e, w') => (Throw e, w')
           end.
Definition lift {A} (c : completion A) : io A := fun w => (c, w).
Definition gets {A} (f : World -> A) : io A := fun w => (Return (f w), w).
Definition modify (f : World -> World) : io unit := fun w => (Return tt, f w).
(** [try { c } catch (e) { h e }] *)
Definition try_catch {A} (c : io A) (h : exn -> io A) : io A :=
  fun w => match c w with
           | (Return a, w') => (Return a, w')
           | (Throw e, w') => h e w'
           end.

Notation "x <- c ;; k" := (bind c (fun x => k))
  (at level 100, c at next level, right associativity).
Notation "c ;;; k" := (bind c (fun _ => k))
  (at level 100, right associativity).

(** A computation only adds to the log of [fetch] calls. *)
Definition grows {A} (c : io A) : Prop :=
  forall w, exists later, fetch_log (snd (c w)) = later ++ fetch_log w.

Section WithEnv.

Variable env : Env.

Definition API_BASE : jsstring :=
  match NEXT_PUBLIC_API_URL env with
  | Some u => if truthy_string u then u else js "/api/v1"
  | None => js "/api/v1"
  end.

Definition toString : value -> completion jsstring :=
  ToString (shortest_digits env).

(** [localStorage.getItem]: a string, or [null]. *)
Definition getItem (key : jsstring) : io value :=
  gets (fun w => match localStorage w !! key with
                 | Some s => VStr s
                 | None => VNull
                 end).

(** What [setItem] throws when the browser refuses the write. *)
Definition quota_exceeded : exn :=
  DOMException (js "QuotaExceededError") (quota_message env).

(** [localStorage.setItem] converts its argument to a string, which
    can throw, and stores the string, unless the browser refuses the
    write.  (Reading and removing never throw: the page is taken to
    have access to its store.) *)
Definition setItem (key : jsstring) (v : value) : io unit :=
  text <- lift (toString v) ;;
  store <- gets localStorage ;;
  if storage_accepts env store key text
  then modify (fun w => set_localStorage (<[key := text]> (localStorage w)) w)
  else throw quota_exceeded.

Definition removeItem (key : jsstring) : io unit :=
  modify (fun w => set_localStorage (delete key (localStorage w)) w).

(** *** Token management *)

Definition getAccessToken : io value :=
  cached <- gets accessToken ;;
  if truthy cached then ret cached
  else
    (if has_window env
     then (stored <- getItem (js "access_token") ;;
           modify (set_accessToken stored))
     else ret tt) ;;;
    gets accessToken.

Definition setAccessToken (token : value) : io unit :=
  modify (set_accessToken token) ;;;
  if has_window env then setItem (js "access_token") token else ret tt.

Definition getRefreshToken : io value :=
  if has_window env then getItem (js "refresh_token") else ret VNull.

Definition setRefreshToken (token : value) : io unit :=
  if has_window env then setItem (js "refresh_token") token else ret tt.

Definition clearTokens : io unit :=
  modify (set_accessToken VNull) ;;;
  if has_window env
  then removeItem (js "access_token") ;;; removeItem (js "refresh_token")
  else ret tt.

(** *** fetch *)

(** A [fetch] is logged, then answered by the network; a network
    failure rejects with a TypeError. *)
Definition fetch (u : jsstring) (i : RequestInit) : io Response :=
  modify (log_fetch {| url := u; init := i |}) ;;;
  log <- gets fetch_log ;;
  match network env log with
  | Some res => ret res
  | None => throw (TypeError (js "Failed to fetch"))
  end.

(** [res.json()] *)
Definition json (res : Response) : io value :=
  match json_body res with
  | Some v => ret v
  | None => throw (SyntaxError (json_error res))
  end.

(** *** Refresh token rotation *)

Definition doRefresh : io bool :=
  refreshToken <- getRefreshToken ;;
  if negb (truthy refreshToken) then ret false
  else
    try_catch
      (res <- fetch (API_BASE ++ js "/auth/refresh")
                {| method := Some (js "POST");
                   headers := {[ js "Content-Type" := js "application/json" ]};
                   body := Some (JSON_stringify env
                                   (VObj [(js "refresh_token", refreshToken)])) |} ;;
       if negb (ok res) then ret false
       else
         data <- json res ;;
         access <- lift (Get data (js "access_token")) ;;
         setAccessToken access ;;;
         refresh <- lift (Get data (js "refresh_token")) ;;
         setRefreshToken refresh ;;;
         ret true)
      (fun _ => ret false).

(** [return refreshPromise] when a refresh is under way: the call waits
    for the promise of the other call's [doRefresh] and gets its
    result.  By the time it goes on, that [doRefresh] has run to its
    end on the response it received (as [doRefresh] above does after
    its [fetch]), and the call that started it has set [refreshPromise]
    to [null] again. *)
Definition join (p : Pending) : io bool :=
  modify (settle p) ;;;
  try_catch
    (match pending_response p with
     | None => ret false
     | Some res =>
         if negb (ok res) then ret false
         else
           data <- json res ;;
           access <- lift (Get data (js "access_token")) ;;
           setAccessToken access ;;;
           refresh <- lift (Get data (js "refresh_token")) ;;
           setRefreshToken refresh ;;;
           ret true
     end)
    (fun _ => ret false).

(** Without a refresh under way the call starts one: [refreshPromise]
    holds the promise of its [doRefresh] while it runs (nothing else
    runs meanwhile here), and is [null] again when [tryRefresh]
    returns. *)
Definition tryRefresh : io bool :=
  promise <- gets refreshPromise ;;
  match promise with
  | Some p => join p
  | None => doRefresh
  end.

(** *** The fetch wrapper *)

(** [`Bearer ${token}`] *)
Definition bearer (token : value) : completion jsstring :=
  and_then (toString token) (fun text => Return (js "Bearer " ++ text)).

(** [await res.json().catch(() => ({}))], the body of an error response. *)
Definition error_data (res : Response) : value :=
  match json_body res with
  | Some v => v
  | None => VObj []
  end.

(** [(data.error as string) || fallback], as [super(message)] in the
    constructor of [ApiError] stores it: converted to a string, which
    can throw. *)
Definition error_message (error : value) (fallback : jsstring)
  : completion jsstring :=
  toString (or_else error (VStr fallback)).

(** [throw new ApiError(res.status, (data.error as string) || fallback, data)]
    after [data = await res.json().catch(() => ({}))]: the ApiError is
    thrown once its constructor has returned. *)
Definition throw_api_error {A} (res : Response) (fallback : jsstring) : io A :=
  data <- try_catch (json res) (fun _ => ret (VObj [])) ;;
  error <- lift (Get data (js "error")) ;;
  message <- lift (error_message error fallback) ;;
  throw (ApiError (status res) message data).

(** [{ 'Content-Type': 'application/json', ...options.headers }] *)
Definition base_headers (options : RequestInit) : gmap jsstring jsstring :=
  headers options ∪ {[ js "Content-Type" := js "application/json" ]}.

(** [if (token) headers['Authorization'] = `Bearer ${token}`] *)
Definition with_token (token : value) (h : gmap jsstring jsstring)
  : completion (gmap jsstring jsstring) :=
  if truthy token
  then and_then (bearer token)
         (fun authorization => Return (<[ js "Authorization" := authorization ]> h))
  else Return h.

(** [{ ...options, headers }] *)
Definition with_headers (options : RequestInit) (h : gmap jsstring jsstring)
  : RequestInit :=
  {| method := method options; headers := h; body := body options |}.

Definition apiFetch (path : jsstring) (options : RequestInit) : io value :=
  let url := API_BASE ++ path in
  let headers := base_headers options in
  token <- getAccessToken ;;
  headers <- lift (with_token token headers) ;;
  res <- fetch url (with_headers options headers) ;;
  if (status res =? 401)%N && truthy token then
    refreshed <- tryRefresh ;;
    if refreshed then
      token' <- getAccessToken ;;
      authorization <- lift (bearer token') ;;
      let headers := <[ js "Authorization" := authorization ]> headers in
      retryRes <- fetch url (with_headers options headers) ;;
      if negb (ok retryRes)
      then throw_api_error retryRes (js "Request failed")
      else json retryRes
    else
      clearTokens ;;;
      (if has_window env then modify (set_location_href (js "/login"))
       else ret tt) ;;;
      throw (ApiError 401 (js "Session expired") VUndefined)
  else if negb (ok res)
  then throw_api_error res (js "HTTP " ++ decimal (status res))
  else json res.

(** *** Agent API: the list-style calls *)

(** [String(n)] *)
Definition String_of_number (n : number) : jsstring :=
  Number_toString (shortest_digits env) n.

(** [if (params?.name) qs.set('name', params.name)] for a string and
    for a number; an absent [params] or field reads as [undefined]. *)
Definition set_if_string (name : jsstring) (v : option jsstring)
    (qs : URLSearchParams) : URLSearchParams :=
  match v with
  | Some s => if truthy_string s then qs_set qs name s else qs
  | None => qs
  end.

Definition set_if_number (name : jsstring) (v : option number)
    (qs : URLSearchParams) : URLSearchParams :=
  match v with
  | Some n => if truthy_number n then qs_set qs name (String_of_number n) else qs
  | None => qs
  end.

(** [qs.toString() ? `?${qs}` : ''] *)
Definition query (qs : URLSearchParams) : jsstring :=
  if truthy_string (qs_toString qs) then js "?" ++ qs_toString qs else [].

Record ListParams := {
  lp_status : option jsstring;
  lp_group_id : option jsstring;
  lp_limit : option number;
  lp_offset : option number;
}.

Definition list_qs (params : option ListParams) : URLSearchParams :=
  let qs := [] in
  let qs := set_if_string (js "status") (params ≫= lp_status) qs in
  let qs := set_if_string (js "group_id") (params ≫= lp_group_id) qs in
  let qs := set_if_number (js "limit") (params ≫= lp_limit) qs in
  let qs := set_if_number (js "offset") (params ≫= lp_offset) qs in
  qs.

Definition list_path (params : option ListParams) : jsstring :=
  js "/agents" ++ query (list_qs params).

Definition list (params : option ListParams) : io value :=
  apiFetch (list_path params) no_options.









Record AlertsParams := {
  ap_limit : option number;
  ap_offset : option number;
}.

Definition listGroupAlerts_qs (params : option AlertsParams) : URLSearchParams :=
  let qs := [] in
  let qs := set_if_number (js "limit") (params ≫= ap_limit) qs in
  let qs := set_if_number (js "offset") (params ≫= ap_offset) qs in
  qs.

Definition listGroupAlerts_path (groupId : jsstring) (params : option AlertsParams)
  : jsstring :=
  js "/agents/groups/" ++ groupId ++ js "/alerts" ++ query (listGroupAlerts_qs params).

Definition listGroupAlerts (groupId : jsstring) (params : option AlertsParams)
  : io value :=
  apiFetch (listGroupAlerts_path groupId params) no_options.

End WithEnv.

End Api.

(* ===================================================================== *)
(** * src/lib/api.ts: the authentication API                              *)
(* ===================================================================== *)

Module AuthApi.
Import JS Api.

(** A page load evaluates the module afresh, [let accessToken = null]
    and [let refreshPromise = null], with local storage as the browser
    kept it. *)
Definition reload (w : World) : World :=
  {| accessToken := VNull; localStorage := localStorage w;
     location_href := location_href w; fetch_log := fetch_log w;
     refreshPromise := None |}.

(** [promise.finally(() => f())]: [f] runs whatever the outcome, which
    stays that of the promise unless [f] throws. *)
Definition finally {A} (c : io A) (f : io unit) : io A :=
  fun w =>
    match c w with
    | (r, w1) =>
        match f w1 with
        | (Return _, w2) => (r, w2)
        | (Throw e, w2) => (Throw e, w2)
        end
    end.

Section WithEnv.

Variable env : Env.

(** [{ method: 'POST', body: JSON.stringify({ ... }) }] *)
Definition post (fields : Datatypes.list (jsstring * value)%type) : RequestInit :=
  {| method := Some (js "POST"); headers := ∅;
     body := Some (JSON_stringify env (VObj fields)) |}.

Definition register (email password name : jsstring) : io value :=
  apiFetch env (js "/auth/register")
    (post [(js "email", VStr email); (js "password", VStr password);
           (js "name", VStr name)]).

Definition login (email password : jsstring) : io value :=
  apiFetch env (js "/auth/login")
    (post [(js "email", VStr email); (js "password", VStr password)]).

Definition me : io value := apiFetch env (js "/auth/me") no_options.

Definition listAccounts : io value := apiFetch env (js "/auth/accounts") no_options.

Definition switchAccount (accountId : jsstring) : io value :=
  apiFetch env (js "/auth/switch-account") (post [(js "account_id", VStr accountId)]).

Definition logout : io value :=
  refreshToken <- getRefreshToken env ;;
  finally
    (apiFetch env (js "/auth/logout") (post [(js "refresh_token", refreshToken)]))
    (clearTokens env).

End WithEnv.

End AuthApi.

(* ===================================================================== *)
(** * The agent API as the pages use it                                   *)
(* ===================================================================== *)

(** The pages call the methods of [agentApi] with typed arguments and rely
    on the declared types of the results.  Here a call is an event with
    its arguments, answered by the back end with a typed result or an
    exception; what each call puts on the wire is in [Api]. *)

Module AgentApi.
Import JS.

Inductive Severity := info | warning | critical.
Inductive Category := store | region | device_type | customer.
Inductive ChannelType := email | webhook.
Inductive WebhookMethod := GET | POST | PUT | PATCH | DELETE.

Definition Severity_text (s : Severity) : jsstring :=
  match s with
  | info => js "info"
  | warning => js "warning"
  | critical => js "critical"
  end.

Module AgentGroup.
Record t := {
  id : jsstring;
  account_id : jsstring;
  name : jsstring;
  category : Category;
  description : jsstring;
  created_at : number;
  updated_at : number;
  agent_count : option number;
}.
End AgentGroup.

Module AgentGroupRule.
Record t := {
  id : jsstring;
  group_id : jsstring;
  account_id : jsstring;
  name : jsstring;
  metric : jsstring;
  operator : jsstring;
  threshold : jsstring;
  severity : Severity;
  window_seconds : number;
  enabled : number;
  webhook_url : option jsstring;
  created_at : number;
  updated_at : number;
}.
End AgentGroupRule.

Module AgentGroupAlertChannel.
Record t := {
  id : jsstring;
  group_id : jsstring;
  account_id : jsstring;
  type : ChannelType;
  target : jsstring;
  webhook_method : option WebhookMethod;
  webhook_headers : option jsstring;
  webhook_body : option jsstring;
  enabled : number;
  created_at : number;
  updated_at : number;
}.
End AgentGroupAlertChannel.

Module AgentAlertOccurrence.
Record t := {
  id : jsstring;
  account_id : jsstring;
  group_id : jsstring;
  agent_id : jsstring;
  rule_id : jsstring;
  severity : Severity;
  metric : jsstring;
  message : jsstring;
  anomaly_type : jsstring;
  anomaly_data : value;
  created_at : number;
  (** the optional fields: [None] is [undefined] or [null] *)
  agent_display_name : option jsstring;
  agent_thing_name : option jsstring;
  rule_name : option jsstring;
}.
End AgentAlertOccurrence.

(** The [data] argument of [createGroupRule]. *)
Module RuleData.
Record t := {
  name : jsstring;
  metric : jsstring;
  operator : jsstring;
  threshold : jsstring;
  severity : option Severity;
  window_seconds : option number;
  enabled : option bool;
  webhook_url : option jsstring;
}.
End RuleData.

(** The [data] argument of [createGroupAlertChannel]. *)
Module ChannelData.
Record t := {
  type : ChannelType;
  target : jsstring;
  enabled : option bool;
  webhook_method : option WebhookMethod;
  webhook_headers : option (gmap jsstring jsstring);
  webhook_body : option jsstring;
}.
End ChannelData.

(** The [params] argument of [listGroupAlerts]. *)
Module AlertsParams.
Record t := {
  limit : option number;
  offset : option number;
}.
End AlertsParams.

Inductive ApiCall :=
| ListGroups
| ListGroupRules (groupId : jsstring)
| CreateGroupRule (groupId : jsstring) (data : RuleData.t)
| ListGroupAlertChannels (groupId : jsstring)
| CreateGroupAlertChannel (groupId : jsstring) (data : ChannelData.t)
| ListGroupAlerts (groupId : jsstring) (params : option AlertsParams.t).

Record Created := {
  created_id : jsstring;
  created_ok : bool;
}.

(** The back end: the outcome of each kind of call, given the calls made
    so far (latest first, the one being answered at the head). *)
Record Backend := {
  reply_created : list ApiCall -> completion Created;
  reply_groups : list ApiCall -> completion (list AgentGroup.t);
  reply_rules : list ApiCall -> completion (list AgentGroupRule.t);
  reply_channels : list ApiCall -> completion (list AgentGroupAlertChannel.t);
  reply_alerts : list ApiCall -> completion (list AgentAlertOccurrence.t * number);
}.

(** ** The monad of event handlers

    A handler threads the React state [S] of its page and the trace of the
    API calls it has made, and either returns or throws. *)

Section Handlers.

Context {S : Type}.

Definition act (A : Type) : Type :=
  S -> list ApiCall -> completion A * S * list ApiCall.

Definition ret {A} (a : A) : act A := fun st tr => (Return a, st, tr).
Definition throw {A} (e : exn) : act A := fun st tr => (Throw e, st, tr).
Definition bind {A B} (c : act A) (k : A -> act B) : act B :=
  fun st tr =>
    match c st tr with
    | (Return a, st', tr') => k a st' tr'
    | (Throw e, st', tr') => (Throw e, st', tr')
    end.
Definition get : act S := fun st tr => (Return st, st, tr).
(** a [setX] call *)
Definition set (f : S -> S) : act unit := fun st tr => (Return tt, f st, tr).
(** [try { c } catch (err) { h err }] *)
Definition try_catch {A} (c : act A) (h : exn -> act A) : act A :=
  fun st tr =>
    match c st tr with
    | (Return a, st', tr') => (Return a, st', tr')
    | (Throw e, st', tr') => h e st' tr'
    end.
(** [try { c } finally { f }] where [f] does not throw or return *)
Definition try_finally {A} (c : act A) (f : act unit) : act A :=
  fun st tr =>
    match c st tr with
    | (r, st', tr') =>
        match f st' tr' with
        | (Return _, st'', tr'') => (r, st'', tr'')
        | (Throw e, st'', tr'') => (Throw e, st'', tr'')
        end
    end.

(** An API call: it is recorded, then answered. *)
Definition call {A} (c : ApiCall) (reply : list ApiCall -> completion A) : act A :=
  fun st tr => (reply (c :: tr), st, c :: tr).

Variable backend : Backend.

Definition listGroups : act (list AgentGroup.t) :=
  call ListGroups (reply_groups backend).

Definition listGroupRules (groupId : jsstring) : act (list AgentGroupRule.t) :=
  call (ListGroupRules groupId) (reply_rules backend).

Definition createGroupRule (groupId : jsstring) (data : RuleData.t) : act Created :=
  call (CreateGroupRule groupId data) (reply_created backend).

Definition listGroupAlertChannels (groupId : jsstring)
  : act (list AgentGroupAlertChannel.t) :=
  call (ListGroupAlertChannels groupId) (reply_channels backend).

Definition createGroupAlertChannel (groupId : jsstring) (data : ChannelData.t)
  : act Created :=
  call (CreateGroupAlertChannel groupId data) (reply_created backend).

Definition listGroupAlerts (groupId : jsstring) (params : option AlertsParams.t)
  : act (list AgentAlertOccurrence.t * number) :=
  call (ListGroupAlerts groupId params) (reply_alerts backend).

End Handlers.

Arguments act : clear implicits.

End AgentApi.

(* ===================================================================== *)
(** * src/app/dashboard/rules/page.tsx                                    *)
(* ===================================================================== *)

Module RulesPage.
Import JS AgentApi.

Record RuleFormState := {
  ruleName : jsstring;
  ruleMetric : jsstring;
  ruleOperator : jsstring;
  ruleThreshold : jsstring;
  ruleSeverity : Severity;
  ruleWindow : number;
}.

Record RuleTemplate := {
  id : jsstring;
  title : jsstring;
  description : jsstring;
  form : RuleFormState;
}.

Record MetricOption := {
  value : jsstring;
  label : jsstring;
  thresholdHint : jsstring;
}.

Definition METRIC_OPTIONS : list MetricOption := [
  {| value := js "cpu"; label := js "CPU usage (%)"; thresholdHint := js "e.g. 90" |};
  {| value := js "memory"; label := js "Memory usage (%)"; thresholdHint := js "e.g. 90" |};
  {| value := js "disk"; label := js "Disk usage (%)"; thresholdHint := js "e.g. 95" |};
  {| value := js "process"; label := js "Process status";
     thresholdHint := js "e.g. offline, missing" |};
  {| value := js "network"; label := js "Network status";
     thresholdHint := js "e.g. disconnected, fail" |};
  {| value := js "usb"; label := js "USB device change";
     thresholdHint := js "e.g. removed, added" |}
].

Definition RULE_TEMPLATES : list RuleTemplate := [
  {| id := js "cpu-spike-90-30s";
     title := js "CPU spike";
     description := js "CPU usage >= 90% for 30s or longer";
     form := {| ruleName := js "CPU > 90% (30s)"; ruleMetric := js "cpu";
                ruleOperator := js ">="; ruleThreshold := js "90";
                ruleSeverity := warning; ruleWindow := of_Z 30 |} |};
  {| id := js "memory-high-90-300s";
     title := js "Memory high";
     description := js "Memory usage >= 90% for 5min or longer";
     form := {| ruleName := js "Memory > 90% (5m)"; ruleMetric := js "memory";
                ruleOperator := js ">="; ruleThreshold := js "90";
                ruleSeverity := warning; ruleWindow := of_Z 300 |} |};
  {| id := js "disk-critical-95-60s";
     title := js "Disk threshold";
     description := js "Disk usage >= 95% for 60s or longer";
     form := {| ruleName := js "Disk > 95% (60s)"; ruleMetric := js "disk";
                ruleOperator := js ">="; ruleThreshold := js "95";
                ruleSeverity := critical; ruleWindow := of_Z 60 |} |};
  {| id := js "network-disconnected";
     title := js "Network disconnected";
     description := js "Trigger when network status is disconnected";
     form := {| ruleName := js "Network disconnected"; ruleMetric := js "network";
                ruleOperator := js "=="; ruleThreshold := js "disconnected";
                ruleSeverity := critical; ruleWindow := of_Z 1 |} |};
  {| id := js "usb-removed";
     title := js "USB device removed";
     description := js "Trigger when critical USB device is removed";
     form := {| ruleName := js "USB removed"; ruleMetric := js "usb";
                ruleOperator := js "=="; ruleThreshold := js "removed";
                ruleSeverity := critical; ruleWindow := of_Z 1 |} |}
].

Definition INITIAL_FORM : RuleFormState :=
  {| ruleName := []; ruleMetric := js "cpu"; ruleOperator := js ">=";
     ruleThreshold := js "90"; ruleSeverity := warning; ruleWindow := of_Z 60 |}.

(** The [<option>] values of the operator [<select>], in document order. *)
Definition OPERATOR_OPTIONS : list jsstring :=
  [js ">="; js ">"; js "<="; js "<"; js "=="; js "!="].

(** ** The state of the component: one field per [useState] cell *)

Record State := {
  groups : list AgentGroup.t;
  selectedGroupId : jsstring;
  rules : list AgentGroupRule.t;
  loading : bool;
  saving : bool;
  error : jsstring;
  notice : jsstring;
  (** the [form] cell *)
  formState : RuleFormState;
}.

Definition initial_state : State :=
  {| groups := []; selectedGroupId := []; rules := []; loading := true;
     saving := false; error := []; notice := []; formState := INITIAL_FORM |}.

Definition setSelectedGroupId (x : jsstring) (st : State) : State :=
  {| groups := groups st; selectedGroupId := x; rules := rules st;
     loading := loading st; saving := saving st; error := error st;
     notice := notice st; formState := formState st |}.
Definition setRules (x : list AgentGroupRule.t) (st : State) : State :=
  {| groups := groups st; selectedGroupId := selectedGroupId st; rules := x;
     loading := loading st; saving := saving st; error := error st;
     notice := notice st; formState := formState st |}.
Definition setSaving (x : bool) (st : State) : State :=
  {| groups := groups st; selectedGroupId := selectedGroupId st; rules := rules st;
     loading := loading st; saving := x; error := error st;
     notice := notice st; formState := formState st |}.
Definition setError (x : jsstring) (st : State) : State :=
  {| groups := groups st; selectedGroupId := selectedGroupId st; rules := rules st;
     loading := loading st; saving := saving st; error := x;
     notice := notice st; formState := formState st |}.
Definition setNotice (x : jsstring) (st : State) : State :=
  {| groups := groups st; selectedGroupId := selectedGroupId st; rules := rules st;
     loading := loading st; saving := saving st; error := error st;
     notice := x; formState := formState st |}.
(** [setForm(prev => f(prev))] *)
Definition setForm (f : RuleFormState -> RuleFormState) (st : State) : State :=
  {| groups := groups st; selectedGroupId := selectedGroupId st; rules := rules st;
     loading := loading st; saving := saving st; error := error st;
     notice := notice st; formState := f (formState st) |}.

(** [{ ...prev, field: x }] *)
Definition with_ruleName (x : jsstring) (f : RuleFormState) : RuleFormState :=
  {| ruleName := x; ruleMetric := ruleMetric f; ruleOperator := ruleOperator f;
     ruleThreshold := ruleThreshold f; ruleSeverity := ruleSeverity f;
     ruleWindow := ruleWindow f |}.
Definition with_ruleMetric (x : jsstring) (f : RuleFormState) : RuleFormState :=
  {| ruleName := ruleName f; ruleMetric := x; ruleOperator := ruleOperator f;
     ruleThreshold := ruleThreshold f; ruleSeverity := ruleSeverity f;
     ruleWindow := ruleWindow f |}.
Definition with_ruleOperator (x : jsstring) (f : RuleFormState) : RuleFormState :=
  {| ruleName := ruleName f; ruleMetric := ruleMetric f; ruleOperator := x;
     ruleThreshold := ruleThreshold f; ruleSeverity := ruleSeverity f;
     ruleWindow := ruleWindow f |}.
Definition with_ruleThreshold (x : jsstring) (f : RuleFormState) : RuleFormState :=
  {| ruleName := ruleName f; ruleMetric := ruleMetric f; ruleOperator := ruleOperator f;
     ruleThreshold := x; ruleSeverity := ruleSeverity f;
     ruleWindow := ruleWindow f |}.
Definition with_ruleSeverity (x : Severity) (f : RuleFormState) : RuleFormState :=
  {| ruleName := ruleName f; ruleMetric := ruleMetric f; ruleOperator := ruleOperator f;
     ruleThreshold := ruleThreshold f; ruleSeverity := x;
     ruleWindow := ruleWindow f |}.
Definition with_ruleWindow (x : number) (f : RuleFormState) : RuleFormState :=
  {| ruleName := ruleName f; ruleMetric := ruleMetric f; ruleOperator := ruleOperator f;
     ruleThreshold := ruleThreshold f; ruleSeverity := ruleSeverity f;
     ruleWindow := x |}.

Notation "x <- c ;; k" := (AgentApi.bind c (fun x => k))
  (at level 100, c at next level, right associativity).
Notation "c ;;; k" := (AgentApi.bind c (fun _ => k))
  (at level 100, right associativity).

Section Component.

(** [Number::toString] beyond the safe integers (see [JS]). *)
Variable shortest_digits : number -> jsstring.
Variable backend : Backend.

(** [useMemo] over exactly the five fields the text reads: the memoised
    value is the value of the expression. *)
Definition previewText (form : RuleFormState) : jsstring :=
  js "Alert " ++ Severity_text (ruleSeverity form) ++ js " when "
  ++ ruleMetric form ++ js " " ++ ruleOperator form ++ js " "
  ++ ruleThreshold form ++ js " for "
  ++ Number_toString shortest_digits (ruleWindow form) ++ js "s or longer".

Definition fetchRules (groupId : jsstring) : act State unit :=
  if negb (truthy_string groupId) then set (setRules [])
  else
    res <- listGroupRules backend groupId ;;
    set (setRules res).

Definition applyTemplate (template : RuleTemplate) : act State unit :=
  set (setForm (fun _ => form template)) ;;;
  set (setNotice (js "Template applied: " ++ title template)) ;;;
  set (setError []).

(** The submit handler ([e.preventDefault()] has no effect on the state). *)
Definition handleCreateRule : act State unit :=
  st <- get ;;
  let form := formState st in
  if negb (truthy_string (selectedGroupId st)) then
    set (setError (js "Please select a group first."))
  else if negb (truthy_string (trim (ruleName form))) then
    set (setError (js "Please enter a rule name."))
  else if negb (truthy_string (trim (ruleThreshold form))) then
    set (setError (js "Please enter a threshold."))
  else if ltb (ruleWindow form) (of_Z 1) || Number_isNaN (ruleWindow form) then
    set (setError (js "Window must be at least 1 second."))
  else
    try_finally
      (try_catch
         (set (setSaving true) ;;;
          set (setError []) ;;;
          _created <- createGroupRule backend (selectedGroupId st)
            {| RuleData.name := trim (ruleName form);
               RuleData.metric := ruleMetric form;
               RuleData.operator := ruleOperator form;
               RuleData.threshold := trim (ruleThreshold form);
               RuleData.severity := Some (ruleSeverity form);
               RuleData.window_seconds := Some (ruleWindow form);
               RuleData.enabled := None;
               RuleData.webhook_url := None |} ;;
          set (setForm (with_ruleName [])) ;;;
          set (setNotice (js "Rule added.")) ;;;
          fetchRules (selectedGroupId st))
         (fun err =>
            match err with
            | ApiError _ message _ => set (setError message)
            | _ => set (setError (js "Failed to create rule."))
            end))
      (set (setSaving false)).

(** ** What the user can do to the form *)

Inductive Event :=
(** a click on the i-th template button *)
| ClickTemplate (i : nat)
| ChangeRuleName (text : jsstring)
(** the i-th [<option>] of the metric, respectively operator, select *)
| ChangeMetric (i : nat)
| ChangeOperator (i : nat)
| ChangeThreshold (text : jsstring)
| ChangeSeverity (s : Severity)
(** the window input, carrying [Number(e.target.value)] *)
| ChangeWindow (n : number)
(** the selected group changes, by the group select or by [fetchGroups];
    the effect that follows reloads the rules *)
| SelectGroup (groupId : jsstring)
| Submit.

Definition dispatch (ev : Event) : act State unit :=
  match ev with
  | ClickTemplate i =>
      match RULE_TEMPLATES !! i with
      | Some template => applyTemplate template
      | None => ret tt
      end
  | ChangeRuleName text => set (setForm (with_ruleName text))
  | ChangeMetric i =>
      match METRIC_OPTIONS !! i with
      | Some opt => set (setForm (with_ruleMetric (value opt)))
      | None => ret tt
      end
  | ChangeOperator i =>
      match OPERATOR_OPTIONS !! i with
      | Some op => set (setForm (with_ruleOperator op))
      | None => ret tt
      end
  | ChangeThreshold text => set (setForm (with_ruleThreshold text))
  | ChangeSeverity s => set (setForm (with_ruleSeverity s))
  | ChangeWindow n => set (setForm (with_ruleWindow n))
  | SelectGroup groupId =>
      set (setSelectedGroupId groupId) ;;;
      try_catch (fetchRules groupId)
        (fun _ => set (setError (js "Failed to load rules.")))
  | Submit => handleCreateRule
  end.

(** The states and call traces the page can reach from its first
    render. *)
Inductive reachable : State -> list ApiCall -> Prop :=
| reachable_initial : reachable initial_state []
| reachable_dispatch st tr ev r st' tr' :
    reachable st tr ->
    dispatch ev st tr = (r, st', tr') ->
    reachable st' tr'.

(** A session: the events of the user, one after the other. *)
Fixpoint run_events (evs : list Event) (st : State) (tr : list ApiCall)
  : State * list ApiCall :=
  match evs with
  | [] => (st, tr)
  | ev :: rest =>
      match dispatch ev st tr with
      | (_, st', tr') => run_events rest st' tr'
      end
  end.

End Component.

(** ** Loading the groups *)

Definition setGroups (x : list AgentGroup.t) (st : State) : State :=
  {| groups := x; selectedGroupId := selectedGroupId st; rules := rules st;
     loading := loading st; saving := saving st; error := error st;
     notice := notice st; formState := formState st |}.
Definition setLoading (x : bool) (st : State) : State :=
  {| groups := groups st; selectedGroupId := selectedGroupId st; rules := rules st;
     loading := x; saving := saving st; error := error st;
     notice := notice st; formState := formState st |}.

(** [groups.some((g) => g.id === id)] *)
Definition some_group (groups : list AgentGroup.t) (id : jsstring) : bool :=
  existsb (fun g => bool_decide (AgentGroup.id g = id)) groups.

(** [groups.find((g) => g.id === selectedGroupId) || null] *)
Definition selectedGroup (st : State) : option AgentGroup.t :=
  List.find (fun g => bool_decide (AgentGroup.id g = selectedGroupId st)) (groups st).

Section Groups.

Variable backend : Backend.
(** [searchParams.get('groupId') || ''] *)
Variable groupIdFromQuery : jsstring.

Definition fetchGroups : act State unit :=
  res <- listGroups backend ;;
  set (setGroups res) ;;;
  match res with
  | [] => set (setSelectedGroupId [])
  | first :: _ =>
      if truthy_string groupIdFromQuery && some_group res groupIdFromQuery
      then set (setSelectedGroupId groupIdFromQuery)
      else
        set (fun st =>
               let prev := selectedGroupId st in
               setSelectedGroupId
                 (if truthy_string prev && some_group res prev
                  then prev else AgentGroup.id first) st)
  end.

(** The effect that loads the groups when the page is shown. *)
Definition loadGroups : act State unit :=
  try_finally
    (try_catch
       (set (setLoading true) ;;;
        fetchGroups)
       (fun _ => set (setError (js "Failed to load groups."))))
    (set (setLoading false)).

End Groups.

(** ** Notions of the specification

    The page itself has no notion of an "ordering operator" or of a
    "numeric threshold"; the two predicates below only serve to state
    what the specification asks of rule creation. *)

(** Modelled from the spec: the ordering operators [>], [>=], [<], [<=]. *)
Definition ordering_operator (op : jsstring) : bool :=
  bool_decide (op = js ">") || bool_decide (op = js ">=")
  || bool_decide (op = js "<") || bool_decide (op = js "<=").

Definition is_digit (c : N) : bool := ((48 <=? c) && (c <=? 57))%N.

(** digits, then at most one point followed by digits only *)
Fixpoint decimal_body (s : jsstring) (seen_digit : bool) : bool :=
  match s with
  | [] => seen_digit
  | c :: s' =>
      if is_digit c then decimal_body s' true
      else if (c =? 46)%N
           then forallb is_digit s' && (seen_digit || truthy_string s')
           else false
  end.

(** Modelled from the spec: a threshold that parses as a number, read as
    a decimal numeral (an optional sign, digits, an optional fraction). *)
Definition decimal_numeral (s : jsstring) : bool :=
  match s with
  | c :: s' => if ((c =? 45) || (c =? 43))%N then decimal_body s' false
               else decimal_body s false
  | [] => false
  end.

End RulesPage.

(* ===================================================================== *)
(** * src/app/dashboard/alerts/page.tsx                                   *)
(* ===================================================================== *)

Module AlertsPage.
Import JS AgentApi.

Definition dquote : jsstring := [34%N].
Definition newline : jsstring := [10%N].

(** The initial text of the headers and body inputs: a JSON object on
    three lines. *)
Definition DEFAULT_HEADERS : jsstring :=
  js "{" ++ newline ++ js "  " ++ dquote ++ js "Content-Type" ++ dquote ++ js ": "
  ++ dquote ++ js "application/json" ++ dquote ++ newline ++ js "}".

Definition DEFAULT_BODY : jsstring :=
  js "{" ++ newline ++ js "  " ++ dquote ++ js "event" ++ dquote ++ js ": "
  ++ dquote ++ js "anomaly" ++ dquote ++ newline ++ js "}".

(** The [useState] cells the functions below read or write; the cells of
    the inline channel editor ([editingId], [editTarget], ...) are left
    out. *)
Record State := {
  groups : list AgentGroup.t;
  selectedGroupId : jsstring;
  channels : list AgentGroupAlertChannel.t;
  alertHistory : list AgentAlertOccurrence.t;
  loading : bool;
  saving : bool;
  error : jsstring;
  notice : jsstring;
  channelType : ChannelType;
  target : jsstring;
  webhookMethod : WebhookMethod;
  webhookHeaders : jsstring;
  webhookBody : jsstring;
}.

Definition initial_state : State :=
  {| groups := []; selectedGroupId := []; channels := []; alertHistory := [];
     loading := true; saving := false; error := []; notice := [];
     channelType := email; target := []; webhookMethod := POST;
     webhookHeaders := DEFAULT_HEADERS; webhookBody := DEFAULT_BODY |}.

Definition setChannels (x : list AgentGroupAlertChannel.t) (st : State) : State :=
  {| groups := groups st; selectedGroupId := selectedGroupId st; channels := x;
     alertHistory := alertHistory st; loading := loading st; saving := saving st;
     error := error st; notice := notice st; channelType := channelType st;
     target := target st; webhookMethod := webhookMethod st;
     webhookHeaders := webhookHeaders st; webhookBody := webhookBody st |}.
Definition setAlertHistory (x : list AgentAlertOccurrence.t) (st : State) : State :=
  {| groups := groups st; selectedGroupId := selectedGroupId st; channels := channels st;
     alertHistory := x; loading := loading st; saving := saving st;
     error := error st; notice := notice st; channelType := channelType st;
     target := target st; webhookMethod := webhookMethod st;
     webhookHeaders := webhookHeaders st; webhookBody := webhookBody st |}.
Definition setSaving (x : bool) (st : State) : State :=
  {| groups := groups st; selectedGroupId := selectedGroupId st; channels := channels st;
     alertHistory := alertHistory st; loading := loading st; saving := x;
     error := error st; notice := notice st; channelType := channelType st;
     target := target st; webhookMethod := webhookMethod st;
     webhookHeaders := webhookHeaders st; webhookBody := webhookBody st |}.
Definition setError (x : jsstring) (st : State) : State :=
  {| groups := groups st; selectedGroupId := selectedGroupId st; channels := channels st;
     alertHistory := alertHistory st; loading := loading st; saving := saving st;
     error := x; notice := notice st; channelType := channelType st;
     target := target st; webhookMethod := webhookMethod st;
     webhookHeaders := webhookHeaders st; webhookBody := webhookBody st |}.
Definition setNotice (x : jsstring) (st : State) : State :=
  {| groups := groups st; selectedGroupId := selectedGroupId st; channels := channels st;
     alertHistory := alertHistory st; loading := loading st; saving := saving st;
     error := error st; notice := x; channelType := channelType st;
     target := target st; webhookMethod := webhookMethod st;
     webhookHeaders := webhookHeaders st; webhookBody := webhookBody st |}.
Definition setTarget (x : jsstring) (st : State) : State :=
  {| groups := groups st; selectedGroupId := selectedGroupId st; channels := channels st;
     alertHistory := alertHistory st; loading := loading st; saving := saving st;
     error := error st; notice := notice st; channelType := channelType st;
     target := x; webhookMethod := webhookMethod st;
     webhookHeaders := webhookHeaders st; webhookBody := webhookBody st |}.
Definition setWebhookMethod (x : WebhookMethod) (st : State) : State :=
  {| groups := groups st; selectedGroupId := selectedGroupId st; channels := channels st;
     alertHistory := alertHistory st; loading := loading st; saving := saving st;
     error := error st; notice := notice st; channelType := channelType st;
     target := target st; webhookMethod := x;
     webhookHeaders := webhookHeaders st; webhookBody := webhookBody st |}.
Definition setWebhookHeaders (x : jsstring) (st : State) : State :=
  {| groups := groups st; selectedGroupId := selectedGroupId st; channels := channels st;
     alertHistory := alertHistory st; loading := loading st; saving := saving st;
     error := error st; notice := notice st; channelType := channelType st;
     target := target st; webhookMethod := webhookMethod st;
     webhookHeaders := x; webhookBody := webhookBody st |}.
Definition setWebhookBody (x : jsstring) (st : State) : State :=
  {| groups := groups st; selectedGroupId := selectedGroupId st; channels := channels st;
     alertHistory := alertHistory st; loading := loading st; saving := saving st;
     error := error st; notice := notice st; channelType := channelType st;
     target := target st; webhookMethod := webhookMethod st;
     webhookHeaders := webhookHeaders st; webhookBody := x |}.

Notation "x <- c ;; k" := (AgentApi.bind c (fun x => k))
  (at level 100, c at next level, right associativity).
Notation "c ;;; k" := (AgentApi.bind c (fun _ => k))
  (at level 100, right associativity).

(** [result[k] = v] on a plain object, for a string [v]: an own property is
    created or overwritten, except that the name [__proto__] reaches the
    setter of [Object.prototype], which ignores a value that is neither an
    object nor [null]. *)
Definition assign (result : gmap jsstring jsstring) (k v : jsstring)
  : gmap jsstring jsstring :=
  if decide (k = js "__proto__") then result else <[k := v]> result.

(** The loop of [parseHeadersJson] over [Object.entries(parsed)]. *)
Fixpoint collect_headers (entries : list (jsstring * JS.value))
    (result : gmap jsstring jsstring) : completion (gmap jsstring jsstring) :=
  match entries with
  | [] => Return result
  | (k, v) :: rest =>
      match v with
      | VStr s => collect_headers rest (assign result k s)
      | _ => Throw (Error (js "Header " ++ dquote ++ k ++ dquote
                           ++ js " value must be a string."))
      end
  end.

Section Component.

(** [JSON.parse]: the value a text denotes, or a SyntaxError. *)
Variable JSON_parse : jsstring -> completion JS.value.
Variable backend : Backend.

Definition parseHeadersJson (value : jsstring)
  : completion (gmap jsstring jsstring) :=
  if negb (truthy_string (trim value)) then Return ∅
  else
    match JSON_parse value with
    | Throw e => Throw e
    | Return parsed =>
        match parsed with
        | VObj entries => collect_headers entries ∅
        | _ => Throw (Error (js "Headers must be a JSON object."))
        end
    end.

Definition fetchChannels (groupId : jsstring) : act State unit :=
  if negb (truthy_string groupId) then set (setChannels [])
  else
    res <- listGroupAlertChannels backend groupId ;;
    set (setChannels res).

Definition fetchAlertHistory (groupId : jsstring) : act State unit :=
  if negb (truthy_string groupId) then set (setAlertHistory [])
  else
    res <- listGroupAlerts backend groupId
             (Some {| AlertsParams.limit := Some (of_Z 50);
                      AlertsParams.offset := None |}) ;;
    set (setAlertHistory (fst res)).

(** [channelType === 'webhook' ? x : undefined] *)
Definition when_webhook {A} (t : ChannelType) (x : option A) : option A :=
  match t with webhook => x | email => None end.

(** The submit handler of the "Add channel" form. *)
Definition handleCreateChannel : act State unit :=
  st <- get ;;
  if negb (truthy_string (selectedGroupId st)) then
    set (setError (js "Please select a group first."))
  else if negb (truthy_string (trim (target st))) then
    set (setError (js "Please enter email or webhook URL."))
  else
    let parsed :=
      match channelType st with
      | webhook =>
          match parseHeadersJson (webhookHeaders st) with
          | Return h => Return (Some h)
          | Throw err => Throw err
          end
      | email => Return None
      end in
    match parsed with
    | Throw err =>
        (* every exception of [parseHeadersJson] is an [Error] *)
        set (setError (exn_message err))
    | Return headersPayload =>
        try_finally
          (try_catch
             (set (setSaving true) ;;;
              set (setError []) ;;;
              _created <- createGroupAlertChannel backend (selectedGroupId st)
                {| ChannelData.type := channelType st;
                   ChannelData.target := trim (target st);
                   ChannelData.enabled := None;
                   ChannelData.webhook_method :=
                     when_webhook (channelType st) (Some (webhookMethod st));
                   ChannelData.webhook_headers :=
                     when_webhook (channelType st) headersPayload;
                   ChannelData.webhook_body :=
                     when_webhook (channelType st) (Some (webhookBody st)) |} ;;
              set (setTarget []) ;;;
              set (setWebhookMethod POST) ;;;
              set (setWebhookHeaders DEFAULT_HEADERS) ;;;
              set (setWebhookBody DEFAULT_BODY) ;;;
              set (setNotice (js "Alert channel added.")) ;;;
              fetchChannels (selectedGroupId st))
             (fun err =>
                match err with
                | ApiError _ message _ => set (setError message)
                | _ => set (setError (js "Failed to add alert channel."))
                end))
          (set (setSaving false))
    end.

End Component.

(** ** The "Recent alerts" panel *)






(** [groups.find((g) => g.id === selectedGroupId) || null] *)
Definition selectedGroup (st : State) : option AgentGroup.t :=
  List.find (fun g => bool_decide (AgentGroup.id g = selectedGroupId st)) (groups st).






(** ** The delivery log of the specification *)



End AlertsPage.

(* ===================================================================== *)
(** * The dashboard overview page                                         *)
(* ===================================================================== *)

Module Overview.
Import JS.

Section Component.

Variable shortest_digits : number -> jsstring.
(** the clock: the value [Date.now()] reads *)
Variable Date_now : number.

Definition formatTimeAgo (timestamp : number) : jsstring :=
  let now := Math_floor (div Date_now (of_Z 1000)) in
  let diff := sub now timestamp in
  if ltb diff (of_Z 60) then js "Just now"
  else if ltb diff (of_Z 3600) then
    Number_toString shortest_digits (Math_floor (div diff (of_Z 60))) ++ js "m ago"
  else if ltb diff (of_Z 86400) then
    Number_toString shortest_digits (Math_floor (div diff (of_Z 3600))) ++ js "h ago"
  else
    Number_toString shortest_digits (Math_floor (div diff (of_Z 86400))) ++ js "d ago".

End Component.

End Overview.

(* ===================================================================== *)
(** * Pages that use the API module directly                              *)
(* ===================================================================== *)

(** The handlers of the login page and of the dashboard layout call
    [authApi] and the token functions themselves.  A handler threads the
    React state [S] of its component and the world of [Api], and either
    returns or throws; what a [setX] call did before an exception
    stays done. *)

Module Page.
Import JS Api.

Section Handlers.

Context {S : Type}.

Definition act (A : Type) : Type := S -> World -> completion A * S * World.

Definition ret {A} (a : A) : act A := fun st w => (Return a, st, w).
Definition throw {A} (e : exn) : act A := fun st w => (Throw e, st, w).
Definition bind {A B} (c : act A) (k : A -> act B) : act B :=
  fun st w =>
    match c st w with
    | (Return a, st', w') => k a st' w'
    | (Throw e, st', w') => (Throw e, st', w')
    end.
Definition get : act S := fun st w => (Return st, st, w).
(** a [setX] call, or a call of the router *)
Definition set (f : S -> S) : act unit := fun st w => (Return tt, f st, w).
(** a call into the API module *)
Definition run {A} (c : io A) : act A :=
  fun st w => match c w with (r, w') => (r, st, w') end.
(** [v.key] *)
Definition field (v : value) (key : jsstring) : act value :=
  fun st w => (Get v key, st, w).
(** [try { c } catch (err) { h err }] *)
Definition try_catch {A} (c : act A) (h : exn -> act A) : act A :=
  fun st w =>
    match c st w with
    | (Return a, st', w') => (Return a, st', w')
    | (Throw e, st', w') => h e st' w'
    end.
(** [try { c } finally { f }], and [promise.finally(() => f())] *)
Definition try_finally {A} (c : act A) (f : act unit) : act A :=
  fun st w =>
    match c st w with
    | (r, st', w') =>
        match f st' w' with
        | (Return _, st'', w'') => (r, st'', w'')
        | (Throw e, st'', w'') => (Throw e, st'', w'')
        end
    end.

End Handlers.

Arguments act : clear implicits.

End Page.

(* ===================================================================== *)
(** * src/app/(auth)/login/page.tsx                                       *)
(* ===================================================================== *)

Module LoginPage.
Import JS Page.

Notation "x <- c ;; k" := (Page.bind c (fun x => k))
  (at level 100, c at next level, right associativity).
Notation "c ;;; k" := (Page.bind c (fun _ => k))
  (at level 100, right associativity).

(** One field per [useState] cell, and the last [router.replace]. *)
Record State := {
  email : jsstring;
  password : jsstring;
  error : jsstring;
  loading : bool;
  replaced : option jsstring;
}.

Definition initial_state : State :=
  {| email := []; password := []; error := []; loading := false; replaced := None |}.

Definition setError (x : jsstring) (st : State) : State :=
  {| email := email st; password := password st; error := x;
     loading := loading st; replaced := replaced st |}.
Definition setLoading (x : bool) (st : State) : State :=
  {| email := email st; password := password st; error := error st;
     loading := x; replaced := replaced st |}.
(** [router.replace(href)] *)
Definition router_replace (href : jsstring) (st : State) : State :=
  {| email := email st; password := password st; error := error st;
     loading := loading st; replaced := Some href |}.

(** The message shown for an exception that is no ApiError, in UTF-16
    code units. *)
Definition LOGIN_FAILED : jsstring :=
  [47196; 44536; 51064; 50640; 32; 49892; 54056; 54664; 49845; 45768; 45796; 46;
   32; 45796; 49884; 32; 49884; 46020; 54644; 51452; 49464; 50836; 46]%N.

Section Component.

Variable env : Api.Env.

(** The submit handler ([e.preventDefault()] has no effect on the state). *)
Definition handleSubmit : act State unit :=
  st <- get ;;
  set (setError []) ;;;
  set (setLoading true) ;;;
  try_finally
    (try_catch
       (res <- run (AuthApi.login env (email st) (password st)) ;;
        access <- field res (js "access_token") ;;
        run (Api.setAccessToken env access) ;;;
        refresh <- field res (js "refresh_token") ;;
        run (Api.setRefreshToken env refresh) ;;;
        set (router_replace (js "/dashboard")))
       (fun err =>
          match err with
          | ApiError _ message _ => set (setError message)
          | _ => set (setError LOGIN_FAILED)
          end))
    (set (setLoading false)).

End Component.

End LoginPage.

(* ===================================================================== *)
(** * src/app/dashboard/layout.tsx                                        *)
(* ===================================================================== *)

Module Layout.
Import JS Page.

Notation "x <- c ;; k" := (Page.bind c (fun x => k))
  (at level 100, c at next level, right associativity).
Notation "c ;;; k" := (Page.bind c (fun _ => k))
  (at level 100, right associativity).

(** The cells the handlers write, the last [router.replace] and the
    number of [router.refresh] calls. *)
Record State := {
  user : value;
  currentAccountId : value;
  accounts : value;
  loading : bool;
  replaced : option jsstring;
  refreshes : nat;
}.

Definition initial_state : State :=
  {| user := VNull; currentAccountId := VNull; accounts := VArr [];
     loading := true; replaced := None; refreshes := 0 |}.

Definition setUser (x : value) (st : State) : State :=
  {| user := x; currentAccountId := currentAccountId st; accounts := accounts st;
     loading := loading st; replaced := replaced st; refreshes := refreshes st |}.
Definition setCurrentAccountId (x : value) (st : State) : State :=
  {| user := user st; currentAccountId := x; accounts := accounts st;
     loading := loading st; replaced := replaced st; refreshes := refreshes st |}.
Definition setAccounts (x : value) (st : State) : State :=
  {| user := user st; currentAccountId := currentAccountId st; accounts := x;
     loading := loading st; replaced := replaced st; refreshes := refreshes st |}.
Definition setLoading (x : bool) (st : State) : State :=
  {| user := user st; currentAccountId := currentAccountId st; accounts := accounts st;
     loading := x; replaced := replaced st; refreshes := refreshes st |}.
(** [router.replace(href)] *)
Definition router_replace (href : jsstring) (st : State) : State :=
  {| user := user st; currentAccountId := currentAccountId st; accounts := accounts st;
     loading := loading st; replaced := Some href; refreshes := refreshes st |}.
(** [router.refresh()] *)
Definition router_refresh (st : State) : State :=
  {| user := user st; currentAccountId := currentAccountId st; accounts := accounts st;
     loading := loading st; replaced := replaced st; refreshes := S (refreshes st) |}.

Section Component.

Variable env : Api.Env.

Definition loadUserAndAccounts : act State unit :=
  res <- run (AuthApi.me env) ;;
  u <- field res (js "user") ;;
  set (setUser u) ;;;
  current <- field res (js "current_account_id") ;;
  set (setCurrentAccountId current) ;;;
  r <- run (AuthApi.listAccounts env) ;;
  list <- field r (js "accounts") ;;
  set (setAccounts list).

(** The effect that runs when the layout is shown. *)
Definition mount : act State unit :=
  token <- run (Api.getAccessToken env) ;;
  if negb (truthy token) then set (router_replace (js "/login"))
  else
    try_finally
      (try_catch loadUserAndAccounts
         (fun _ =>
            run (Api.clearTokens env) ;;;
            set (router_replace (js "/login"))))
      (set (setLoading false)).

(** [accountId === currentAccountId], for a string [accountId] *)
Definition same_account (accountId : jsstring) (current : value) : bool :=
  match current with
  | VStr c => bool_decide (accountId = c)
  | _ => false
  end.

Definition handleSwitchAccount (accountId : jsstring) : act State unit :=
  st <- get ;;
  if same_account accountId (currentAccountId st) then ret tt
  else
    try_catch
      (res <- run (AuthApi.switchAccount env accountId) ;;
       access <- field res (js "access_token") ;;
       run (Api.setAccessToken env access) ;;;
       meRes <- run (AuthApi.me env) ;;
       u <- field meRes (js "user") ;;
       set (setUser u) ;;;
       current <- field meRes (js "current_account_id") ;;
       set (setCurrentAccountId current) ;;;
       set router_refresh)
      (fun _ => ret tt).

Definition handleLogout : act State unit :=
  try_catch
    (run (AuthApi.logout env) ;;; ret tt)
    (fun _ => run (Api.clearTokens env)) ;;;
  set (router_replace (js "/login")).

End Component.

End Layout.

(* ===================================================================== *)
(** * src/app/dashboard/agents/[id]/page.tsx: the event summary           *)
(* ===================================================================== *)

Module AgentDetail.
Import JS.

Record AgentEvent := {
  id : jsstring;
  agent_id : jsstring;
  type : jsstring;
  (** declared a record, but whatever the back end sent *)
  data : value;
  created_at : number;
}.

(** [v?.key] for a key that no prototype defines: [undefined] on [null]
    and [undefined], otherwise as [v.key]. *)
Definition opt_get (v : value) (key : jsstring) : value :=
  match v with
  | VObj props =>
      match own_property props key with
      | Some x => x
      | None => VUndefined
      end
  | _ => VUndefined
  end.

(** [a ?? b] *)
Definition nullish_else (a b : value) : value :=
  match a with
  | VUndefined | VNull => b
  | _ => a
  end.

(** [s.slice(0, n)] *)
Definition slice0 (n : nat) (s : jsstring) : jsstring := firstn n s.

Section Component.

Variable shortest_digits : number -> jsstring.
(** [Number.prototype.toFixed] with one digit *)
Variable toFixed1 : number -> jsstring.
(** [String.prototype.toUpperCase] *)
Variable toUpperCase : jsstring -> jsstring.

(** [String(v)], and [`${v}`]: the conversion can throw. *)
Definition String_ (v : value) : completion jsstring := ToString shortest_digits v.

(** [if (part?.usagePercent !== undefined)
       parts.push(`LABEL ${part.usagePercent.toFixed(1)}%`)]
    for [part] named [name] in the source: the part pushed, if any. *)
Definition usage (label name : jsstring) (part : value)
  : completion (option jsstring) :=
  match opt_get part (js "usagePercent") with
  | VUndefined => Return None
  | VNum n => Return (Some (label ++ js " " ++ toFixed1 n ++ js "%"))
  | VNull => Throw (TypeError (js "Cannot read properties of null"))
  | _ => Throw (TypeError (name ++ js ".usagePercent.toFixed is not a function"))
  end.

(** [parts.push] of the parts present, in order. *)
Definition push (parts : list jsstring) (part : option jsstring) : list jsstring :=
  match part with
  | Some p => parts ++ [p]
  | None => parts
  end.

Definition getEventSummary (event : AgentEvent) : completion jsstring :=
  let data := data event in
  let cpu := opt_get data (js "cpu") in
  let memory := opt_get data (js "memory") in
  let disk := opt_get data (js "disk") in
  let commandId :=
    match opt_get data (js "commandId") with
    | VStr s => slice0 8 s
    | _ => []
    end in
  if decide (type event = js "status") then
    and_then (String_ (or_else (opt_get data (js "status")) (VStr (js "unknown"))))
      (fun status => Return (js "Agent " ++ status))
  else if decide (type event = js "telemetry") then
    and_then (usage (js "CPU") (js "cpu") cpu) (fun p1 =>
    and_then (usage (js "Mem") (js "memory") memory) (fun p2 =>
    and_then (usage (js "Disk") (js "disk") disk) (fun p3 =>
      let parts := push (push (push [] p1) p2) p3 in
      Return (match parts with
              | [] => js "System metrics"
              | _ => join (js " / ") parts
              end))))
  else if decide (type event = js "scan") then
    and_then (String_ (or_else (opt_get data (js "action")) (VStr []))) (fun action =>
      let devices := opt_get data (js "devices") in
      let count :=
        match devices with
        | VArr items => decimal (N.of_nat (length items))
        | _ => js "0"
        end in
      if bool_decide (action = js "usb")
         || (truthy devices && match devices with VArr _ => true | _ => false end)
      then Return (js "USB scan (" ++ count ++ js " devices)")
      else if decide (action = js "health") then Return (js "Health scan completed")
      else if decide (action = js "process") then Return (js "Process scan completed")
      else if decide (action = js "network") then Return (js "Network scan completed")
      else Return (js "Scan result"))
  else if decide (type event = js "anomaly") then
    and_then (String_ (or_else (opt_get data (js "severity")) (VStr (js "warning"))))
      (fun severity =>
    and_then (String_ (or_else (opt_get data (js "message"))
                               (VStr (js "Anomaly detected"))))
      (fun message =>
      Return (js "[" ++ toUpperCase severity ++ js "] " ++ message)))
  else if decide (type event = js "response") then
    let exitCode := opt_get data (js "exitCode") in
    and_then (String_ (nullish_else exitCode (VStr (js "?")))) (fun exit =>
      Return (js "Command " ++ commandId ++ js " exit " ++ exit))
  else Return (type event).

End Component.

End AgentDetail.

(* ===================================================================== *)
(** * Sample data                                                         *)
(* ===================================================================== *)

(** Concrete back ends, groups and page states for the examples. *)

Module Samples.
Import JS AgentApi.

(** A back end that accepts every call and has nothing stored. *)
Definition backend_ok : Backend :=
  {| reply_created := fun _ => Return {| created_id := js "r1"; created_ok := true |};
     reply_groups := fun _ => Return [];
     reply_rules := fun _ => Return [];
     reply_channels := fun _ => Return [];
     reply_alerts := fun _ => Return ([], of_Z 0) |}.

(** An engine stub for [Number::toString] beyond the safe integers; the
    examples only print safe integers. *)
Definition no_digits : number -> jsstring := fun _ => [].

(** An engine stub for [JSON.stringify]. *)
Definition stringify_stub : value -> jsstring := fun _ => js "{}".

(** A browser whose network is down. *)
Definition env_offline : Api.Env :=
  {| Api.has_window := true; Api.NEXT_PUBLIC_API_URL := None;
     Api.network := fun _ => None;
     Api.shortest_digits := no_digits;
     Api.JSON_stringify := stringify_stub;
     Api.storage_accepts := fun _ _ _ => true;
     Api.quota_message := [] |}.

(** A signed-in browser: both tokens are in local storage, the module
    variable is still [null]. *)
Definition world_signed_in : Api.World :=
  {| Api.accessToken := VNull;
     Api.localStorage := {[ js "access_token" := js "t1"; js "refresh_token" := js "r1" ]};
     Api.location_href := None;
     Api.fetch_log := []; Api.refreshPromise := None |}.

(** A value that does not convert to a string: an object with a key
    [toString] of its own. *)
Definition unconvertible : value := VObj [(js "toString", VNum (of_Z 1))].

Definition response_401 : Api.Response :=
  {| Api.status := 401%N;
     Api.json_body := Some (VObj [(js "error", VStr (js "token expired"))]);
     Api.json_error := [] |}.

Definition response_tokens : Api.Response :=
  {| Api.status := 200%N;
     Api.json_body := Some (VObj [(js "access_token", VStr (js "t2"));
                                  (js "refresh_token", VStr (js "r2"))]);
     Api.json_error := [] |}.

(** An error response whose body has no [error] field. *)
Definition response_500 : Api.Response :=
  {| Api.status := 500%N; Api.json_body := Some (VObj []);
     Api.json_error := [] |}.

Definition response_503 : Api.Response :=
  {| Api.status := 503%N;
     Api.json_body := Some (VObj [(js "error", VStr (js "maintenance"))]);
     Api.json_error := [] |}.

(** The access token has expired: the first request is answered 401, the
    refresh succeeds, and the retried request is answered 500. *)
Definition env_expired_token : Api.Env :=
  {| Api.has_window := true; Api.NEXT_PUBLIC_API_URL := None;
     Api.network := fun log =>
       match log with
       | [_] => Some response_401
       | [_; _] => Some response_tokens
       | _ => Some response_500
       end;
     Api.shortest_digits := no_digits;
     Api.JSON_stringify := stringify_stub;
     Api.storage_accepts := fun _ _ _ => true;
     Api.quota_message := [] |}.

(** A refresh answered by an access token that does not convert. *)
Definition response_odd_tokens : Api.Response :=
  {| Api.status := 200%N;
     Api.json_body := Some (VObj [(js "access_token", unconvertible);
                                  (js "refresh_token", VStr (js "r2"))]);
     Api.json_error := [] |}.

(** The refresh of another call is under way: its request is made
    while this call waits, and it is answered by new tokens. *)
Definition pending_refresh : Api.Pending :=
  {| Api.pending_response := Some response_tokens;
     Api.pending_requests :=
       [{| Api.url := js "/api/v1/auth/refresh";
           Api.init := {| Api.method := Some (js "POST");
                          Api.headers := {[ js "Content-Type" := js "application/json" ]};
                          Api.body := Some (js "{}") |} |}] |}.

Definition world_joining : Api.World :=
  {| Api.accessToken := VNull;
     Api.localStorage := {[ js "access_token" := js "t1"; js "refresh_token" := js "r1" ]};
     Api.location_href := None;
     Api.fetch_log := []; Api.refreshPromise := Some pending_refresh |}.

(** A browser that refuses every write to local storage, and a back
    end that answers every request with new tokens. *)
Definition env_full_storage : Api.Env :=
  {| Api.has_window := true; Api.NEXT_PUBLIC_API_URL := None;
     Api.network := fun _ => Some response_tokens;
     Api.shortest_digits := no_digits;
     Api.JSON_stringify := stringify_stub;
     Api.storage_accepts := fun _ _ _ => false;
     Api.quota_message := js "The quota has been exceeded." |}.

(** The back end is down for maintenance. *)
Definition env_maintenance : Api.Env :=
  {| Api.has_window := true; Api.NEXT_PUBLIC_API_URL := None;
     Api.network := fun _ => Some response_503;
     Api.shortest_digits := no_digits;
     Api.JSON_stringify := stringify_stub;
     Api.storage_accepts := fun _ _ _ => true;
     Api.quota_message := [] |}.

Definition group1 : AgentGroup.t :=
  {| AgentGroup.id := js "g1"; AgentGroup.account_id := js "acc1";
     AgentGroup.name := js "Store 1"; AgentGroup.category := store;
     AgentGroup.description := []; AgentGroup.created_at := of_Z 1700000000;
     AgentGroup.updated_at := of_Z 1700000000; AgentGroup.agent_count := None |}.

(** The rules page with group g1 selected and the given form. *)
Definition rules_page (form : RulesPage.RuleFormState) : RulesPage.State :=
  {| RulesPage.groups := [group1]; RulesPage.selectedGroupId := js "g1";
     RulesPage.rules := []; RulesPage.loading := false;
     RulesPage.saving := false; RulesPage.error := []; RulesPage.notice := [];
     RulesPage.formState := form |}.


(** "network > disconnected": an ordering operator on a threshold that is
    not a number. *)
Definition form_network_gt : RulesPage.RuleFormState :=
  {| RulesPage.ruleName := js "Network down"; RulesPage.ruleMetric := js "network";
     RulesPage.ruleOperator := js ">"; RulesPage.ruleThreshold := js "disconnected";
     RulesPage.ruleSeverity := critical; RulesPage.ruleWindow := of_Z 60 |}.


(** A session that applies the fourth template, picks the last operator,
    submits, and then sends a selection the select does not have. *)
Definition session_template : list RulesPage.Event :=
  [RulesPage.SelectGroup (js "g1"); RulesPage.ClickTemplate 3;
   RulesPage.ChangeOperator 5; RulesPage.Submit; RulesPage.ChangeOperator 9].

Definition channel1 : AgentGroupAlertChannel.t :=
  {| AgentGroupAlertChannel.id := js "c1"; AgentGroupAlertChannel.group_id := js "g1";
     AgentGroupAlertChannel.account_id := js "acc1";
     AgentGroupAlertChannel.type := webhook;
     AgentGroupAlertChannel.target := js "https://example.com/hook";
     AgentGroupAlertChannel.webhook_method := Some POST;
     AgentGroupAlertChannel.webhook_headers := None;
     AgentGroupAlertChannel.webhook_body := None;
     AgentGroupAlertChannel.enabled := of_Z 1;
     AgentGroupAlertChannel.created_at := of_Z 1700000000;
     AgentGroupAlertChannel.updated_at := of_Z 1700000000 |}.

(** An occurrence of the rule "CPU > 90% (30s)" on agent a1. *)
Definition occurrence1 : AgentAlertOccurrence.t :=
  {| AgentAlertOccurrence.id := js "o1"; AgentAlertOccurrence.account_id := js "acc1";
     AgentAlertOccurrence.group_id := js "g1"; AgentAlertOccurrence.agent_id := js "a1";
     AgentAlertOccurrence.rule_id := js "r1"; AgentAlertOccurrence.severity := warning;
     AgentAlertOccurrence.metric := js "cpu";
     AgentAlertOccurrence.message := js "cpu >= 90 for 30s";
     AgentAlertOccurrence.anomaly_type := js "threshold";
     AgentAlertOccurrence.anomaly_data := VObj [];
     AgentAlertOccurrence.created_at := of_Z 1700000000;
     AgentAlertOccurrence.agent_display_name := Some (js "Till 1");
     AgentAlertOccurrence.agent_thing_name := None;
     AgentAlertOccurrence.rule_name := Some (js "CPU > 90% (30s)") |}.

(** A back end with that one occurrence. *)
Definition backend_one_alert : Backend :=
  {| reply_created := fun _ => Return {| created_id := js "c1"; created_ok := true |};
     reply_groups := fun _ => Return [group1];
     reply_rules := fun _ => Return [];
     reply_channels := fun _ => Return [channel1];
     reply_alerts := fun _ => Return ([occurrence1], of_Z 1) |}.

(** The alerts page with group g1 selected, its channel loaded, and the
    given history. *)
Definition alerts_page (history : list AgentAlertOccurrence.t) : AlertsPage.State :=
  {| AlertsPage.groups := [group1]; AlertsPage.selectedGroupId := js "g1";
     AlertsPage.channels := [channel1]; AlertsPage.alertHistory := history;
     AlertsPage.loading := false; AlertsPage.saving := false;
     AlertsPage.error := []; AlertsPage.notice := [];
     AlertsPage.channelType := webhook;
     AlertsPage.target := js "https://example.com/hook";
     AlertsPage.webhookMethod := POST;
     AlertsPage.webhookHeaders := AlertsPage.DEFAULT_HEADERS;
     AlertsPage.webhookBody := AlertsPage.DEFAULT_BODY |}.


(** A toy [JSON.parse] that knows three texts: the default headers, a
    JSON array, and everything else as a syntax error. *)
Definition JSON_parse_sample (text : jsstring) : completion value :=
  if bool_decide (text = AlertsPage.DEFAULT_HEADERS)
  then Return (VObj [(js "Content-Type", VStr (js "application/json"))])
  else if bool_decide (text = js "[]") then Return (VArr [])
  else Throw (SyntaxError (js "Unexpected token")).

(** A browser whose every request is answered by [res]. *)
Definition env_answering (res : Api.Response) : Api.Env :=
  {| Api.has_window := true; Api.NEXT_PUBLIC_API_URL := None;
     Api.network := fun _ => Some res;
     Api.shortest_digits := no_digits;
     Api.JSON_stringify := stringify_stub;
     Api.storage_accepts := fun _ _ _ => true;
     Api.quota_message := [] |}.

(** An ok response whose body is the empty object. *)
Definition response_empty : Api.Response :=
  {| Api.status := 200%N; Api.json_body := Some (VObj []);
     Api.json_error := [] |}.

(** An error response whose [error] field does not convert. *)
Definition response_odd_error : Api.Response :=
  {| Api.status := 500%N;
     Api.json_body := Some (VObj [(js "error", unconvertible)]);
     Api.json_error := [] |}.

(** A browser that holds no token. *)
Definition world_signed_out : Api.World :=
  {| Api.accessToken := VNull; Api.localStorage := ∅;
     Api.location_href := None; Api.fetch_log := [];
     Api.refreshPromise := None |}.

(** A browser whose first request is answered by [res]; then the
    network goes down. *)
Definition env_one_answer (res : Api.Response) : Api.Env :=
  {| Api.has_window := true; Api.NEXT_PUBLIC_API_URL := None;
     Api.network := fun log => match log with [_] => Some res | _ => None end;
     Api.shortest_digits := no_digits;
     Api.JSON_stringify := stringify_stub;
     Api.storage_accepts := fun _ _ _ => true;
     Api.quota_message := [] |}.

(** The login form, filled in. *)
Definition login_form : LoginPage.State :=
  {| LoginPage.email := js "you@example.com"; LoginPage.password := js "secret";
     LoginPage.error := []; LoginPage.loading := false; LoginPage.replaced := None |}.

(** The layout once account acc1 is shown. *)
Definition layout_acc1 : Layout.State :=
  Layout.setLoading false
    (Layout.setCurrentAccountId (VStr (js "acc1")) Layout.initial_state).

(** The alerts page with an email address typed, and a headers field
    that is no JSON. *)
Definition alerts_page_email : AlertsPage.State :=
  {| AlertsPage.groups := [group1]; AlertsPage.selectedGroupId := js "g1";
     AlertsPage.channels := []; AlertsPage.alertHistory := [];
     AlertsPage.loading := false; AlertsPage.saving := false;
     AlertsPage.error := []; AlertsPage.notice := [];
     AlertsPage.channelType := email;
     AlertsPage.target := js "alert@example.com";
     AlertsPage.webhookMethod := POST;
     AlertsPage.webhookHeaders := js "not json";
     AlertsPage.webhookBody := AlertsPage.DEFAULT_BODY |}.

(** Events of an agent: a status change, telemetry with the CPU usage
    only, telemetry whose CPU usage is [null], a scan that lists two
    devices under the action "health", and the response to a command. *)
Definition event_of (type : jsstring) (data : value) : AgentDetail.AgentEvent :=
  {| AgentDetail.id := js "e1"; AgentDetail.agent_id := js "a1";
     AgentDetail.type := type; AgentDetail.data := data;
     AgentDetail.created_at := of_Z 1700000000 |}.

Definition event_status : AgentDetail.AgentEvent :=
  event_of (js "status") (VObj [(js "status", VStr (js "online"))]).

Definition event_telemetry : AgentDetail.AgentEvent :=
  event_of (js "telemetry")
    (VObj [(js "cpu", VObj [(js "usagePercent", VNum (of_Z 42))])]).

Definition event_telemetry_null : AgentDetail.AgentEvent :=
  event_of (js "telemetry")
    (VObj [(js "cpu", VObj [(js "usagePercent", VNull)])]).

Definition event_scan : AgentDetail.AgentEvent :=
  event_of (js "scan")
    (VObj [(js "action", VStr (js "health"));
           (js "devices", VArr [VStr (js "kbd"); VStr (js "disk")])]).

Definition event_response : AgentDetail.AgentEvent :=
  event_of (js "response")
    (VObj [(js "commandId", VStr (js "0123456789abcdef"));
           (js "exitCode", VNum (of_Z 0))]).

(** A scan whose action does not convert to a string. *)
Definition event_scan_odd : AgentDetail.AgentEvent :=
  event_of (js "scan")
    (VObj [(js "action", unconvertible);
           (js "devices", VArr [VStr (js "kbd"); VStr (js "disk")])]).

(** A response whose exit code does not convert to a string. *)
Definition event_response_odd : AgentDetail.AgentEvent :=
  event_of (js "response")
    (VObj [(js "commandId", VStr (js "0123456789abcdef"));
           (js "exitCode", unconvertible)]).

(** An engine stub for [toFixed(1)]; the examples do not read the
    digits. *)
Definition toFixed_stub : number -> jsstring := fun _ => js "0.0".

End Samples.

(* ===================================================================== *)
(** * Facts about the runtime                                             *)
(* ===================================================================== *)

Module JSFacts.
Import JS.

(** ** Comparison of numbers *)

Lemma SFcompare_antisym (x y : number) :
  SFcompare y x = option_map CompOpp (SFcompare x y).
Proof.
  destruct x as [sx|sx| |sx mx ex], y as [sy|sy| |sy my ey]; simpl;
    try reflexivity; try (destruct sx; reflexivity);
    try (destruct sy; reflexivity);
    try (destruct sx, sy; reflexivity).
  destruct sx, sy; simpl; try reflexivity;
    rewrite (Z.compare_antisym ex ey);
    destruct (ex ?= ey) eqn:He; simpl; try reflexivity;
    rewrite ?Pos.compare_cont_antisym; simpl;
    rewrite ?CompOpp_involutive; reflexivity.
Qed.

(** [!(x < y)] with both sides comparable gives [y <= x]. *)
Lemma not_ltb_leb (x y : number) :
  ltb x y = false -> Number_isNaN x = false -> Number_isNaN y = false ->
  leb y x = true.
Proof.
  unfold ltb, leb, SFltb, SFleb. rewrite (SFcompare_antisym x y).
  destruct x as [sx|sx| |sx mx ex], y as [sy|sy| |sy my ey];
    simpl; try discriminate; try reflexivity;
    try (destruct sx; simpl; congruence);
    try (destruct sy; simpl; congruence);
    try (destruct sx, sy; simpl; congruence).
  intros H _ _. destruct sx, sy; simpl in *; try congruence;
    destruct (ex ?= ey); simpl in *; try congruence;
    destruct (Pos.compare_cont Eq mx my); simpl in *; congruence.
Qed.

Lemma leb_not_ltb (x y : number) : leb y x = true -> ltb x y = false.
Proof.
  unfold ltb, leb, SFltb, SFleb. rewrite (SFcompare_antisym x y).
  destruct (SFcompare x y) as [[]|]; simpl; congruence.
Qed.

Lemma ltb_not_NaN_l (x y : number) : ltb x y = true -> Number_isNaN x = false.
Proof. destruct x; simpl; try reflexivity. discriminate. Qed.

(** Below a positive constant is below every positive constant with a
    larger exponent. *)
Lemma ltb_finite_mono (x : number) (ma mb : positive) (ea eb : Z) :
  ea < eb ->
  ltb x (S754_finite false ma ea) = true ->
  ltb x (S754_finite false mb eb) = true.
Proof.
  intros Hlt. unfold ltb, SFltb.
  destruct x as [sx|sx| |sx mx ex]; simpl; try (intros; assumption).
  destruct sx; simpl; [reflexivity|].
  destruct (ex ?= ea) eqn:He; try discriminate.
  - apply Z.compare_eq in He. subst ex. intros _.
    rewrite (proj2 (Z.compare_lt_iff ea eb) Hlt). reflexivity.
  - change (ex < ea) in He. intros _.
    rewrite (proj2 (Z.compare_lt_iff ex eb)) by lia. reflexivity.
Qed.

(** The literals of the sources. *)
Lemma of_Z_60 : of_Z 60 = S754_finite false 8444249301319680 (-47).
Proof. reflexivity. Qed.
Lemma of_Z_3600 : of_Z 3600 = S754_finite false 7916483719987200 (-41).
Proof. reflexivity. Qed.
Lemma of_Z_86400 : of_Z 86400 = S754_finite false 5937362789990400 (-36).
Proof. reflexivity. Qed.

Lemma ltb_60_3600 (x : number) : ltb x (of_Z 60) = true -> ltb x (of_Z 3600) = true.
Proof. rewrite of_Z_60, of_Z_3600. apply ltb_finite_mono. lia. Qed.

Lemma ltb_3600_86400 (x : number) :
  ltb x (of_Z 3600) = true -> ltb x (of_Z 86400) = true.
Proof. rewrite of_Z_3600, of_Z_86400. apply ltb_finite_mono. lia. Qed.

(** ** Decimal digits *)

Lemma decimal_fuel_value (fuel : nat) (n : N) (acc : jsstring) (a : N) :
  (n < 2 ^ N.of_nat fuel)%N ->
  exists k, digits_value (decimal_fuel fuel n acc) a
            = digits_value acc (a * 10 ^ k + n)%N.
Proof.
  revert n acc a. induction fuel as [|fuel IH]; intros n acc a Hn.
  - exists 0%N. cbn [decimal_fuel]. f_equal.
    change (2 ^ N.of_nat 0)%N with 1%N in Hn. rewrite N.pow_0_r. lia.
  - cbn [decimal_fuel]. destruct (n <? 10)%N eqn:Hlt.
    + exists 1%N. cbn [digits_value]. f_equal. unfold digit.
      apply N.ltb_lt in Hlt. rewrite N.mod_small by assumption.
      rewrite N.pow_1_r. lia.
    + apply N.ltb_ge in Hlt.
      destruct (IH (n / 10)%N (digit (n mod 10) :: acc) a) as [k Hk].
      { rewrite Nat2N.inj_succ, N.pow_succ_r' in Hn.
        apply N.Div0.div_lt_upper_bound. lia. }
      exists (N.succ k). rewrite Hk. cbn [digits_value]. f_equal. unfold digit.
      rewrite N.pow_succ_r'. generalize (10 ^ k)%N. intros x.
      pose proof (N.div_mod n 10 ltac:(discriminate)) as Hdm.
      revert Hdm. generalize (n mod 10)%N (n / 10)%N. intros r q ->.
      replace (48 + r - 48)%N with r by lia. ring.
Qed.

(** The fuel of [decimal] is enough: the digits read back as the
    number. *)
Lemma decimal_value (n : N) : digits_value (decimal n) 0%N = n.
Proof.
  unfold decimal.
  destruct (decimal_fuel_value (S (N.to_nat (N.log2 n))) n [] 0%N) as [k Hk].
  - rewrite Nat2N.inj_succ, N2Nat.id.
    destruct (N.eq_dec n 0%N) as [->|Hn]; [reflexivity|].
    apply N.log2_spec. lia.
  - rewrite Hk. cbn [digits_value]. lia.
Qed.

(** ** Strings *)

(** Two strings with different endings of the same length differ. *)
Lemma app_suffix_neq (a b s t : jsstring) :
  length s = length t -> s <> t -> a ++ s <> b ++ t.
Proof.
  intros Hlen Hne Heq. apply Hne.
  apply (app_inj_2 _ _ _ _ Hlen Heq).
Qed.

Lemma trimStart_nil_iff (s : jsstring) :
  trimStart s = [] <-> forallb is_whitespace s = true.
Proof.
  induction s as [|c s IH]; simpl; [tauto|].
  destruct (is_whitespace c); simpl; [exact IH|].
  split; discriminate.
Qed.

(** A string is blank exactly when all its code units are white space. *)
Lemma blank_iff (s : jsstring) :
  blank s = true <-> forallb is_whitespace s = true.
Proof.
  unfold blank, trim, trimEnd.
  rewrite <- trimStart_nil_iff.
  split.
  - intros H. destruct (trimStart s) as [|c t] eqn:E; [reflexivity|].
    destruct (rev (trimStart (rev (c :: t)))) as [|d u] eqn:E2; [|discriminate].
    exfalso.
    assert (Hnil : trimStart (rev (c :: t)) = []).
    { apply (f_equal (@rev N)) in E2. rewrite rev_involutive in E2. exact E2. }
    (* the last unit of [c :: t], first of the reverse, is not white
       space, because [c] is not and [trimStart] stopped there *)
    assert (Hc : is_whitespace c = false).
    { clear -E. induction s as [|x s IH]; simpl in E; [discriminate|].
      destruct (is_whitespace x) eqn:Hx; [auto|]. congruence. }
    apply trimStart_nil_iff in Hnil. rewrite forallb_forall in Hnil.
    specialize (Hnil c). rewrite Hnil in Hc; [discriminate|].
    apply in_rev. rewrite rev_involutive. left. reflexivity.
  - intros ->. reflexivity.
Qed.

(** ** ToString *)

(** Induction on values, the elements of an array included. *)
Lemma value_elements_ind (P : value -> Prop) :
  P VUndefined -> P VNull -> (forall b, P (VBool b)) -> (forall n, P (VNum n)) ->
  (forall s, P (VStr s)) ->
  (forall items, Forall P items -> P (VArr items)) ->
  (forall props, P (VObj props)) ->
  forall v, P v.
Proof.
  intros Hu Hn Hb Hnum Hs Harr Hobj.
  refine (fix IH (v : value) : P v :=
            match v with
            | VUndefined => Hu
            | VNull => Hn
            | VBool b => Hb b
            | VNum n => Hnum n
            | VStr s => Hs s
            | VArr items =>
                Harr items
                  ((fix elements (l : list value) : Forall P l :=
                      match l with
                      | [] => @List.Forall_nil _ P
                      | i :: rest => @List.Forall_cons _ P i rest (IH i) (elements rest)
                      end) items)
            | VObj props => Hobj props
            end).
Qed.

(** A conversion that throws throws a TypeError. *)
Lemma ToString_throws (sd : number -> jsstring) (v : value) (e : exn) :
  ToString sd v = Throw e -> exists text, e = TypeError text.
Proof.
  revert e. induction v as [| |b|n|s|items IH|props] using value_elements_ind;
    intros e; cbn [ToString]; try discriminate.
  - unfold and_then at 1.
    match goal with
    | |- match ?el items with _ => _ end = _ -> _ =>
        assert (Hel : forall e, el items = Throw e -> exists text, e = TypeError text)
    end.
    { clear e. induction IH as [|i rest Hi _ IHrest]; intros e; [discriminate|].
      unfold and_then at 1.
      match goal with
      | |- match ?c with _ => _ end = _ -> _ =>
          assert (Hc : forall e, c = Throw e -> exists text, e = TypeError text)
            by (destruct i; try discriminate; intros e' He'; exact (Hi _ He'));
          destruct c as [text|e'] eqn:Hce
      end.
      - unfold and_then at 1.
        match goal with
        | |- match ?x with _ => _ end = _ -> _ => destruct x eqn:Hx
        end; [discriminate|]. intros [= <-]. exact (IHrest _ eq_refl).
      - intros [= <-]. exact (Hc _ eq_refl). }
    match goal with
    | |- match ?x with _ => _ end = _ -> _ => destruct x eqn:Hx
    end; [discriminate|]. intros [= <-]. exact (Hel _ eq_refl).
  - destruct (own_property props (js "toString")); [|discriminate].
    intros [= <-]. eauto.
Qed.

(** Every falsy value converts. *)
Lemma ToString_falsy (sd : number -> jsstring) (v : value) :
  truthy v = false -> exists text, ToString sd v = Return text.
Proof. destruct v; cbn [truthy ToString]; try discriminate; eauto. Qed.

End JSFacts.

(* ===================================================================== *)
(** * The overview page: relative times                                   *)
(* ===================================================================== *)

Module OverviewFacts.
Import JS JSFacts Overview.

Lemma just_now_neq_ago (x : jsstring) (c : N) :
  js "Just now" <> x ++ c :: js " ago".
Proof.
  change (js "Just now") with (js "Jus" ++ js "t now").
  apply app_suffix_neq; [reflexivity|]. vm_compute. congruence.
Qed.

Lemma unit_ago_neq (x y : jsstring) (c d : N) :
  c <> d -> x ++ c :: js " ago" <> y ++ d :: js " ago".
Proof.
  intros Hcd. apply app_suffix_neq; [reflexivity|]. congruence.
Qed.

Section Component.

Variable shortest_digits : number -> jsstring.
Variable Date_now : number.

(** [Math.floor(diff / unit)] as text *)
Local Abbreviation count diff unit :=
  (Number_toString shortest_digits (Math_floor (div diff (of_Z unit)))).

(** The four branches, by the three tests. *)
Lemma formatTimeAgo_branches (timestamp : number) :
  let diff := sub (Math_floor (div Date_now (of_Z 1000))) timestamp in
  formatTimeAgo shortest_digits Date_now timestamp =
    if ltb diff (of_Z 60) then js "Just now"
    else if ltb diff (of_Z 3600) then count diff 60 ++ 109%N :: js " ago"
    else if ltb diff (of_Z 86400) then count diff 3600 ++ 104%N :: js " ago"
    else count diff 86400 ++ 100%N :: js " ago".
Proof. reflexivity. Qed.

(** C10.  With [diff = now - timestamp], [formatTimeAgo] answers
    "Just now" exactly when [diff < 60], the whole minutes followed by
    "m ago" exactly when [60 <= diff < 3600], the whole hours followed
    by "h ago" exactly when [3600 <= diff < 86400], and the whole days
    followed by "d ago" when [diff >= 86400].  The comparisons are those
    of binary64, so the statement covers a [NaN] timestamp as well. *)
Theorem formatTimeAgo_cases (timestamp : number) :
  let now := Math_floor (div Date_now (of_Z 1000)) in
  let diff := sub now timestamp in
  let out := formatTimeAgo shortest_digits Date_now timestamp in
  (out = js "Just now" <-> ltb diff (of_Z 60) = true)
  /\ (out = count diff 60 ++ js "m ago"
      <-> leb (of_Z 60) diff = true /\ ltb diff (of_Z 3600) = true)
  /\ (out = count diff 3600 ++ js "h ago"
      <-> leb (of_Z 3600) diff = true /\ ltb diff (of_Z 86400) = true)
  /\ (leb (of_Z 86400) diff = true -> out = count diff 86400 ++ js "d ago").
Proof.
  intros now diff out. subst out.
  rewrite formatTimeAgo_branches. fold now. fold diff.
  change (js "m ago") with (109%N :: js " ago").
  change (js "h ago") with (104%N :: js " ago").
  change (js "d ago") with (100%N :: js " ago").
  pose proof (ltb_60_3600 diff) as T1.
  pose proof (ltb_3600_86400 diff) as T2.
  pose proof (leb_not_ltb diff (of_Z 60)) as A60.
  pose proof (leb_not_ltb diff (of_Z 3600)) as A3600.
  pose proof (leb_not_ltb diff (of_Z 86400)) as A86400.
  pose proof (fun H => not_ltb_leb diff (of_Z 60) H) as B60.
  pose proof (fun H => not_ltb_leb diff (of_Z 3600) H) as B3600.
  pose proof (ltb_not_NaN_l diff (of_Z 3600)) as N3600.
  pose proof (ltb_not_NaN_l diff (of_Z 86400)) as N86400.
  assert (J : forall x c, js "Just now" = x ++ c :: js " ago" -> False)
    by (intros x c H; exact (just_now_neq_ago x c H)).
  assert (J' : forall x c, x ++ c :: js " ago" = js "Just now" -> False)
    by (intros x c H; symmetry in H; exact (just_now_neq_ago x c H)).
  assert (U : forall x y c d, c <> d ->
              x ++ c :: js " ago" = y ++ d :: js " ago" -> False)
    by (intros x y c d Hcd H; exact (unit_ago_neq x y c d Hcd H)).
  destruct (ltb diff (of_Z 60)) eqn:H60;
    [|destruct (ltb diff (of_Z 3600)) eqn:H3600;
      [|destruct (ltb diff (of_Z 86400)) eqn:H86400]].
  - (* diff < 60 *)
    specialize (T1 eq_refl). specialize (T2 T1).
    split; [tauto|]. split; [|split].
    + split; [intros H; exfalso; exact (J _ _ H)|].
      intros [H _]. specialize (A60 H). discriminate.
    + split; [intros H; exfalso; exact (J _ _ H)|].
      intros [H _]. specialize (A3600 H). congruence.
    + intros H. specialize (A86400 H). congruence.
  - (* 60 <= diff < 3600 *)
    specialize (T2 eq_refl).
    split; [split; [intros H; exfalso; exact (J' _ _ H)|discriminate]|].
    split; [|split].
    + split; [|reflexivity]. intros _. split; [|reflexivity].
      apply B60; [reflexivity|auto|reflexivity].
    + split; [intros H; exfalso; revert H; apply U; discriminate|].
      intros [H _]. specialize (A3600 H). discriminate.
    + intros H. specialize (A86400 H). congruence.
  - (* 3600 <= diff < 86400 *)
    split; [split; [intros H; exfalso; exact (J' _ _ H)|discriminate]|].
    split; [|split].
    + split; [intros H; exfalso; revert H; apply U; discriminate|].
      intros [_ H]. discriminate.
    + split; [|reflexivity]. intros _. split; [|reflexivity].
      apply B3600; [reflexivity|auto|reflexivity].
    + intros H. specialize (A86400 H). discriminate.
  - (* the days branch *)
    split; [split; [intros H; exfalso; exact (J' _ _ H)|discriminate]|].
    split; [|split].
    + split; [intros H; exfalso; revert H; apply U; discriminate|].
      intros [_ H]. discriminate.
    + split; [intros H; exfalso; revert H; apply U; discriminate|].
      intros [_ H]. discriminate.
    + reflexivity.
Qed.

End Component.

(** The clock reads 1700000000123 ms; agents seen 1000 s, 59 s and three
    hours ago, and one whose timestamp is not a number. *)
Example formatTimeAgo_minutes :
  formatTimeAgo (fun _ => []) (of_Z 1700000000123) (of_Z 1699999000) = js "16m ago".
Proof. vm_compute. reflexivity. Qed.

Example formatTimeAgo_just_now :
  formatTimeAgo (fun _ => []) (of_Z 1700000000123) (of_Z 1699999941) = js "Just now".
Proof. vm_compute. reflexivity. Qed.

Example formatTimeAgo_hours :
  formatTimeAgo (fun _ => []) (of_Z 1700000000123) (of_Z 1699989200) = js "3h ago".
Proof. vm_compute. reflexivity. Qed.

Example formatTimeAgo_NaN :
  formatTimeAgo (fun _ => []) (of_Z 1700000000123) NaN = js "NaNd ago".
Proof. vm_compute. reflexivity. Qed.

End OverviewFacts.

(* ===================================================================== *)
(** * The rules page                                                      *)
(* ===================================================================== *)

Module RulesPageFacts.
Import JS JSFacts AgentApi RulesPage.

(** Unfolds the monad of handlers down to functions on state and trace. *)
Ltac run_handler :=
  unfold handleCreateRule, dispatch, applyTemplate, fetchRules,
    createGroupRule, listGroupRules, call, try_finally, try_catch,
    AgentApi.bind, AgentApi.get, AgentApi.set, AgentApi.ret;
  cbn beta iota zeta.

Section Component.

Variable shortest_digits : number -> jsstring.
Variable backend : Backend.

(** The payload [handleCreateRule] builds from the form. *)
Local Abbreviation payload st :=
  {| RuleData.name := trim (ruleName (formState st));
     RuleData.metric := ruleMetric (formState st);
     RuleData.operator := ruleOperator (formState st);
     RuleData.threshold := trim (ruleThreshold (formState st));
     RuleData.severity := Some (ruleSeverity (formState st));
     RuleData.window_seconds := Some (ruleWindow (formState st));
     RuleData.enabled := None;
     RuleData.webhook_url := None |}.

(** [handleCreateRule] never throws; a rejected submission only sets the
    error, an accepted one calls [createGroupRule] once, with the payload
    of the form, and reloads the rules when the call succeeded. *)
Lemma handleCreateRule_run (st : State) (tr : list ApiCall) :
  let form := formState st in
  let window_bad := ltb (ruleWindow form) (of_Z 1) || Number_isNaN (ruleWindow form) in
  exists st' tr',
    handleCreateRule backend st tr = (Return tt, st', tr')
    /\ (formState st' = form \/ formState st' = with_ruleName [] form)
    /\ (if negb (truthy_string (selectedGroupId st)) then
          st' = setError (js "Please select a group first.") st /\ tr' = tr
        else if blank (ruleName form) then
          st' = setError (js "Please enter a rule name.") st /\ tr' = tr
        else if blank (ruleThreshold form) then
          st' = setError (js "Please enter a threshold.") st /\ tr' = tr
        else if window_bad then
          st' = setError (js "Window must be at least 1 second.") st /\ tr' = tr
        else
          let created := CreateGroupRule (selectedGroupId st) (payload st) in
          match reply_created backend (created :: tr) with
          | Return _ => tr' = ListGroupRules (selectedGroupId st) :: created :: tr
          | Throw _ => tr' = created :: tr
          end).
Proof.
  intros form window_bad. subst form window_bad. unfold blank.
  run_handler.
  destruct (negb (truthy_string (selectedGroupId st))) eqn:Hg;
    [eexists _, _; split; [reflexivity|]; split; [left; reflexivity|]; auto|].
  destruct (negb (truthy_string (trim (ruleName (formState st))))) eqn:Hn;
    [eexists _, _; split; [reflexivity|]; split; [left; reflexivity|]; auto|].
  destruct (negb (truthy_string (trim (ruleThreshold (formState st))))) eqn:Ht;
    [eexists _, _; split; [reflexivity|]; split; [left; reflexivity|]; auto|].
  destruct (ltb (ruleWindow (formState st)) (of_Z 1)
            || Number_isNaN (ruleWindow (formState st))) eqn:Hw;
    [eexists _, _; split; [reflexivity|]; split; [left; reflexivity|]; auto|].
  cbn beta iota zeta.
  destruct (reply_created backend _) as [c|e] eqn:Hc; cbn beta iota zeta.
  - destruct (reply_rules backend _) as [rs|e] eqn:Hr; cbn beta iota zeta.
    + eexists _, _; split; [reflexivity|]. split; [right; reflexivity|reflexivity].
    + destruct e; eexists _, _; (split; [reflexivity|]);
        (split; [right; reflexivity|reflexivity]).
  - destruct e; eexists _, _; (split; [reflexivity|]);
      (split; [left; reflexivity|reflexivity]).
Qed.

(** What an event does to the trace: only an accepted submission adds a
    [createGroupRule] call, and it carries the payload of the form. *)
Lemma dispatch_created (ev : Event) (st : State) (tr : list ApiCall)
    (r : completion unit) (st' : State) (tr' : list ApiCall)
    (gid : jsstring) (d : RuleData.t) :
  dispatch backend ev st tr = (r, st', tr') ->
  In (CreateGroupRule gid d) tr' ->
  In (CreateGroupRule gid d) tr
  \/ (d = payload st
      /\ ltb (ruleWindow (formState st)) (of_Z 1)
         || Number_isNaN (ruleWindow (formState st)) = false).
Proof.
  destruct ev; cbn [dispatch].
  - destruct (RULE_TEMPLATES !! i); run_handler; intros [= <- <- <-]; auto.
  - run_handler; intros [= <- <- <-]; auto.
  - destruct (METRIC_OPTIONS !! i); run_handler; intros [= <- <- <-]; auto.
  - destruct (OPERATOR_OPTIONS !! i); run_handler; intros [= <- <- <-]; auto.
  - run_handler; intros [= <- <- <-]; auto.
  - run_handler; intros [= <- <- <-]; auto.
  - run_handler; intros [= <- <- <-]; auto.
  - run_handler. destruct (negb (truthy_string groupId)).
    + intros [= <- <- <-]; auto.
    + destruct (reply_rules backend _) as [rs|e]; cbn beta iota zeta;
        intros [= <- <- <-]; intros [H|H]; auto; discriminate.
  - destruct (handleCreateRule_run st tr) as (st1 & tr1 & Hrun & _ & Hcases).
    rewrite Hrun. intros [= <- <- <-].
    destruct (negb (truthy_string (selectedGroupId st)));
      [destruct Hcases as [_ ->]; auto|].
    destruct (blank (ruleName (formState st)));
      [destruct Hcases as [_ ->]; auto|].
    destruct (blank (ruleThreshold (formState st)));
      [destruct Hcases as [_ ->]; auto|].
    destruct (ltb (ruleWindow (formState st)) (of_Z 1)
              || Number_isNaN (ruleWindow (formState st))) eqn:Hw;
      [destruct Hcases as [_ ->]; auto|].
    cbn zeta in Hcases.
    destruct (reply_created backend _); subst tr1; cbn [In].
    + intros [H|[H|H]]; [discriminate| |auto].
      injection H as <- <-. right. auto.
    + intros [H|H]; [|auto].
      injection H as <- <-. right. auto.
Qed.

(** What an event does to the operator field: it keeps it or sets it to
    one of the six options. *)
Lemma dispatch_operator (ev : Event) (st : State) (tr : list ApiCall)
    (r : completion unit) (st' : State) (tr' : list ApiCall) :
  dispatch backend ev st tr = (r, st', tr') ->
  In (ruleOperator (formState st)) OPERATOR_OPTIONS ->
  In (ruleOperator (formState st')) OPERATOR_OPTIONS.
Proof.
  destruct ev; cbn [dispatch].
  - destruct i as [|[|[|[|[|i]]]]]; run_handler; intros [= <- <- <-] Hin;
      cbn; auto 10.
  - run_handler; intros [= <- <- <-]; auto.
  - destruct (METRIC_OPTIONS !! i); run_handler; intros [= <- <- <-]; auto.
  - destruct i as [|[|[|[|[|[|i]]]]]]; run_handler; intros [= <- <- <-] Hin;
      cbn; auto 10.
  - run_handler; intros [= <- <- <-]; auto.
  - run_handler; intros [= <- <- <-]; auto.
  - run_handler; intros [= <- <- <-]; auto.
  - run_handler. destruct (negb (truthy_string groupId)).
    + intros [= <- <- <-]; auto.
    + destruct (reply_rules backend _) as [rs|e]; cbn beta iota zeta;
        intros [= <- <- <-]; auto.
  - destruct (handleCreateRule_run st tr) as (st1 & tr1 & Hrun & Hform & _).
    rewrite Hrun. intros [= <- <- <-].
    destruct Hform as [-> | ->]; auto.
Qed.


(** C2 (amended).  [handleCreateRule] does not look at the operator or at
    the shape of the threshold: with a group selected, a name and a
    threshold that are not blank and a window of at least one second, it
    calls [createGroupRule] with the operator as selected and the
    threshold as typed (trimmed), whatever they are. *)
Theorem handleCreateRule_sends_any_threshold (st : State) (tr : list ApiCall) :
  truthy_string (selectedGroupId st) = true ->
  blank (ruleName (formState st)) = false ->
  blank (ruleThreshold (formState st)) = false ->
  ltb (ruleWindow (formState st)) (of_Z 1)
  || Number_isNaN (ruleWindow (formState st)) = false ->
  exists st' later d,
    handleCreateRule backend st tr
    = (Return tt, st', later ++ CreateGroupRule (selectedGroupId st) d :: tr)
    /\ RuleData.operator d = ruleOperator (formState st)
    /\ RuleData.threshold d = trim (ruleThreshold (formState st)).
Proof.
  intros Hg Hn Ht Hw.
  destruct (handleCreateRule_run st tr) as (st1 & tr1 & Hrun & _ & Hcases).
  rewrite Hg, Hn, Ht, Hw in Hcases. cbn in Hcases.
  rewrite Hrun. exists st1.
  destruct (reply_created backend _); subst tr1.
  - exists [ListGroupRules (selectedGroupId st)]. eexists.
    split; [reflexivity|]. split; reflexivity.
  - exists []. eexists. split; [reflexivity|]. split; reflexivity.
Qed.

(** C5.  The preview is a function of the five rule fields alone: two
    forms that agree on severity, metric, operator, threshold and window
    (their names may differ) show the same text, the fixed sentence with
    the fields put in as they are. *)
Theorem previewText_deterministic (f1 f2 : RuleFormState) :
  ruleSeverity f1 = ruleSeverity f2 ->
  ruleMetric f1 = ruleMetric f2 ->
  ruleOperator f1 = ruleOperator f2 ->
  ruleThreshold f1 = ruleThreshold f2 ->
  ruleWindow f1 = ruleWindow f2 ->
  previewText shortest_digits f1 = previewText shortest_digits f2
  /\ previewText shortest_digits f1
     = js "Alert " ++ Severity_text (ruleSeverity f2) ++ js " when "
       ++ ruleMetric f2 ++ js " " ++ ruleOperator f2 ++ js " "
       ++ ruleThreshold f2 ++ js " for "
       ++ Number_toString shortest_digits (ruleWindow f2) ++ js "s or longer".
Proof.
  intros Hs Hm Ho Ht Hw. unfold previewText.
  rewrite Hs, Hm, Ho, Ht, Hw. split; reflexivity.
Qed.

(** C6.  In every state the page can reach the operator field is one of
    the six option values, and so is the operator of every
    [createGroupRule] call made so far. *)
Theorem operator_invariant (st : State) (tr : list ApiCall) :
  reachable backend st tr ->
  In (ruleOperator (formState st))
     [js ">="; js ">"; js "<="; js "<"; js "=="; js "!="]
  /\ (forall gid d, In (CreateGroupRule gid d) tr ->
        In (RuleData.operator d)
           [js ">="; js ">"; js "<="; js "<"; js "=="; js "!="]).
Proof.
  change [js ">="; js ">"; js "<="; js "<"; js "=="; js "!="] with OPERATOR_OPTIONS.
  induction 1 as [|st tr ev r st' tr' Hreach [IHf IHt] Hstep].
  - split; [left; reflexivity|intros gid d []].
  - split; [exact (dispatch_operator _ _ _ _ _ _ Hstep IHf)|].
    intros gid d Hin.
    destruct (dispatch_created _ _ _ _ _ _ _ _ Hstep Hin) as [Hold|[-> _]];
      [exact (IHt _ _ Hold)|exact IHf].
Qed.

Lemma reachable_run_events (evs : list Event) (st : State) (tr : list ApiCall) :
  reachable backend st tr ->
  reachable backend (fst (run_events backend evs st tr))
    (snd (run_events backend evs st tr)).
Proof.
  revert st tr. induction evs as [|ev evs IH]; intros st tr H; [exact H|].
  cbn [run_events]. destruct (dispatch backend ev st tr) as [[r st'] tr'] eqn:E.
  apply IH. exact (reachable_dispatch _ _ _ _ _ _ _ H E).
Qed.

End Component.

Import Samples.



(** C2, as stated, fails: "network > disconnected" has an ordering
    operator and a threshold that is not a number, and the submission is
    accepted: [createGroupRule] is called with both as they are and no
    error is reported. *)
Lemma ordering_threshold_counterexample :
  let st := rules_page form_network_gt in
  ordering_operator (ruleOperator (formState st)) = true
  /\ decimal_numeral (ruleThreshold (formState st)) = false
  /\ exists st' d,
       handleCreateRule backend_ok st []
       = (Return tt, st', [ListGroupRules (js "g1"); CreateGroupRule (js "g1") d])
       /\ RuleData.operator d = js ">"
       /\ RuleData.threshold d = js "disconnected"
       /\ error st' = [].
Proof.
  split; [reflexivity|]. split; [reflexivity|].
  eexists _, _. split; [lazy; reflexivity|]. repeat split.
Qed.

Lemma handleCreateRule_sends_any_threshold_witness :
  exists st' later d,
    handleCreateRule backend_ok (rules_page form_network_gt) []
    = (Return tt, st', later ++ [CreateGroupRule (js "g1") d])
    /\ RuleData.operator d = js ">"
    /\ RuleData.threshold d = js "disconnected".
Proof.
  exact (handleCreateRule_sends_any_threshold backend_ok
           (rules_page form_network_gt) [] eq_refl eq_refl eq_refl eq_refl).
Defined.

(** Two forms that differ in the name only show the same preview. *)
Lemma previewText_deterministic_witness :
  previewText no_digits INITIAL_FORM
  = previewText no_digits (with_ruleName (js "CPU spike") INITIAL_FORM)
  /\ previewText no_digits INITIAL_FORM
     = js "Alert warning when cpu >= 90 for 60s or longer".
Proof.
  exact (previewText_deterministic no_digits INITIAL_FORM
           (with_ruleName (js "CPU spike") INITIAL_FORM)
           eq_refl eq_refl eq_refl eq_refl eq_refl).
Defined.

Lemma operator_invariant_witness :
  let st := fst (run_events backend_ok session_template initial_state []) in
  let tr := snd (run_events backend_ok session_template initial_state []) in
  ruleOperator (formState st) = js "!="
  /\ In (ruleOperator (formState st))
       [js ">="; js ">"; js "<="; js "<"; js "=="; js "!="]
  /\ (forall gid d, In (CreateGroupRule gid d) tr ->
        In (RuleData.operator d)
           [js ">="; js ">"; js "<="; js "<"; js "=="; js "!="]).
Proof.
  intros st tr. split; [reflexivity|].
  apply (operator_invariant backend_ok st tr).
  apply reachable_run_events. apply reachable_initial.
Defined.

End RulesPageFacts.

(* ===================================================================== *)
(** * The alerts page                                                     *)
(* ===================================================================== *)

Module AlertsPageFacts.
Import JS JSFacts AgentApi AlertsPage.

(** The loop over the entries succeeds exactly when every value is a
    string. *)
Lemma collect_headers_returns (entries : list (jsstring * JS.value))
    (acc : gmap jsstring jsstring) :
  (exists m, collect_headers entries acc = Return m)
  <-> Forall (fun p => exists s, snd p = VStr s) entries.
Proof.
  revert acc. induction entries as [|[k v] rest IH]; intros acc; cbn [collect_headers].
  - split; [constructor|eauto].
  - destruct v; try (split; [intros [m Hm]; discriminate
                           |intros H; inversion H as [|? ? [s Hs] _]; discriminate]).
    rewrite IH. split; [intros H; constructor; [cbn; eauto|exact H]|].
    intros H. inversion H. assumption.
Qed.

(** Every header returned is an entry of the parsed object. *)
Lemma collect_headers_sound (entries : list (jsstring * JS.value))
    (acc m : gmap jsstring jsstring) (k s : jsstring) :
  collect_headers entries acc = Return m ->
  m !! k = Some s ->
  acc !! k = Some s \/ In (k, VStr s) entries.
Proof.
  revert acc. induction entries as [|[k' v] rest IH]; intros acc; cbn [collect_headers].
  - intros [= ->]. auto.
  - destruct v; try discriminate. intros Hm Hk.
    destruct (IH _ Hm Hk) as [Hacc|Hin]; [|right; right; exact Hin].
    unfold assign in Hacc. destruct (decide (k' = js "__proto__")); [auto|].
    destruct (decide (k' = k)) as [->|Hne].
    + rewrite lookup_insert_eq in Hacc. injection Hacc as ->. right. left. reflexivity.
    + rewrite lookup_insert_ne in Hacc by assumption. auto.
Qed.

Ltac run_handler :=
  unfold handleCreateChannel, fetchChannels, fetchAlertHistory,
    createGroupAlertChannel, listGroupAlertChannels, listGroupAlerts, call,
    try_finally, try_catch, AgentApi.bind, AgentApi.get, AgentApi.set, AgentApi.ret;
  cbn beta iota zeta.

Section Component.

Variable JSON_parse : jsstring -> completion JS.value.
Variable backend : Backend.

(** The input is accepted: it is blank, or it parses as an object all of
    whose values are strings. *)
Local Abbreviation accepted text :=
  (blank text = true
   \/ exists entries, JSON_parse text = Return (VObj entries)
        /\ Forall (fun p => exists s, snd p = VStr s) entries).

Lemma parseHeadersJson_returns (text : jsstring) :
  (exists m, parseHeadersJson JSON_parse text = Return m) <-> accepted text.
Proof.
  unfold parseHeadersJson, blank.
  destruct (negb (truthy_string (trim text))) eqn:Hb.
  - split; [auto|eauto].
  - destruct (JSON_parse text) as [parsed|e] eqn:Hp.
    + destruct parsed;
        try (split; [intros [m Hm]; discriminate
                    |intros [H|(entries & H & _)]; discriminate]).
      rewrite collect_headers_returns. split.
      * intros H. right. eauto.
      * intros [H|(entries & [= <-] & H)]; [discriminate|exact H].
    + split; [intros [m Hm]; discriminate
             |intros [H|(entries & H & _)]; discriminate].
Qed.

(** [handleCreateChannel] never throws.  When the guards or the headers
    refuse the submission it only sets the error; otherwise it calls
    [createGroupAlertChannel] once, and reloads the channels when the call
    succeeded. *)
Lemma handleCreateChannel_run (st : State) (tr : list ApiCall) :
  exists st' tr',
    handleCreateChannel JSON_parse backend st tr = (Return tt, st', tr')
    /\ (if negb (truthy_string (selectedGroupId st)) then
          st' = setError (js "Please select a group first.") st /\ tr' = tr
        else if blank (target st) then
          st' = setError (js "Please enter email or webhook URL.") st /\ tr' = tr
        else
          match channelType st, parseHeadersJson JSON_parse (webhookHeaders st) with
          | webhook, Throw err => st' = setError (exn_message err) st /\ tr' = tr
          | type, parsed =>
              exists later d,
                tr' = later ++ CreateGroupAlertChannel (selectedGroupId st) d :: tr
                /\ (later = [] \/ later = [ListGroupAlertChannels (selectedGroupId st)])
                /\ ChannelData.type d = type
                /\ ChannelData.target d = trim (target st)
                /\ ChannelData.webhook_headers d
                   = match type, parsed with
                     | webhook, Return m => Some m
                     | _, _ => None
                     end
          end).
Proof.
  unfold blank. run_handler.
  destruct (negb (truthy_string (selectedGroupId st))) eqn:Hg;
    [eexists _, _; split; [reflexivity|]; auto|].
  destruct (negb (truthy_string (trim (target st)))) eqn:Ht;
    [eexists _, _; split; [reflexivity|]; auto|].
  destruct (channelType st) eqn:Hty;
    [|destruct (parseHeadersJson JSON_parse (webhookHeaders st)) as [m|err] eqn:Hp];
    cbn beta iota zeta;
    try (eexists _, _; split; [reflexivity|]; auto; fail);
    (destruct (reply_created backend _) as [c|e]; cbn beta iota zeta;
     [destruct (reply_channels backend _) as [cs|e]; cbn beta iota zeta;
      [|destruct e]
     |destruct e]);
    (eexists _, _; split; [reflexivity|]);
    first [ exists [ListGroupAlertChannels (selectedGroupId st)]; eexists;
            split; [reflexivity|]; auto 6; fail
          | exists []; eexists; split; [reflexivity|]; auto 6 ].
Qed.

(** C3.  [parseHeadersJson] returns a map from strings to strings when its
    input is blank (the empty map) or parses as a JSON object all of whose
    values are strings (a map made of entries of that object), and
    throws otherwise; and for a webhook channel
    [handleCreateChannel] calls [createGroupAlertChannel] only when
    [parseHeadersJson] succeeded, with the map it returned, and otherwise
    sets the error and makes no call. *)
Theorem webhook_headers_validated (text : jsstring) (st : State) (tr : list ApiCall) :
  (blank text = true -> parseHeadersJson JSON_parse text = Return ∅)
  /\ ((exists m, parseHeadersJson JSON_parse text = Return m) <-> accepted text)
  /\ ((exists e, parseHeadersJson JSON_parse text = Throw e) <-> ~ accepted text)
  /\ (forall entries m k s,
        blank text = false ->
        JSON_parse text = Return (VObj entries) ->
        parseHeadersJson JSON_parse text = Return m ->
        m !! k = Some s ->
        In (k, VStr s) entries)
  /\ (channelType st = webhook ->
      exists st' tr',
        handleCreateChannel JSON_parse backend st tr = (Return tt, st', tr')
        /\ (forall gid d,
              In (CreateGroupAlertChannel gid d) tr' ->
              In (CreateGroupAlertChannel gid d) tr
              \/ exists m, parseHeadersJson JSON_parse (webhookHeaders st) = Return m
                   /\ ChannelData.webhook_headers d = Some m)
        /\ (forall e,
              parseHeadersJson JSON_parse (webhookHeaders st) = Throw e ->
              tr' = tr
              /\ exists msg, st' = setError msg st
                   /\ (truthy_string (selectedGroupId st) = true ->
                       blank (target st) = false ->
                       msg = exn_message e))).
Proof.
  split; [|split; [|split; [|split]]].
  - unfold parseHeadersJson, blank. intros ->. reflexivity.
  - apply parseHeadersJson_returns.
  - rewrite <- parseHeadersJson_returns.
    destruct (parseHeadersJson JSON_parse text) as [m|e].
    + split; [intros [e He]; discriminate|intros H; exfalso; apply H; eauto].
    + split; [intros _ [m Hm]; discriminate|eauto].
  - intros entries m k s Hb Hparse. unfold parseHeadersJson, blank in *.
    rewrite Hb, Hparse. intros Hm Hk.
    destruct (collect_headers_sound _ _ _ _ _ Hm Hk) as [Hempty|Hin];
      [rewrite lookup_empty in Hempty; discriminate|exact Hin].
  - intros Hty.
    destruct (handleCreateChannel_run st tr) as (st' & tr' & Hrun & Hcases).
    exists st', tr'. split; [exact Hrun|]. rewrite Hty in Hcases.
    destruct (negb (truthy_string (selectedGroupId st))) eqn:Hg.
    { destruct Hcases as [-> ->]. split; [auto|]. intros e _. split; [reflexivity|].
      eexists. split; [reflexivity|]. intros Hsel. rewrite Hsel in Hg. discriminate. }
    destruct (blank (target st)) eqn:Ht.
    { destruct Hcases as [-> ->]. split; [auto|]. intros e _. split; [reflexivity|].
      eexists. split; [reflexivity|]. intros _ Hb. discriminate. }
    destruct (parseHeadersJson JSON_parse (webhookHeaders st)) as [m|err].
    + destruct Hcases as (later & d0 & -> & Hlater & _ & _ & Hheaders).
      split; [|intros e He; discriminate].
      intros gid d Hin. apply in_app_or in Hin.
      destruct Hin as [Hin|[Hin|Hin]]; [| |auto].
      * destruct Hlater as [-> | ->]; [destruct Hin|].
        destruct Hin as [Hin|[]]. discriminate.
      * injection Hin as <- <-. right. eauto.
    + destruct Hcases as [-> ->]. split; [auto|].
      intros e [= <-]. split; [reflexivity|]. eauto.
Qed.


End Component.

Import Samples.

(** The default text of the headers input is accepted. *)
Example parseHeadersJson_default :
  parseHeadersJson JSON_parse_sample DEFAULT_HEADERS
  = Return {[ js "Content-Type" := js "application/json" ]}.
Proof. vm_compute. reflexivity. Qed.

(** A JSON array is refused. *)
Example parseHeadersJson_array :
  parseHeadersJson JSON_parse_sample (js "[]")
  = Throw (Error (js "Headers must be a JSON object.")).
Proof. vm_compute. reflexivity. Qed.

(** White space only gives the empty map, without parsing. *)
Example parseHeadersJson_blank :
  parseHeadersJson JSON_parse_sample (js "  " ++ newline) = Return ∅.
Proof. vm_compute. reflexivity. Qed.

(** A header named [__proto__] is accepted and dropped. *)
Example collect_headers_proto :
  collect_headers [(js "__proto__", VStr (js "x")); (js "X-Token", VStr (js "t"))] ∅
  = Return {[ js "X-Token" := js "t" ]}.
Proof. vm_compute. reflexivity. Qed.

(** A webhook channel whose headers are a JSON array: the error is set,
    no call is made. *)
Example handleCreateChannel_array_headers :
  let st := setWebhookHeaders (js "[]") (alerts_page []) in
  handleCreateChannel JSON_parse_sample backend_ok st []
  = (Return tt, setError (js "Headers must be a JSON object.") st, []).
Proof. vm_compute. reflexivity. Qed.

(** With the default headers the channel is created with the parsed
    map, and the channels are reloaded. *)
Example handleCreateChannel_default_headers :
  exists st' d,
    handleCreateChannel JSON_parse_sample backend_ok (alerts_page []) []
    = (Return tt, st',
       [ListGroupAlertChannels (js "g1"); CreateGroupAlertChannel (js "g1") d])
    /\ ChannelData.webhook_headers d
       = Some {[ js "Content-Type" := js "application/json" ]}.
Proof. eexists _, _. split; vm_compute; reflexivity. Qed.


End AlertsPageFacts.

(* ===================================================================== *)
(** * The API client                                                      *)
(* ===================================================================== *)

Module ApiFacts.
Import JS JSFacts Api.

(** ** Query strings *)

(** The pair a string, respectively a number, parameter contributes. *)
Local Abbreviation pair_if_string name v :=
  (match v with
   | Some s => if truthy_string s then [(js name, s)] else []
   | None => []
   end).

Local Abbreviation pair_if_number env name v :=
  (match v with
   | Some n => if truthy_number n then [(js name, String_of_number env n)] else []
   | None => []
   end).

(** A parameter that is absent or zero. *)
Local Abbreviation zero_or_absent v :=
  (v = None \/ exists sign, v = Some (S754_zero sign)).

(** A string parameter that is absent or empty. *)
Local Abbreviation empty_or_absent v := (v = None \/ v = Some []).

Section WithEnv.

Variable env : Env.













End WithEnv.

(** The calls of the pages, on the wire. *)
Example list_limit_100 :
  list_path Samples.env_offline
    (Some {| lp_status := None; lp_group_id := None;
             lp_limit := Some (of_Z 100); lp_offset := Some (of_Z 0) |})
  = js "/agents?limit=100".
Proof. vm_compute. reflexivity. Qed.

Example listGroupAlerts_limit_50 :
  listGroupAlerts_path Samples.env_offline (js "g1")
    (Some {| ap_limit := Some (of_Z 50); ap_offset := None |})
  = js "/agents/groups/g1/alerts?limit=50".
Proof. vm_compute. reflexivity. Qed.


(** A limit that is not a number is left out as well. *)
Example listGroupAlerts_limit_NaN :
  listGroupAlerts_path Samples.env_offline (js "g1")
    (Some {| ap_limit := Some NaN; ap_offset := Some (of_Z 20) |})
  = js "/agents/groups/g1/alerts?offset=20".
Proof. vm_compute. reflexivity. Qed.

(** ** The log of requests only grows *)

Lemma grows_ret {A} (a : A) : grows (ret a).
Proof. intros w. exists []. reflexivity. Qed.

Lemma grows_throw {A} (e : exn) : grows (@throw A e).
Proof. intros w. exists []. reflexivity. Qed.

Lemma grows_lift {A} (c : completion A) : grows (lift c).
Proof. intros w. exists []. reflexivity. Qed.

Lemma grows_gets {A} (f : World -> A) : grows (gets f).
Proof. intros w. exists []. reflexivity. Qed.

Lemma grows_modify (f : World -> World) :
  (forall w, fetch_log (f w) = fetch_log w) -> grows (modify f).
Proof. intros Hf w. exists []. cbn. apply Hf. Qed.

Lemma grows_log_fetch (r : Request) : grows (modify (log_fetch r)).
Proof. intros w. exists [r]. reflexivity. Qed.

Lemma grows_settle (p : Pending) : grows (modify (settle p)).
Proof. intros w. exists (pending_requests p). reflexivity. Qed.

Lemma grows_bind {A B} (c : io A) (k : A -> io B) :
  grows c -> (forall a, grows (k a)) -> grows (bind c k).
Proof.
  intros Hc Hk w. unfold bind. destruct (Hc w) as [l1 H1].
  destruct (c w) as [[a|e] w1]; cbn in *.
  - destruct (Hk a w1) as [l2 H2]. exists (l2 ++ l1).
    rewrite H2, H1. apply app_assoc.
  - exists l1. exact H1.
Qed.

Lemma grows_try_catch {A} (c : io A) (h : exn -> io A) :
  grows c -> (forall e, grows (h e)) -> grows (try_catch c h).
Proof.
  intros Hc Hh w. unfold try_catch. destruct (Hc w) as [l1 H1].
  destruct (c w) as [[a|e] w1]; cbn in *.
  - exists l1. exact H1.
  - destruct (Hh e w1) as [l2 H2]. exists (l2 ++ l1).
    rewrite H2, H1. apply app_assoc.
Qed.

Create HintDb grows.

(** Proves [grows] of a computation built from the operations above and
    from the functions registered in the hint database. *)
Ltac grows :=
  repeat first
    [ solve [auto with grows]
    | apply grows_ret | apply grows_throw | apply grows_lift | apply grows_gets
    | apply grows_log_fetch | apply grows_settle
    | apply grows_modify; intros ?; reflexivity
    | apply grows_bind; [|intros ?]
    | apply grows_try_catch; [|intros ?]
    | match goal with
      | |- grows (if ?b then _ else _) => destruct b
      | |- grows (match ?x with _ => _ end) => destruct x
      end ].

(** Reduces projections of worlds and pairs, and nothing of the maps. *)
Ltac world_simpl :=
  cbn [fst snd accessToken localStorage location_href fetch_log refreshPromise
       set_accessToken set_localStorage set_location_href log_fetch settle
       truthy truthy_string negb].

Section Fetch.

Variable env : Env.

Lemma grows_getAccessToken : grows (getAccessToken env).
Proof. unfold getAccessToken, getItem. grows. Qed.

Lemma grows_fetch (u : jsstring) (i : RequestInit) : grows (fetch env u i).
Proof. unfold fetch. grows. Qed.

Lemma grows_json (res : Response) : grows (json res).
Proof. unfold json. grows. Qed.

Lemma grows_setItem (key : jsstring) (v : value) : grows (setItem env key v).
Proof. unfold setItem. grows. Qed.

#[local] Hint Resolve grows_getAccessToken grows_fetch grows_json grows_setItem : grows.

Lemma grows_tryRefresh : grows (tryRefresh env).
Proof.
  unfold tryRefresh, join, doRefresh, getRefreshToken, setAccessToken,
    setRefreshToken, getItem.
  grows.
Qed.

Lemma grows_clearTokens : grows (clearTokens env).
Proof. unfold clearTokens, removeItem. grows. Qed.

Lemma grows_throw_api_error {A} (res : Response) (fallback : jsstring) :
  grows (@throw_api_error env A res fallback).
Proof. unfold throw_api_error. grows. Qed.

#[local] Hint Resolve grows_tryRefresh grows_clearTokens grows_throw_api_error : grows.

(** ** Running the pieces *)

(** Reading the access token never throws and leaves everything but
    the module variable alone, which then holds the token read. *)
Lemma getAccessToken_run (w : World) :
  exists token w1,
    getAccessToken env w = (Return token, w1)
    /\ accessToken w1 = token
    /\ localStorage w1 = localStorage w
    /\ location_href w1 = location_href w
    /\ fetch_log w1 = fetch_log w
    /\ refreshPromise w1 = refreshPromise w.
Proof.
  unfold getAccessToken, getItem, bind, gets, modify, ret. cbn.
  destruct (truthy (accessToken w)); [eexists _, _; split; [reflexivity|]; auto|].
  destruct (has_window env); eexists _, _; (split; [reflexivity|]); auto.
Qed.


Lemma fetch_run (u : jsstring) (i : RequestInit) (w : World) :
  fetch env u i w
  = (match network env ({| url := u; init := i |} :: fetch_log w) with
     | Some res => Return res
     | None => Throw (TypeError (js "Failed to fetch"))
     end, log_fetch {| url := u; init := i |} w).
Proof.
  unfold fetch, bind, modify, gets. cbn.
  destruct (network env _); reflexivity.
Qed.

(** Storing a value: the conversion first, then the write, which the
    browser may refuse. *)
Lemma setItem_run (key : jsstring) (v : value) (w : World) :
  setItem env key v w
  = match toString env v with
    | Return text =>
        if storage_accepts env (localStorage w) key text
        then (Return tt, set_localStorage (<[key := text]> (localStorage w)) w)
        else (Throw (quota_exceeded env), w)
    | Throw e => (Throw e, w)
    end.
Proof.
  unfold setItem, bind, lift, modify, gets, throw.
  destruct (toString env v) as [text|]; [|reflexivity].
  destruct (storage_accepts env (localStorage w) key text); reflexivity.
Qed.

(** [setAccessToken] assigns the module variable before it writes to
    local storage, so the variable is set even when the write throws. *)
Lemma setAccessToken_run (token : value) (w : World) :
  setAccessToken env token w
  = if has_window env
    then match toString env token with
         | Return text =>
             if storage_accepts env (localStorage w) (js "access_token") text
             then (Return tt,
                   set_localStorage (<[ js "access_token" := text ]> (localStorage w))
                     (set_accessToken token w))
             else (Throw (quota_exceeded env), set_accessToken token w)
         | Throw e => (Throw e, set_accessToken token w)
         end
    else (Return tt, set_accessToken token w).
Proof.
  unfold setAccessToken. unfold bind, modify, ret.
  destruct (has_window env); [|reflexivity].
  rewrite setItem_run. cbn [localStorage set_accessToken].
  destruct (toString env token) as [text|]; [|reflexivity].
  destruct (storage_accepts env _ _ text); reflexivity.
Qed.

Lemma setRefreshToken_run (token : value) (w : World) :
  setRefreshToken env token w
  = if has_window env
    then match toString env token with
         | Return text =>
             if storage_accepts env (localStorage w) (js "refresh_token") text
             then (Return tt,
                   set_localStorage (<[ js "refresh_token" := text ]> (localStorage w)) w)
             else (Throw (quota_exceeded env), w)
         | Throw e => (Throw e, w)
         end
    else (Return tt, w).
Proof.
  unfold setRefreshToken, ret. destruct (has_window env); [|reflexivity].
  apply setItem_run.
Qed.

(** A store that throws: in a browser only, because the token does not
    convert to a string or because the browser refuses the write; the
    module variable holds the access token all the same. *)
Lemma setAccessToken_throws (token : value) (w w' : World) (e : exn) :
  setAccessToken env token w = (Throw e, w') ->
  has_window env = true
  /\ w' = set_accessToken token w
  /\ ((exists text, e = TypeError text) \/ e = quota_exceeded env).
Proof.
  rewrite setAccessToken_run.
  destruct (has_window env); [|discriminate].
  destruct (toString env token) as [text|e'] eqn:Hs.
  - destruct (storage_accepts env _ _ text); [discriminate|].
    intros [= <- <-]. auto.
  - intros [= <- <-]. split; [reflexivity|]. split; [reflexivity|].
    left. exact (ToString_throws _ _ _ Hs).
Qed.

Lemma setRefreshToken_throws (token : value) (w w' : World) (e : exn) :
  setRefreshToken env token w = (Throw e, w') ->
  has_window env = true
  /\ w' = w
  /\ ((exists text, e = TypeError text) \/ e = quota_exceeded env).
Proof.
  rewrite setRefreshToken_run.
  destruct (has_window env); [|discriminate].
  destruct (toString env token) as [text|e'] eqn:Hs.
  - destruct (storage_accepts env _ _ text); [discriminate|].
    intros [= <- <-]. auto.
  - intros [= <- <-]. split; [reflexivity|]. split; [reflexivity|].
    left. exact (ToString_throws _ _ _ Hs).
Qed.

(** Whether the store throws or not, the module variable holds the
    token afterwards, and the rest of the world but local storage is
    as before. *)
Lemma setAccessToken_world (token : value) (w : World) :
  let stored := snd (setAccessToken env token w) in
  accessToken stored = token
  /\ location_href stored = location_href w
  /\ fetch_log stored = fetch_log w
  /\ refreshPromise stored = refreshPromise w.
Proof.
  cbv zeta. rewrite setAccessToken_run.
  destruct (has_window env); [|auto].
  destruct (toString env token) as [text|]; [|auto].
  destruct (storage_accepts env _ _ text); auto.
Qed.

Lemma setRefreshToken_world (token : value) (w : World) :
  let stored := snd (setRefreshToken env token w) in
  accessToken stored = accessToken w
  /\ location_href stored = location_href w
  /\ fetch_log stored = fetch_log w
  /\ refreshPromise stored = refreshPromise w.
Proof.
  cbv zeta. rewrite setRefreshToken_run.
  destruct (has_window env); [|auto].
  destruct (toString env token) as [text|]; [|auto].
  destruct (storage_accepts env _ _ text); auto.
Qed.

Lemma clearTokens_run (w : World) :
  clearTokens env w
  = (Return tt,
     if has_window env
     then set_localStorage
            (delete (js "refresh_token") (delete (js "access_token") (localStorage w)))
            (set_accessToken VNull w)
     else set_accessToken VNull w).
Proof.
  unfold clearTokens, removeItem, bind, modify, ret.
  destruct (has_window env); reflexivity.
Qed.

(** The refresh token as [getRefreshToken] reads it. *)
Lemma getRefreshToken_run (w : World) :
  getRefreshToken env w
  = (Return (match (if has_window env then localStorage w !! js "refresh_token"
                    else None) with
             | Some r => VStr r
             | None => VNull
             end), w).
Proof.
  unfold getRefreshToken, getItem, gets, ret.
  destruct (has_window env); [|reflexivity].
  destruct (localStorage w !! js "refresh_token"); reflexivity.
Qed.

(** A [try] whose handler returns never throws. *)
Lemma try_catch_returns {A} (c : io A) (a : A) (w : World) :
  exists r w', try_catch c (fun _ => ret a) w = (Return r, w').
Proof.
  unfold try_catch. destruct (c w) as [[r|e] w']; eexists _, _; reflexivity.
Qed.

(** The refresh never throws, whether the call starts it or waits for
    the one under way. *)
Lemma tryRefresh_returns (w : World) :
  exists refreshed w', tryRefresh env w = (Return refreshed, w').
Proof.
  unfold tryRefresh. unfold bind at 1. unfold gets.
  destruct (refreshPromise w) as [p|].
  - unfold join. unfold bind at 1. unfold modify. apply try_catch_returns.
  - unfold doRefresh. unfold bind at 1. rewrite getRefreshToken_run.
    destruct (negb (truthy _)); [eexists _, _; reflexivity|].
    apply try_catch_returns.
Qed.

(** What is left of [doRefresh] once its request is answered by [res]:
    the tokens of an ok body are stored, the access token first, and
    whatever throws on the way gives [false]. *)
Local Abbreviation answered res w :=
  (if ok res then
     match json_body res with
     | Some data =>
         match Get data (js "access_token") with
         | Return access =>
             match setAccessToken env access w with
             | (Return _, w1) =>
                 match Get data (js "refresh_token") with
                 | Return refresh =>
                     match setRefreshToken env refresh w1 with
                     | (Return _, w2) => (Return true, w2)
                     | (Throw _, w2) => (Return false, w2)
                     end
                 | Throw _ => (Return false, w1)
                 end
             | (Throw _, w1) => (Return false, w1)
             end
         | Throw _ => (Return false, w)
         end
     | None => (Return false, w)
     end
   else (Return false, w)).

(** The request of the refresh, for the stored refresh token [r]. *)
Local Abbreviation refresh_request r :=
  {| url := API_BASE env ++ js "/auth/refresh";
     init := {| method := Some (js "POST");
                headers := {[ js "Content-Type" := js "application/json" ]};
                body := Some (JSON_stringify env
                                (VObj [(js "refresh_token", VStr r)])) |} |}.

(** The refresh, case by case. *)
Lemma doRefresh_run (w : World) :
  doRefresh env w
  = match (if has_window env then localStorage w !! js "refresh_token" else None) with
    | Some r =>
        if truthy_string r then
          match network env (refresh_request r :: fetch_log w) with
          | Some res => answered res (log_fetch (refresh_request r) w)
          | None => (Return false, log_fetch (refresh_request r) w)
          end
        else (Return false, w)
    | None => (Return false, w)
    end.
Proof.
  unfold doRefresh. unfold bind at 1. rewrite getRefreshToken_run.
  destruct (has_window env) eqn:Hw; [|reflexivity].
  destruct (localStorage w !! js "refresh_token") as [r|]; [|reflexivity].
  cbn [truthy negb]. destruct (truthy_string r); [|reflexivity].
  cbn [negb]. unfold try_catch. unfold bind at 1. rewrite fetch_run.
  destruct (network env _) as [res|]; [|reflexivity].
  cbv beta iota zeta. destruct (ok res); [|reflexivity].
  cbn [negb]. unfold json. unfold bind at 1. unfold ret, throw.
  destruct (json_body res) as [data|]; [|reflexivity].
  unfold bind at 1. unfold lift.
  destruct (Get data (js "access_token")) as [access|]; [|reflexivity].
  unfold bind at 1.
  destruct (setAccessToken env access _) as [[[]|e] w1]; [|reflexivity].
  unfold bind at 1.
  destruct (Get data (js "refresh_token")) as [refresh|]; [|reflexivity].
  unfold bind at 1.
  destruct (setRefreshToken env refresh w1) as [[[]|e] w2]; reflexivity.
Qed.

(** Waiting for the refresh under way. *)
Lemma join_run (p : Pending) (w : World) :
  join env p w
  = match pending_response p with
    | Some res => answered res (settle p w)
    | None => (Return false, settle p w)
    end.
Proof.
  unfold join. unfold bind at 1. unfold modify. unfold try_catch.
  destruct (pending_response p) as [res|]; [|reflexivity].
  destruct (ok res); [|reflexivity].
  cbn [negb]. unfold json. unfold bind at 1. unfold ret, throw.
  destruct (json_body res) as [data|]; [|reflexivity].
  unfold bind at 1. unfold lift.
  destruct (Get data (js "access_token")) as [access|]; [|reflexivity].
  unfold bind at 1.
  destruct (setAccessToken env access _) as [[[]|e] w1]; [|reflexivity].
  unfold bind at 1.
  destruct (Get data (js "refresh_token")) as [refresh|]; [|reflexivity].
  unfold bind at 1.
  destruct (setRefreshToken env refresh w1) as [[[]|e] w2]; reflexivity.
Qed.

Lemma tryRefresh_run (w : World) :
  tryRefresh env w
  = match refreshPromise w with
    | Some p => join env p w
    | None => doRefresh env w
    end.
Proof.
  unfold tryRefresh, bind, gets. destruct (refreshPromise w); reflexivity.
Qed.

(** Storing the tokens of a response leaves the location alone and adds
    nothing to the log. *)
Lemma answered_world (res : Response) (w w' : World) (refreshed : bool) :
  answered res w = (Return refreshed, w') ->
  location_href w' = location_href w
  /\ fetch_log w' = fetch_log w
  /\ refreshPromise w' = refreshPromise w.
Proof.
  destruct (ok res); [|intros [= <- <-]; auto].
  destruct (json_body res) as [data|]; [|intros [= <- <-]; auto].
  destruct (Get data (js "access_token")) as [access|]; [|intros [= <- <-]; auto].
  rewrite setAccessToken_run.
  destruct (Get data (js "refresh_token")) as [refresh|];
    destruct (has_window env) eqn:Hw;
    repeat match goal with
      | |- context [match toString env ?v with _ => _ end] => destruct (toString env v)
      | |- context [storage_accepts env ?m ?k ?t] => destruct (storage_accepts env m k t)
      | |- context [setRefreshToken env ?v ?w0] => rewrite (setRefreshToken_run v w0), ?Hw
      end;
    intros [= <- <-]; auto.
Qed.


Lemma throw_api_error_run {A} (res : Response) (fallback : jsstring) (w : World) :
  @throw_api_error env A res fallback w
  = (match Get (error_data res) (js "error") with
     | Return error =>
         match error_message env error fallback with
         | Return message => Throw (ApiError (status res) message (error_data res))
         | Throw e => Throw e
         end
     | Throw e => Throw e
     end, w).
Proof.
  unfold throw_api_error, error_data, json, bind, try_catch, lift, throw, ret.
  destruct (json_body res) as [v|]; cbn.
  - destruct (Get v (js "error")) as [error|]; [|reflexivity].
    destruct (error_message env error fallback); reflexivity.
  - destruct (error_message env VUndefined fallback); reflexivity.
Qed.

(** The request [apiFetch] makes first, with the headers [h], and the
    one it makes again after a refresh, with the new authorization. *)
Local Abbreviation first_request path options h :=
  {| url := API_BASE env ++ path; init := with_headers options h |}.

Local Abbreviation retry_request path options h authorization :=
  {| url := API_BASE env ++ path;
     init := with_headers options (<[ js "Authorization" := authorization ]> h) |}.

Local Abbreviation session_expired :=
  (Throw (ApiError 401 (js "Session expired") VUndefined)).

(** The world after the session has been ended in world [w]. *)
Local Abbreviation ended w :=
  ((if has_window env then set_location_href (js "/login") else fun w' => w')
     (snd (clearTokens env w))).

(** What a response gives: its body, or the error it stands for. *)
Local Abbreviation outcome res fallback :=
  (if negb (ok res) then throw_api_error env res fallback else json res).

(** [apiFetch], case by case. *)
Lemma apiFetch_run (path : jsstring) (options : RequestInit) (w : World)
    (token : value) (w1 : World) :
  getAccessToken env w = (Return token, w1) ->
  apiFetch env path options w
  = match with_token env token (base_headers options) with
    | Throw e => (Throw e, w1)
    | Return h =>
        let sent := log_fetch (first_request path options h) w1 in
        match network env (first_request path options h :: fetch_log w1) with
        | None => (Throw (TypeError (js "Failed to fetch")), sent)
        | Some res =>
            if (status res =? 401)%N && truthy token then
              match tryRefresh env sent with
              | (Return true, w2) =>
                  match getAccessToken env w2 with
                  | (Return token', w3) =>
                      match bearer env token' with
                      | Throw e => (Throw e, w3)
                      | Return authorization =>
                          let again :=
                            log_fetch (retry_request path options h authorization) w3 in
                          match network env
                                  (retry_request path options h authorization
                                     :: fetch_log w3) with
                          | None => (Throw (TypeError (js "Failed to fetch")), again)
                          | Some res2 => outcome res2 (js "Request failed") again
                          end
                      end
                  | (Throw e, w3) => (Throw e, w3)
                  end
              | (Return false, w2) => (session_expired, ended w2)
              | (Throw e, w2) => (Throw e, w2)
              end
            else outcome res (js "HTTP " ++ decimal (status res)) sent
        end
    end.
Proof.
  intros Htok. unfold apiFetch. cbv zeta. unfold bind at 1. rewrite Htok.
  cbv beta iota. unfold bind at 1. unfold lift.
  destruct (with_token env token (base_headers options)) as [h|e]; [|reflexivity].
  unfold bind at 1. rewrite fetch_run.
  destruct (network env _) as [res|]; [|reflexivity].
  cbv beta iota zeta.
  destruct ((status res =? 401)%N && truthy token); [|reflexivity].
  unfold bind at 1.
  destruct (tryRefresh env _) as [[[|]|e] w2]; [| |reflexivity].
  - unfold bind at 1.
    destruct (getAccessToken env w2) as [[token'|e] w3]; [|reflexivity].
    unfold bind at 1. unfold lift.
    destruct (bearer env token') as [authorization|e]; [|reflexivity].
    unfold bind at 1. rewrite fetch_run.
    match goal with
    | |- context [network env ?l] => destruct (network env l)
    end; reflexivity.
  - unfold bind at 1. rewrite clearTokens_run. cbn [snd].
    unfold bind, modify, ret, throw.
    destruct (has_window env); reflexivity.
Qed.

(** The outcome of a response changes nothing, it never is a value when
    the response is not ok, and it never is the error of an ended
    session: the data of its ApiError is a parsed body. *)
Lemma outcome_run (res : Response) (fallback : jsstring) (w : World) :
  snd (outcome res fallback w) = w
  /\ fst (outcome res fallback w) <> session_expired
  /\ (ok res = false -> forall v, fst (outcome res fallback w) <> Return v).
Proof.
  destruct (ok res); cbn [negb].
  - unfold json, ret, throw.
    destruct (json_body res); (split; [reflexivity|]); (split; [|discriminate]);
      cbn [fst]; discriminate.
  - rewrite throw_api_error_run. split; [reflexivity|]. cbn [fst].
    assert (Hmessage : forall error e,
              error_message env error fallback = Throw e ->
              exists text, e = TypeError text)
      by (intros error e; apply ToString_throws).
    destruct (error_data res); cbn [Get];
      try (split; [|intros _ v]; discriminate);
      match goal with
      | |- context [error_message env ?error fallback] =>
          destruct (error_message env error fallback) as [message|e] eqn:Hm;
          [|destruct (Hmessage _ _ Hm) as [text ->]]
      end;
      (split; [|intros _ v]); intros H; inversion H.
Qed.

(** The refresh leaves the location alone and makes at most its one
    request, for the stored refresh token; it makes it when it
    succeeds. *)
Lemma doRefresh_world (w w' : World) (refreshed : bool) :
  doRefresh env w = (Return refreshed, w') ->
  location_href w' = location_href w
  /\ refreshPromise w' = refreshPromise w
  /\ ((exists r, localStorage w !! js "refresh_token" = Some r
                 /\ fetch_log w' = refresh_request r :: fetch_log w)
      \/ (refreshed = false /\ w' = w)).
Proof.
  rewrite doRefresh_run.
  destruct (has_window env); [|intros [= <- <-]; auto].
  destruct (localStorage w !! js "refresh_token") as [r|]; [|intros [= <- <-]; auto].
  destruct (truthy_string r); [|intros [= <- <-]; auto].
  destruct (network env _) as [res|]; [|intros [= <- <-]; cbn; eauto 6].
  intros H. destruct (answered_world _ _ _ _ H) as (Hloc & Hlog & Hrp).
  split; [exact Hloc|]. split; [exact Hrp|]. left. exists r.
  split; [reflexivity|]. exact Hlog.
Qed.

(** Waiting for the refresh under way leaves the location alone; the
    log gains the requests the other calls made meanwhile. *)
Lemma join_world (p : Pending) (w w' : World) (refreshed : bool) :
  join env p w = (Return refreshed, w') ->
  location_href w' = location_href w
  /\ fetch_log w' = pending_requests p ++ fetch_log w.
Proof.
  rewrite join_run.
  destruct (pending_response p) as [res|]; [|intros [= <- <-]; auto].
  intros H. destruct (answered_world _ _ _ _ H) as (Hloc & Hlog & _). auto.
Qed.




(** Whatever happens after it, the first request stays in the log on
    top of what the log held. *)
Lemma apiFetch_log (path : jsstring) (options : RequestInit) (w : World)
    (token : value) (w1 : World) (h : gmap jsstring jsstring) :
  getAccessToken env w = (Return token, w1) ->
  fetch_log w1 = fetch_log w ->
  with_token env token (base_headers options) = Return h ->
  exists later,
    fetch_log (snd (apiFetch env path options w))
    = later ++ first_request path options h :: fetch_log w.
Proof.
  intros Htok Hlog Hh. unfold apiFetch. cbv zeta. unfold bind at 1. rewrite Htok.
  cbv beta iota. unfold bind at 1. unfold lift. rewrite Hh.
  unfold bind at 1. rewrite fetch_run.
  destruct (network env _) as [res|]; cbv beta iota zeta.
  - match goal with
    | |- exists later, fetch_log (snd (?c ?w')) = _ =>
        assert (Hg : grows c) by grows;
        destruct (Hg w') as [later Hl]
    end.
    exists later. rewrite Hl. cbn. rewrite Hlog. reflexivity.
  - exists []. cbn. rewrite Hlog. reflexivity.
Qed.

(** The message of an ApiError, by the [error] field: the field itself
    when it is a non-empty string, the fallback when it is falsy, and
    the string conversion of the field otherwise, which throws only
    TypeErrors. *)
Lemma error_message_cases (fallback : jsstring) :
  (forall s, truthy_string s = true -> error_message env (VStr s) fallback = Return s)
  /\ (forall error, truthy error = false ->
        error_message env error fallback = Return fallback)
  /\ (forall error, truthy error = true ->
        error_message env error fallback = toString env error)
  /\ (forall error e, error_message env error fallback = Throw e ->
        exists text, e = TypeError text).
Proof.
  unfold error_message, or_else, toString. split; [|split; [|split]].
  - intros s Hs. cbn [truthy]. rewrite Hs. reflexivity.
  - intros error Hf. rewrite Hf. reflexivity.
  - intros error Ht. rewrite Ht. reflexivity.
  - intros error e. apply ToString_throws.
Qed.

(** C8 (amended).  Let the request be answered by a response that is not
    ok.  Unless the response is a 401 to a request that carried a token,
    [apiFetch] throws an ApiError with the status of the response, the
    parsed body as data, and as message the [error] field of the body:
    the field itself when it is a non-empty string, 'HTTP {status}' when
    it is absent or falsy, and its string conversion when it is another
    truthy value.  Two bodies give a TypeError instead: JSON [null],
    which has no [error] field to read, and a body whose truthy [error]
    field does not convert to a string, on which the constructor of the
    ApiError throws.  On a 401 with a token: when the refresh fails
    [apiFetch] throws ApiError(401, 'Session expired'); when the refresh
    succeeds and the retried request is answered by a response that is
    not ok, it throws in the same way for that second response, with
    the fallback message 'Request failed'.  A value is returned only
    when the retried request is answered ok. *)
Theorem apiFetch_failure (path : jsstring) (options : RequestInit) (w : World)
    (token : value) (w1 : World) (h : gmap jsstring jsstring) (res : Response) :
  getAccessToken env w = (Return token, w1) ->
  with_token env token (base_headers options) = Return h ->
  network env (first_request path options h :: fetch_log w1) = Some res ->
  ok res = false ->
  let sent := log_fetch (first_request path options h) w1 in
  let thrown res fallback :=
    match Get (error_data res) (js "error") with
    | Return error =>
        match error_message env error fallback with
        | Return message => Throw (ApiError (status res) message (error_data res))
        | Throw e => Throw e
        end
    | Throw e => Throw e
    end in
  ((status res =? 401)%N && truthy token = false ->
   apiFetch env path options w
   = (thrown res (js "HTTP " ++ decimal (status res)), sent))
  /\ ((status res =? 401)%N && truthy token = true ->
      forall w2,
        tryRefresh env sent = (Return false, w2) ->
        fst (apiFetch env path options w)
        = Throw (ApiError 401 (js "Session expired") VUndefined))
  /\ ((status res =? 401)%N && truthy token = true ->
      forall w2 token' w3 authorization res2,
        tryRefresh env sent = (Return true, w2) ->
        getAccessToken env w2 = (Return token', w3) ->
        bearer env token' = Return authorization ->
        network env (retry_request path options h authorization :: fetch_log w3)
        = Some res2 ->
        ok res2 = false ->
        apiFetch env path options w
        = (thrown res2 (js "Request failed"),
           log_fetch (retry_request path options h authorization) w3))
  /\ (forall res fallback,
        (forall e, thrown res fallback = Throw e ->
           (exists message, e = ApiError (status res) message (error_data res))
           \/ (exists text, e = TypeError text))
        /\ (forall v, thrown res fallback <> Return v)
        /\ (forall e, Get (error_data res) (js "error") = Throw e ->
              json_body res = Some VNull \/ json_body res = Some VUndefined))
  /\ (forall fallback,
        (forall s, truthy_string s = true ->
           error_message env (VStr s) fallback = Return s)
        /\ (forall error, truthy error = false ->
              error_message env error fallback = Return fallback)
        /\ (forall error, truthy error = true ->
              error_message env error fallback = toString env error)
        /\ (forall error e, error_message env error fallback = Throw e ->
              exists text, e = TypeError text))
  /\ (forall v,
        fst (apiFetch env path options w) = Return v ->
        (status res =? 401)%N && truthy token = true
        /\ exists w2 token' w3 authorization res2,
             tryRefresh env sent = (Return true, w2)
             /\ getAccessToken env w2 = (Return token', w3)
             /\ bearer env token' = Return authorization
             /\ network env (retry_request path options h authorization :: fetch_log w3)
                = Some res2
             /\ ok res2 = true
             /\ json_body res2 = Some v).
Proof.
  intros Htok Hh Hnet Hok sent thrown. subst sent.
  pose proof (apiFetch_run path options w token w1 Htok) as Hrun.
  rewrite Hh in Hrun. cbv zeta in Hrun. rewrite Hnet in Hrun.
  split; [|split; [|split; [|split; [|split]]]].
  - intros Hcond. rewrite Hrun, Hcond, Hok. cbn [negb].
    apply throw_api_error_run.
  - intros Hcond w2 Href. rewrite Hrun, Hcond, Href. reflexivity.
  - intros Hcond w2 token' w3 authorization res2 Href Htok' Hb Hnet' Hok'.
    rewrite Hrun, Hcond, Href, Htok', Hb. cbv zeta. rewrite Hnet', Hok'. cbn [negb].
    apply throw_api_error_run.
  - intros res0 fallback. subst thrown. cbv beta.
    split; [|split].
    + intros e.
      destruct (Get (error_data res0) (js "error")) as [error|e0] eqn:Hget.
      * destruct (error_message env error fallback) as [message|e1] eqn:Hm.
        -- intros [= <-]. left. eauto.
        -- intros [= <-]. right.
           exact (proj2 (proj2 (proj2 (error_message_cases fallback))) _ _ Hm).
      * intros [= <-]. right.
        destruct (error_data res0); cbn [Get] in Hget; try discriminate;
          injection Hget as <-; eauto.
    + intros v. destruct (Get (error_data res0) (js "error")) as [error|e0];
        [destruct (error_message env error fallback)|]; discriminate.
    + intros e. unfold error_data.
      destruct (json_body res0) as [[]|]; cbn [Get]; try discriminate; auto.
  - exact error_message_cases.
  - intros v Hret. rewrite Hrun in Hret.
    destruct ((status res =? 401)%N && truthy token) eqn:Hcond.
    + split; [reflexivity|].
      destruct (tryRefresh env _) as [[[|]|e] w2] eqn:Href; [| |discriminate].
      * destruct (getAccessToken env w2) as [[token'|e] w3] eqn:Htok'; [|discriminate].
        destruct (bearer env token') as [authorization|e] eqn:Hb; [|discriminate].
        cbv zeta in Hret.
        destruct (network env (retry_request path options h authorization :: fetch_log w3))
          as [res2|] eqn:Hnet'; [|discriminate].
        exists w2, token', w3, authorization, res2.
        do 4 (split; [reflexivity || assumption|]).
        pose proof (proj2 (proj2 (outcome_run res2 (js "Request failed")
                                    (log_fetch (retry_request path options h authorization)
                                       w3)))) as Hno.
        destruct (ok res2).
        -- split; [reflexivity|]. cbn [negb] in Hret. unfold json in Hret.
           destruct (json_body res2); [injection Hret as ->; reflexivity|discriminate].
        -- exfalso. exact (Hno eq_refl v Hret).
      * discriminate.
    + exfalso. exact (proj2 (proj2 (outcome_run res _ _)) Hok v Hret).
Qed.


End Fetch.

Import Samples.

(** The back end is down: the one response is a 503 whose body names the
    error, and that is the message of the ApiError. *)
Lemma apiFetch_failure_witness :
  apiFetch env_maintenance (js "/agents") no_options world_signed_in
  = (Throw (ApiError 503 (js "maintenance")
              (VObj [(js "error", VStr (js "maintenance"))])),
     log_fetch
       {| url := js "/api/v1/agents";
          init := with_headers no_options
                    {[ js "Authorization" := js "Bearer t1";
                       js "Content-Type" := js "application/json" ]} |}
       (set_accessToken (VStr (js "t1")) world_signed_in)).
Proof.
  destruct (apiFetch_failure env_maintenance (js "/agents") no_options
              world_signed_in (VStr (js "t1"))
              (set_accessToken (VStr (js "t1")) world_signed_in)
              {[ js "Authorization" := js "Bearer t1";
                 js "Content-Type" := js "application/json" ]}
              response_503)
    as (Hplain & _);
    [vm_compute; reflexivity|vm_compute; reflexivity|vm_compute; reflexivity
    |reflexivity|].
  rewrite (Hplain eq_refl). vm_compute. reflexivity.
Defined.

(** C8, as stated, fails: the token has expired, the refresh succeeds,
    and the retried request is answered 500 with a body that has no
    [error] field; the message of the ApiError is 'Request failed', not
    'HTTP 500'. *)
Lemma retry_message_counterexample :
  let run := apiFetch env_expired_token (js "/agents") no_options world_signed_in in
  List.map (fun r => (url r, method (init r))) (fetch_log (snd run))
  = [(js "/api/v1/agents", None);
     (js "/api/v1/auth/refresh", Some (js "POST"));
     (js "/api/v1/agents", None)]
  /\ network env_expired_token (fetch_log (snd run)) = Some response_500
  /\ ok response_500 = false
  /\ own_property [] (js "error") = None
  /\ fst run = Throw (ApiError 500 (js "Request failed") (VObj []))
  /\ js "Request failed" <> js "HTTP " ++ decimal 500.
Proof.
  repeat split; try (vm_compute; reflexivity). vm_compute. discriminate.
Qed.

(** An [error] field that does not convert to a string: the constructor
    of the ApiError throws, and what [apiFetch] throws is a TypeError. *)
Example apiFetch_unconvertible_error :
  exists text,
    fst (apiFetch (env_answering response_odd_error) (js "/agents") no_options
           world_signed_out)
    = Throw (TypeError text).
Proof. eexists. vm_compute. reflexivity. Qed.


End ApiFacts.
(* ===================================================================== *)
(** * Tokens and the refresh                                              *)
(* ===================================================================== *)

Module SessionFacts.
Import JS JSFacts Api AuthApi.
Import ApiFacts.

Section WithEnv.

Variable env : Env.

(** ** The token store *)

(** X1.  A truthy token that is set is the token read back, the read
    changing nothing, also when the write to local storage throws: the
    module variable is assigned first.  In a browser a token that
    converts to a string is kept in local storage as that string when
    the browser accepts the write; when it refuses, [setAccessToken]
    throws the error of the quota; and a token that does not convert
    makes it throw a TypeError.  In both cases local storage is as
    before.  No other key is touched. *)
Theorem setAccessToken_read_back (token : value) (w : World) :
  truthy token = true ->
  let stored := snd (setAccessToken env token w) in
  getAccessToken env stored = (Return token, stored)
  /\ (has_window env = false ->
      fst (setAccessToken env token w) = Return tt
      /\ localStorage stored = localStorage w)
  /\ (has_window env = true ->
      match toString env token with
      | Return text =>
          if storage_accepts env (localStorage w) (js "access_token") text
          then fst (setAccessToken env token w) = Return tt
               /\ localStorage stored
                  = <[ js "access_token" := text ]> (localStorage w)
          else fst (setAccessToken env token w) = Throw (quota_exceeded env)
               /\ localStorage stored = localStorage w
      | Throw e =>
          fst (setAccessToken env token w) = Throw e
          /\ localStorage stored = localStorage w
          /\ exists text, e = TypeError text
      end)
  /\ (forall key, key <> js "access_token" ->
        localStorage stored !! key = localStorage w !! key).
Proof.
  intros Ht stored. subst stored. rewrite setAccessToken_run.
  unfold getAccessToken, bind, modify, gets, ret.
  destruct (has_window env).
  - destruct (toString env token) as [text|e] eqn:Hs;
      [destruct (storage_accepts env _ _ text)|]; world_simpl; rewrite Ht.
    + split; [reflexivity|]. split; [discriminate|]. split; [auto|].
      intros key Hkey. apply lookup_insert_ne. congruence.
    + split; [reflexivity|]. split; [discriminate|]. split; [auto|reflexivity].
    + split; [reflexivity|]. split; [discriminate|]. split; [|reflexivity].
      intros _. do 2 (split; [reflexivity|]). exact (ToString_throws _ _ _ Hs).
  - world_simpl. rewrite Ht. split; [reflexivity|]. split; [auto|].
    split; [discriminate|reflexivity].
Qed.

(** X2.  In a browser that accepts the write, a non-empty token string
    survives a reload: the first read after it takes the token from
    local storage, and caches it. *)
Theorem access_token_survives_reload (token : jsstring) (w : World) :
  has_window env = true ->
  truthy_string token = true ->
  storage_accepts env (localStorage w) (js "access_token") token = true ->
  let reloaded := reload (snd (setAccessToken env (VStr token) w)) in
  fst (getAccessToken env reloaded) = Return (VStr token)
  /\ accessToken (snd (getAccessToken env reloaded)) = VStr token.
Proof.
  intros Hw Ht Hacc reloaded. subst reloaded.
  rewrite setAccessToken_run, Hw. unfold toString. cbn [ToString]. rewrite Hacc.
  unfold reload, getAccessToken, getItem, bind, modify, gets, ret.
  rewrite Hw. cbn. rewrite lookup_insert_eq. split; reflexivity.
Qed.

(** Reading the access token twice is reading it once. *)
Theorem getAccessToken_idempotent (w : World) :
  getAccessToken env (snd (getAccessToken env w)) = getAccessToken env w.
Proof.
  unfold getAccessToken, getItem, bind, modify, gets, ret. cbn.
  destruct (truthy (accessToken w)) eqn:Hc; cbn; [rewrite Hc; reflexivity|].
  destruct (has_window env); cbn.
  - destruct (localStorage w !! js "access_token") as [s|] eqn:Hs; cbn.
    + destruct (truthy_string s); cbn; rewrite ?Hs; reflexivity.
    + rewrite Hs. reflexivity.
  - rewrite Hc. reflexivity.
Qed.

(** X3.  After [clearTokens] both reads answer [null]; in a browser both
    keys are gone from local storage; the other keys, the location and the
    log of requests are as before. *)
Theorem clearTokens_forgets (w : World) :
  let cleared := snd (clearTokens env w) in
  fst (getAccessToken env cleared) = Return VNull
  /\ fst (getRefreshToken env cleared) = Return VNull
  /\ (has_window env = true ->
      localStorage cleared !! js "access_token" = None
      /\ localStorage cleared !! js "refresh_token" = None)
  /\ (forall key, key <> js "access_token" -> key <> js "refresh_token" ->
        localStorage cleared !! key = localStorage w !! key)
  /\ location_href cleared = location_href w
  /\ fetch_log cleared = fetch_log w.
Proof.
  intros cleared. subst cleared.
  assert (Hat : js "refresh_token" <> js "access_token")
    by (intros H; vm_compute in H; discriminate).
  unfold clearTokens, getAccessToken, getRefreshToken, removeItem, getItem, bind,
    modify, gets, ret.
  destruct (has_window env); world_simpl.
  - rewrite (lookup_delete_ne _ _ _ Hat), !lookup_delete_eq. world_simpl.
    repeat split; try reflexivity.
    intros key H1 H2. rewrite !lookup_delete_ne by congruence. reflexivity.
  - repeat split; try reflexivity; discriminate.
Qed.

(** ** The refresh *)

(** The request of the refresh, for the stored refresh token [r]. *)
Local Abbreviation refresh_request r :=
  {| url := API_BASE env ++ js "/auth/refresh";
     init := {| method := Some (js "POST");
                headers := {[ js "Content-Type" := js "application/json" ]};
                body := Some (JSON_stringify env
                                (VObj [(js "refresh_token", VStr r)])) |} |}.

(** X4.  Without a refresh token (outside a browser, or with none or an
    empty one in local storage) the refresh fails at once: no request,
    nothing changed. *)
Theorem doRefresh_without_token (w : World) :
  has_window env = false
  \/ localStorage w !! js "refresh_token" = None
  \/ localStorage w !! js "refresh_token" = Some [] ->
  doRefresh env w = (Return false, w).
Proof.
  intros H. rewrite doRefresh_run.
  destruct H as [-> | [-> | ->]]; [reflexivity| |];
    destruct (has_window env); reflexivity.
Qed.

(** X5.  A refresh that fails leaves the location as it was and has made
    at most the one refresh request.  The tokens are as they were as
    well, the module variable and local storage unchanged, unless the
    refresh failed while it stored the tokens of an ok response,
    because a token does not convert to a string or the browser
    refuses the write.  The module variable then holds the
    [access_token] field of the body; and either storing that field
    threw and local storage is unchanged, or it is stored under
    [access_token] and storing the [refresh_token] field threw. *)
Theorem doRefresh_failure_keeps_tokens (w w' : World) :
  doRefresh env w = (Return false, w') ->
  location_href w' = location_href w
  /\ (fetch_log w' = fetch_log w
      \/ exists r, localStorage w !! js "refresh_token" = Some r
                   /\ fetch_log w' = refresh_request r :: fetch_log w)
  /\ ((accessToken w' = accessToken w /\ localStorage w' = localStorage w)
      \/ exists r res data access e,
           has_window env = true
           /\ localStorage w !! js "refresh_token" = Some r
           /\ network env (refresh_request r :: fetch_log w) = Some res
           /\ ok res = true
           /\ json_body res = Some data
           /\ Get data (js "access_token") = Return access
           /\ accessToken w' = access
           /\ ((exists text, e = TypeError text) \/ e = quota_exceeded env)
           /\ let sent := log_fetch (refresh_request r) w in
              (setAccessToken env access sent = (Throw e, w')
               /\ localStorage w' = localStorage w)
              \/ exists stored refresh w1,
                   setAccessToken env access sent = (Return tt, w1)
                   /\ toString env access = Return stored
                   /\ Get data (js "refresh_token") = Return refresh
                   /\ setRefreshToken env refresh w1 = (Throw e, w')
                   /\ localStorage w'
                      = <[ js "access_token" := stored ]> (localStorage w)).
Proof.
  rewrite doRefresh_run.
  destruct (has_window env) eqn:Hw; [|intros [= <-]; auto].
  destruct (localStorage w !! js "refresh_token") as [r|] eqn:Hr;
    [|intros [= <-]; auto].
  destruct (truthy_string r); [|intros [= <-]; auto].
  assert (Hkept : forall w0 : World,
            w0 = log_fetch (refresh_request r) w ->
            location_href w0 = location_href w
            /\ (fetch_log w0 = fetch_log w
                \/ exists r0, Some r = Some r0
                              /\ fetch_log w0 = refresh_request r0 :: fetch_log w)
            /\ accessToken w0 = accessToken w /\ localStorage w0 = localStorage w).
  { intros w0 ->. split; [reflexivity|]. split; [right; exists r|]; split; reflexivity. }
  assert (Hfails : log_fetch (refresh_request r) w = w' ->
            location_href w' = location_href w
            /\ (fetch_log w' = fetch_log w
                \/ exists r0, Some r = Some r0
                              /\ fetch_log w' = refresh_request r0 :: fetch_log w)
            /\ accessToken w' = accessToken w /\ localStorage w' = localStorage w)
    by (intros <-; apply Hkept; reflexivity).
  assert (Hleft : forall A B C D : Prop, A /\ B /\ C -> A /\ B /\ (C \/ D)) by tauto.
  destruct (network env _) as [res|] eqn:Hnet;
    [|intros [= H]; apply Hleft, Hfails, H].
  destruct (ok res) eqn:Hok; [|intros [= H]; apply Hleft, Hfails, H].
  destruct (json_body res) as [data|] eqn:Hbody;
    [|intros [= H]; apply Hleft, Hfails, H].
  destruct (Get data (js "access_token")) as [access|] eqn:Ha;
    [|intros [= H]; apply Hleft, Hfails, H].
  clear Hkept Hfails Hleft.
  assert (Hkind : forall v e w0 w1,
            setItem env (js "refresh_token") v w0 = (Throw e, w1) ->
            (exists text, e = TypeError text) \/ e = quota_exceeded env).
  { intros v e w0 w1. rewrite setItem_run.
    destruct (toString env v) as [text|e'] eqn:Hs.
    - destruct (storage_accepts env _ _ text); [discriminate|].
      intros [= <- _]. auto.
    - intros [= <- _]. left. exact (ToString_throws _ _ _ Hs). }
  destruct (setAccessToken env access _) as [[[]|e] w1] eqn:Hset.
  - destruct (Get data (js "refresh_token")) as [refresh|e] eqn:Hg;
      [|exfalso; destruct data; cbn [Get] in Ha, Hg; discriminate].
    destruct (setRefreshToken env refresh w1) as [[[]|e] w2] eqn:Hset2; [discriminate|].
    intros [= <-].
    pose proof Hset as Hrun. rewrite setAccessToken_run, Hw in Hrun.
    destruct (toString env access) as [stored|] eqn:Hsa; [|discriminate].
    destruct (storage_accepts env _ _ stored); [|discriminate].
    injection Hrun as <-.
    pose proof Hset2 as Hrun2. rewrite setRefreshToken_run, Hw in Hrun2.
    assert (Hw2 : w2 = set_localStorage
                         (<[ js "access_token" := stored ]> (localStorage w))
                         (set_accessToken access (log_fetch (refresh_request r) w))).
    { revert Hrun2. destruct (toString env refresh) as [sr|];
        [destruct (storage_accepts env _ _ sr); [discriminate|]|]; congruence. }
    assert (He : (exists text, e = TypeError text) \/ e = quota_exceeded env).
    { pose proof Hset2 as Hitem. unfold setRefreshToken in Hitem.
      rewrite Hw in Hitem. exact (Hkind _ _ _ _ Hitem). }
    clear Hrun2. subst w2. world_simpl.
    split; [reflexivity|]. split; [right; exists r; split; reflexivity|].
    right. exists r, res, data, access, e.
    do 8 (split; [assumption || reflexivity|]).
    right. exists stored, refresh. eexists.
    split; [exact Hset|]. split; [assumption|]. split; [assumption|].
    split; [exact Hset2|reflexivity].
  - intros [= <-].
    pose proof Hset as Hrun. rewrite setAccessToken_run, Hw in Hrun.
    assert (Hw1 : w1 = set_accessToken access (log_fetch (refresh_request r) w)
                  /\ ((exists text, e = TypeError text) \/ e = quota_exceeded env)).
    { revert Hrun. destruct (toString env access) as [stored|e'] eqn:Hsa;
        [destruct (storage_accepts env _ _ stored); [discriminate|]|].
      - intros [= <- <-]. auto.
      - intros [= <- <-]. split; [reflexivity|]. left.
        exact (ToString_throws _ _ _ Hsa). }
    destruct Hw1 as [Hw1 He]. clear Hrun. subst w1. world_simpl.
    split; [reflexivity|]. split; [right; exists r; split; reflexivity|].
    right. exists r, res, data, access, e.
    do 8 (split; [assumption || reflexivity|]).
    left. split; [exact Hset|reflexivity].
Qed.

(** X6.  A refresh succeeds only in a browser, on an ok response to the one
    refresh request whose body is neither [null] nor absent, and whose
    token fields both convert to strings; the module variable then holds
    the [access_token] field of the body, and local storage the string
    conversions of both fields. *)
Theorem doRefresh_success_stores (w w' : World) :
  doRefresh env w = (Return true, w') ->
  has_window env = true
  /\ exists r res data access refresh stored_access stored_refresh,
       localStorage w !! js "refresh_token" = Some r
       /\ network env (refresh_request r :: fetch_log w) = Some res
       /\ ok res = true
       /\ json_body res = Some data
       /\ Get data (js "access_token") = Return access
       /\ Get data (js "refresh_token") = Return refresh
       /\ toString env access = Return stored_access
       /\ toString env refresh = Return stored_refresh
       /\ fetch_log w' = refresh_request r :: fetch_log w
       /\ accessToken w' = access
       /\ localStorage w'
          = <[ js "refresh_token" := stored_refresh ]>
              (<[ js "access_token" := stored_access ]> (localStorage w))
       /\ location_href w' = location_href w.
Proof.
  rewrite doRefresh_run.
  destruct (has_window env) eqn:Hw; [|discriminate].
  destruct (localStorage w !! js "refresh_token") as [r|]; [|discriminate].
  destruct (truthy_string r); [|discriminate].
  destruct (network env _) as [res|] eqn:Hnet; [|discriminate].
  destruct (ok res) eqn:Hok; [|discriminate].
  destruct (json_body res) as [data|] eqn:Hbody; [|discriminate].
  destruct (Get data (js "access_token")) as [access|] eqn:Ha; [|discriminate].
  rewrite setAccessToken_run, Hw.
  destruct (toString env access) as [sa|] eqn:Hsa; [|discriminate].
  destruct (storage_accepts env _ _ sa); [|discriminate].
  destruct (Get data (js "refresh_token")) as [refresh|] eqn:Hr; [|discriminate].
  rewrite setRefreshToken_run, Hw.
  destruct (toString env refresh) as [sr|] eqn:Hsr; [|discriminate].
  destruct (storage_accepts env _ _ sr); [|discriminate].
  intros [= <-]. split; [reflexivity|].
  exists r, res, data, access, refresh, sa, sr.
  world_simpl. repeat (split; [reflexivity || assumption|]). reflexivity.
Qed.

(** X7.  A missing key: when the body of an ok refresh response is an object
    without the two token fields, the refresh still succeeds in a
    browser that accepts the writes, the module variable holds
    [undefined] and local storage the text "undefined" for both tokens. *)
Theorem doRefresh_missing_fields (w : World) (r : jsstring) (res : Response)
    (props : Datatypes.list (jsstring * value)%type) :
  has_window env = true ->
  (forall store key text, storage_accepts env store key text = true) ->
  localStorage w !! js "refresh_token" = Some r ->
  truthy_string r = true ->
  network env (refresh_request r :: fetch_log w) = Some res ->
  ok res = true ->
  json_body res = Some (VObj props) ->
  own_property props (js "access_token") = None ->
  own_property props (js "refresh_token") = None ->
  exists w',
    doRefresh env w = (Return true, w')
    /\ accessToken w' = VUndefined
    /\ localStorage w' !! js "access_token" = Some (js "undefined")
    /\ localStorage w' !! js "refresh_token" = Some (js "undefined").
Proof.
  intros Hw Hacc Hr Ht Hnet Hok Hbody Ha Hf.
  rewrite doRefresh_run, Hw, Hr, Ht, Hnet, Hok, Hbody.
  unfold Get. rewrite Ha, Hf.
  rewrite setAccessToken_run, Hw. unfold toString. cbn [ToString]. rewrite Hacc.
  rewrite setRefreshToken_run, Hw. unfold toString. cbn [ToString]. rewrite Hacc.
  eexists. split; [reflexivity|].
  world_simpl. split; [reflexivity|]. split.
  - rewrite lookup_insert_ne by (intros H; vm_compute in H; discriminate).
    apply lookup_insert_eq.
  - apply lookup_insert_eq.
Qed.

(** ** The fetch wrapper *)

Local Abbreviation first_request path options h :=
  {| url := API_BASE env ++ path; init := with_headers options h |}.

Local Abbreviation retry_request path options h authorization :=
  {| url := API_BASE env ++ path;
     init := with_headers options (<[ js "Authorization" := authorization ]> h) |}.

Local Abbreviation session_expired :=
  (Throw (ApiError 401 (js "Session expired") VUndefined)).

(** The world after the session has been ended in world [w]. *)
Local Abbreviation ended w :=
  ((if has_window env then set_location_href (js "/login") else fun w' => w')
     (snd (clearTokens env w))).

(** The ways a call of [apiFetch] can go, once its headers are made: one
    request; a 401, a failed refresh and the end of the session; a 401,
    a refresh and the request made again, unless the new token does not
    convert to a string. *)
Lemma apiFetch_cases (path : jsstring) (options : RequestInit) (w : World) :
  exists token w1,
    getAccessToken env w = (Return token, w1)
    /\ localStorage w1 = localStorage w
    /\ location_href w1 = location_href w
    /\ fetch_log w1 = fetch_log w
    /\ refreshPromise w1 = refreshPromise w
    /\ match with_token env token (base_headers options) with
       | Throw e =>
           apiFetch env path options w = (Throw e, w1)
           /\ exists text, e = TypeError text
       | Return h =>
           let sent := log_fetch (first_request path options h) w1 in
           let unauthorized :=
             truthy token = true
             /\ exists res,
                  network env (first_request path options h :: fetch_log w) = Some res
                  /\ status res = 401%N in
           (snd (apiFetch env path options w) = sent
            /\ fst (apiFetch env path options w) <> session_expired)
           \/ (unauthorized
               /\ exists w2,
                    tryRefresh env sent = (Return false, w2)
                    /\ apiFetch env path options w = (session_expired, ended w2))
           \/ (unauthorized
               /\ exists w2 token' w3,
                    tryRefresh env sent = (Return true, w2)
                    /\ getAccessToken env w2 = (Return token', w3)
                    /\ localStorage w3 = localStorage w2
                    /\ location_href w3 = location_href w2
                    /\ fetch_log w3 = fetch_log w2
                    /\ fst (apiFetch env path options w) <> session_expired
                    /\ match bearer env token' with
                       | Throw e => snd (apiFetch env path options w) = w3
                       | Return authorization =>
                           snd (apiFetch env path options w)
                           = log_fetch (retry_request path options h authorization) w3
                       end)
       end.
Proof.
  destruct (getAccessToken_run env w)
    as (token & w1 & Htok & _ & Hls & Hloc & Hlog & Hrp).
  exists token, w1. do 5 (split; [assumption|]).
  rewrite (apiFetch_run env path options w token w1 Htok).
  destruct (with_token env token (base_headers options)) as [h|e] eqn:Hh.
  - cbv zeta.
    destruct (network env (first_request path options h :: fetch_log w1))
      as [res|] eqn:Hnet.
    + destruct ((status res =? 401)%N && truthy token) eqn:Hcond.
      * assert (Hun : truthy token = true
                      /\ exists res,
                           network env (first_request path options h :: fetch_log w)
                           = Some res
                           /\ status res = 401%N).
        { apply andb_true_iff in Hcond as [Hs Ht]. apply N.eqb_eq in Hs.
          split; [assumption|]. exists res. rewrite <- Hlog. auto. }
        destruct (tryRefresh_returns env
                    (log_fetch (first_request path options h) w1))
          as (refreshed & w2 & Href).
        rewrite Href. destruct refreshed.
        -- right; right. split; [assumption|].
           destruct (getAccessToken_run env w2)
             as (token' & w3 & Htok' & _ & Hls' & Hloc' & Hlog' & _).
           exists w2, token', w3. rewrite Htok'. do 5 (split; [assumption || reflexivity|]).
           destruct (bearer env token') as [authorization|e] eqn:Hb.
           ++ match goal with
              | |- context [network env ?l] => destruct (network env l) as [res2|]
              end.
              ** destruct (outcome_run env res2 (js "Request failed")
                             (log_fetch (retry_request path options h authorization) w3))
                   as (Hsnd & Hne & _).
                 split; assumption.
              ** split; [cbn [fst]; discriminate|reflexivity].
           ++ split; [|reflexivity]. cbn [fst].
              unfold bearer in Hb.
              destruct (toString env token') eqn:Hs; [discriminate|].
              cbn [and_then] in Hb. injection Hb as <-.
              destruct (ToString_throws _ _ _ Hs) as [text ->]. discriminate.
        -- right; left. split; [assumption|]. exists w2. split; reflexivity.
      * left.
        destruct (outcome_run env res (js "HTTP " ++ decimal (status res))
                    (log_fetch (first_request path options h) w1))
          as (Hsnd & Hne & _).
        split; assumption.
    + left. split; [reflexivity|]. cbn [fst]. discriminate.
  - split; [reflexivity|].
    unfold with_token, bearer in Hh.
    destruct (truthy token); [|discriminate].
    destruct (toString env token) eqn:Hs; [discriminate|].
    cbn [and_then] in Hh. injection Hh as <-.
    exact (ToString_throws _ _ _ Hs).
Qed.


(** The world after the session has been ended holds no token. *)
Lemma ended_world (w2 : World) :
  accessToken (ended w2) = VNull
  /\ fst (getAccessToken env (ended w2)) = Return VNull
  /\ (has_window env = true ->
      localStorage (ended w2) !! js "access_token" = None
      /\ localStorage (ended w2) !! js "refresh_token" = None
      /\ location_href (ended w2) = Some (js "/login")).
Proof.
  rewrite clearTokens_run. cbn [snd].
  assert (Hne : js "refresh_token" <> js "access_token")
    by (intros H; vm_compute in H; discriminate).
  unfold getAccessToken, getItem, bind, gets, modify, ret.
  destruct (has_window env) eqn:Hw; world_simpl.
  - rewrite lookup_delete_ne, !lookup_delete_eq by assumption. auto.
  - split; [reflexivity|]. split; [reflexivity|discriminate].
Qed.

(** X9.  When [apiFetch] throws the error of an ended session, the session
    is ended indeed: the module variable is [null], so is the next read of
    the access token, and in a browser both tokens are gone from local
    storage and the page is sent to the login page. *)
Theorem apiFetch_session_expired (path : jsstring) (options : RequestInit) (w : World) :
  fst (apiFetch env path options w) = session_expired ->
  let after := snd (apiFetch env path options w) in
  accessToken after = VNull
  /\ fst (getAccessToken env after) = Return VNull
  /\ (has_window env = true ->
      localStorage after !! js "access_token" = None
      /\ localStorage after !! js "refresh_token" = None
      /\ location_href after = Some (js "/login")).
Proof.
  intros Hexp. cbv zeta.
  destruct (apiFetch_cases path options w)
    as (token & w1 & _ & _ & _ & _ & _ & Hcases).
  destruct (with_token env token (base_headers options)) as [h|e].
  - cbv zeta in Hcases.
    destruct Hcases as [[_ Hne] | [(_ & w2 & _ & Hrun)
                       | (_ & w2 & token' & w3 & _ & _ & _ & _ & _ & Hne & _)]];
      [contradiction| |contradiction].
    rewrite Hrun. cbn [snd]. apply ended_world.
  - destruct Hcases as [Hrun [text ->]]. rewrite Hrun in Hexp. discriminate.
Qed.

(** X10.  [apiFetch] sends the page nowhere but to the login page, and only
    when it ends the session; unless a 401 set off a refresh, local storage
    is left as it was. *)
Theorem apiFetch_redirects_only_on_expiry (path : jsstring) (options : RequestInit)
    (w : World) :
  let after := snd (apiFetch env path options w) in
  (location_href after = location_href w
   \/ (location_href after = Some (js "/login")
       /\ fst (apiFetch env path options w) = session_expired))
  /\ (localStorage after = localStorage w
      \/ exists token h res,
           fst (getAccessToken env w) = Return token
           /\ truthy token = true
           /\ with_token env token (base_headers options) = Return h
           /\ network env (first_request path options h :: fetch_log w) = Some res
           /\ status res = 401%N).
Proof.
  cbv zeta.
  destruct (apiFetch_cases path options w)
    as (token & w1 & Htok & Hls & Hloc & Hlog & Hrp & Hcases).
  destruct (with_token env token (base_headers options)) as [h|e] eqn:Hh.
  - cbv zeta in Hcases.
    assert (Hworld : forall refreshed w0 w2,
              tryRefresh env w0 = (Return refreshed, w2) ->
              location_href w2 = location_href w0).
    { intros refreshed w0 w2. rewrite tryRefresh_run.
      destruct (refreshPromise w0) as [p|]; intros Href.
      - apply (join_world env _ _ _ _ Href).
      - apply (doRefresh_world env _ _ _ Href). }
    destruct Hcases as [[Hw _] | [((Ht & res & Hnet & Hs) & w2 & Href & Hrun)
                       | ((Ht & res & Hnet & Hs) & w2 & token' & w3 & Href & _ & _
                          & Hloc' & _ & _ & Hw)]].
    + rewrite Hw. world_simpl. auto.
    + split; [|right; exists token, h, res; rewrite Htok; auto].
      apply Hworld in Href. rewrite Hrun, clearTokens_run. cbn [fst snd].
      destruct (has_window env); world_simpl; [right; auto|left].
      rewrite Href. assumption.
    + split; [left|right; exists token, h, res; rewrite Htok; auto].
      apply Hworld in Href.
      destruct (bearer env token'); rewrite Hw; world_simpl;
        rewrite Hloc', Href; assumption.
  - destruct Hcases as [-> _]. cbn [snd]. auto.
Qed.

(** X11.  The headers object of the request [apiFetch] makes first, for a
    caller whose headers are a plain object, keys being compared as the
    keys of an object are, letter by letter.  When the token is truthy
    and does not convert to a string there is no request: the call
    throws.  Otherwise the request goes to the base address followed by
    the path, with the method and the body of the caller.  Under the key
    [Content-Type] its headers hold the caller's entry of that key when
    there is one and [application/json] otherwise; under the key
    [Authorization] they hold the bearer token whenever the token is
    truthy, whatever the caller gave; under every other key they hold
    what the caller's hold.  For a caller that gives no headers, as
    those of this module do, they hold nothing else. *)
Theorem apiFetch_first_request_headers (path : jsstring) (options : RequestInit)
    (w : World) :
  exists token w1,
    getAccessToken env w = (Return token, w1)
    /\ match with_token env token (base_headers options) with
       | Throw e =>
           apiFetch env path options w = (Throw e, w1)
           /\ fetch_log w1 = fetch_log w
           /\ truthy token = true
           /\ toString env token = Throw e
       | Return h =>
           exists later req,
             fetch_log (snd (apiFetch env path options w)) = later ++ req :: fetch_log w
             /\ url req = API_BASE env ++ path
             /\ method (init req) = method options
             /\ body (init req) = body options
             /\ headers (init req) = h
             /\ h !! js "Content-Type"
                = Some (default (js "application/json")
                          (headers options !! js "Content-Type"))
             /\ h !! js "Authorization"
                = (if truthy token
                   then match toString env token with
                        | Return text => Some (js "Bearer " ++ text)
                        | Throw _ => None
                        end
                   else headers options !! js "Authorization")
             /\ (truthy token = true -> exists text, toString env token = Return text)
             /\ (forall name,
                   name <> js "Content-Type" -> name <> js "Authorization" ->
                   h !! name = headers options !! name)
             /\ (headers options = ∅ ->
                 h = if truthy token
                     then match toString env token with
                          | Return text =>
                              {[ js "Authorization" := js "Bearer " ++ text;
                                 js "Content-Type" := js "application/json" ]}
                          | Throw _ => ∅
                          end
                     else {[ js "Content-Type" := js "application/json" ]})
       end.
Proof.
  destruct (getAccessToken_run env w)
    as (token & w1 & Htok & _ & _ & _ & Hlog & _).
  exists token, w1. split; [exact Htok|].
  destruct (with_token env token (base_headers options)) as [h|e] eqn:Hh.
  - destruct (apiFetch_log env path options w token w1 h Htok Hlog Hh) as [later Hl].
    exists later, (first_request path options h).
    do 5 (split; [reflexivity || assumption|]).
    assert (Hne : js "Authorization" <> js "Content-Type")
      by (intros H; vm_compute in H; discriminate).
    unfold with_token, bearer, base_headers in Hh.
    destruct (truthy token).
    + destruct (toString env token) as [text|]; [|discriminate].
      cbn [and_then] in Hh. injection Hh as <-.
      split; [|split; [|split; [|split]]].
      * rewrite lookup_insert_ne by assumption.
        rewrite lookup_union; destruct (headers options !! js "Content-Type") eqn:Hc;
          rewrite ?lookup_singleton_eq; reflexivity.
      * apply lookup_insert_eq.
      * eauto.
      * intros name Hct Hau. rewrite lookup_insert_ne by congruence.
        rewrite lookup_union, lookup_singleton_ne by congruence.
        destruct (headers options !! name); reflexivity.
      * intros ->. rewrite (left_id_L ∅ (∪)). reflexivity.
    + injection Hh as <-.
      split; [|split; [|split; [|split]]].
      * rewrite lookup_union; destruct (headers options !! js "Content-Type") eqn:Hc;
          rewrite ?lookup_singleton_eq; reflexivity.
      * rewrite lookup_union, lookup_singleton_ne by congruence.
        destruct (headers options !! js "Authorization"); reflexivity.
      * discriminate.
      * intros name Hct Hau.
        rewrite lookup_union, lookup_singleton_ne by congruence.
        destruct (headers options !! name); reflexivity.
      * intros ->. apply (left_id_L ∅ (∪)).
  - rewrite (apiFetch_run env path options w token w1 Htok), Hh.
    do 2 (split; [reflexivity || assumption|]).
    unfold with_token, bearer in Hh.
    destruct (truthy token); [|discriminate].
    split; [reflexivity|].
    destruct (toString env token); [discriminate|].
    cbn [and_then] in Hh. congruence.
Qed.

(** ** Signing out *)

(** The refresh token as [getRefreshToken] reads it. *)
Local Abbreviation stored_refresh_token w :=
  (match (if has_window env then localStorage w !! js "refresh_token" else None) with
   | Some r => VStr r
   | None => VNull
   end).

(** [logout] is the request, then [clearTokens]. *)
Lemma logout_run (w : World) :
  logout env w
  = (fst (apiFetch env (js "/auth/logout")
            (post env [(js "refresh_token", stored_refresh_token w)]) w),
     snd (clearTokens env
            (snd (apiFetch env (js "/auth/logout")
                    (post env [(js "refresh_token", stored_refresh_token w)]) w)))).
Proof.
  unfold logout. unfold bind at 1. rewrite getRefreshToken_run. unfold finally.
  destruct (apiFetch env _ _ w) as [r w1]. cbn [fst snd].
  rewrite clearTokens_run. reflexivity.
Qed.

(** After [clearTokens] no token is left. *)
Lemma cleared (w : World) :
  let after := snd (clearTokens env w) in
  accessToken after = VNull
  /\ fst (getAccessToken env after) = Return VNull
  /\ (has_window env = true ->
      localStorage after !! js "access_token" = None
      /\ localStorage after !! js "refresh_token" = None).
Proof.
  cbv zeta. rewrite clearTokens_run.
  assert (Hne : js "refresh_token" <> js "access_token")
    by (intros H; vm_compute in H; discriminate).
  unfold getAccessToken, getItem, bind, gets, modify, ret.
  destruct (has_window env) eqn:Hw; world_simpl.
  - rewrite lookup_delete_ne, !lookup_delete_eq by assumption. auto.
  - split; [reflexivity|]. split; [reflexivity|discriminate].
Qed.

(** X12.  Signing out forgets the tokens whatever the network does: when the
    request fails, is answered by an error, or a refresh stored new tokens
    on the way, the module variable and local storage hold no token
    afterwards. The request carries the stored refresh token, and the
    outcome of [logout] is the outcome of the request. *)
Theorem logout_clears_tokens (w : World) :
  let request := apiFetch env (js "/auth/logout")
                   (post env [(js "refresh_token", stored_refresh_token w)]) in
  let after := snd (logout env w) in
  fst (logout env w) = fst (request w)
  /\ accessToken after = VNull
  /\ fst (getAccessToken env after) = Return VNull
  /\ (has_window env = true ->
      localStorage after !! js "access_token" = None
      /\ localStorage after !! js "refresh_token" = None)
  /\ fetch_log after = fetch_log (snd (request w)).
Proof.
  cbv zeta. rewrite logout_run. cbn [fst snd]. split; [reflexivity|].
  match goal with |- context [clearTokens env ?w1] =>
    destruct (cleared w1) as (Ha & Hg & Hs)
  end.
  do 3 (split; [assumption|]).
  rewrite clearTokens_run. destruct (has_window env); reflexivity.
Qed.

End WithEnv.

Import Samples.

Lemma setAccessToken_read_back_witness :
  fst (getAccessToken env_offline
         (snd (setAccessToken env_offline (VStr (js "t9")) world_signed_in)))
  = Return (VStr (js "t9")).
Proof.
  destruct (setAccessToken_read_back env_offline (VStr (js "t9")) world_signed_in
              eq_refl) as [H _].
  cbv zeta in H. rewrite H. reflexivity.
Defined.

(** A token that does not convert: the write throws, and the token is in
    the module variable all the same. *)
Example setAccessToken_unconvertible :
  exists text,
    fst (setAccessToken env_offline unconvertible world_signed_out)
    = Throw (TypeError text)
    /\ accessToken (snd (setAccessToken env_offline unconvertible world_signed_out))
       = unconvertible
    /\ localStorage (snd (setAccessToken env_offline unconvertible world_signed_out))
       = localStorage world_signed_out.
Proof. eexists. vm_compute. repeat split. Qed.

Lemma access_token_survives_reload_witness :
  fst (getAccessToken env_offline
         (reload (snd (setAccessToken env_offline (VStr (js "t9")) world_signed_out))))
  = Return (VStr (js "t9")).
Proof.
  exact (proj1 (access_token_survives_reload env_offline (js "t9") world_signed_out
                  eq_refl eq_refl eq_refl)).
Defined.

Lemma doRefresh_without_token_witness :
  doRefresh env_offline world_signed_out = (Return false, world_signed_out).
Proof.
  apply doRefresh_without_token. right; left. reflexivity.
Defined.

(** The network is down: the refresh request is made and fails. *)
Lemma doRefresh_failure_keeps_tokens_witness :
  location_href (snd (doRefresh env_offline world_signed_in))
  = location_href world_signed_in.
Proof.
  apply (doRefresh_failure_keeps_tokens env_offline world_signed_in
           (snd (doRefresh env_offline world_signed_in))).
  vm_compute. reflexivity.
Defined.

(** The browser refuses the writes: the refresh is answered by new
    tokens and fails all the same, and the module variable holds the
    new access token. *)
Example doRefresh_full_storage :
  let run := doRefresh env_full_storage world_signed_in in
  fst run = Return false
  /\ accessToken (snd run) = VStr (js "t2")
  /\ localStorage (snd run) = localStorage world_signed_in.
Proof. vm_compute. repeat split. Qed.

(** The refresh is answered by an access token that does not convert:
    it fails, and the module variable holds that token. *)
Example doRefresh_unconvertible :
  let run := doRefresh (env_answering response_odd_tokens) world_signed_in in
  fst run = Return false
  /\ accessToken world_signed_in = VNull
  /\ accessToken (snd run) = unconvertible
  /\ localStorage (snd run) = localStorage world_signed_in.
Proof. vm_compute. repeat split. Qed.

Lemma doRefresh_success_stores_witness :
  accessToken (snd (doRefresh (env_answering response_tokens) world_signed_in))
  = VStr (js "t2").
Proof.
  destruct (doRefresh_success_stores (env_answering response_tokens) world_signed_in
              (snd (doRefresh (env_answering response_tokens) world_signed_in)))
    as (_ & r & res & data & access & refresh & sa & sr & _ & Hnet & _ & Hbody & Ha
        & _ & _ & _ & _ & Hacc & _).
  - vm_compute. reflexivity.
  - rewrite Hacc. injection Hnet as <-. injection Hbody as <-.
    injection Ha as <-. reflexivity.
Defined.

Lemma doRefresh_missing_fields_witness :
  exists w',
    doRefresh (env_answering response_empty) world_signed_in = (Return true, w')
    /\ localStorage w' !! js "access_token" = Some (js "undefined").
Proof.
  destruct (doRefresh_missing_fields (env_answering response_empty) world_signed_in
              (js "r1") response_empty [])
    as (w' & Hrun & _ & Ha & _); try reflexivity.
  exists w'. split; assumption.
Defined.

(** Every request is answered 401, the refresh as well. *)
Lemma apiFetch_session_expired_witness :
  location_href (snd (apiFetch (env_answering response_401) (js "/agents") no_options
                        world_signed_in))
  = Some (js "/login").
Proof.
  destruct (apiFetch_session_expired (env_answering response_401) (js "/agents")
              no_options world_signed_in) as (_ & _ & H).
  - vm_compute. reflexivity.
  - apply H. reflexivity.
Defined.

(** A call that finds a refresh under way: the refresh request is the
    other call's, and this call makes its request twice. *)
Example apiFetch_joins_refresh :
  let run := apiFetch env_expired_token (js "/agents") no_options world_joining in
  List.map (fun r => (url r, method (init r))) (fetch_log (snd run))
  = [(js "/api/v1/agents", None);
     (js "/api/v1/auth/refresh", Some (js "POST"));
     (js "/api/v1/agents", None)]
  /\ pending_requests pending_refresh
     = [{| url := js "/api/v1/auth/refresh";
           init := {| method := Some (js "POST");
                      headers := {[ js "Content-Type" := js "application/json" ]};
                      body := Some (js "{}") |} |}]
  /\ refreshPromise world_joining = Some pending_refresh
  /\ refreshPromise (snd run) = None
  /\ accessToken (snd run) = VStr (js "t2").
Proof. vm_compute. repeat split. Qed.

End SessionFacts.

(* ===================================================================== *)
(** * The login page                                                    *)
(* ===================================================================== *)

Module LoginPageFacts.
Import JS Page LoginPage.

Ltac run_page :=
  unfold Page.bind, Page.get, Page.set, Page.run, Page.field, Page.try_catch,
    Page.try_finally, Page.ret;
  cbn beta iota zeta.

Section Component.

Variable env : Api.Env.

(** The message the page shows for an exception. *)
Local Abbreviation shown e :=
  (match e with ApiError _ message _ => message | _ => LOGIN_FAILED end).

(** X13.  A submission never throws, ends the loading state and keeps what
    was typed.  It goes one of three ways.  The login returned a body
    that is not [null] and both of its tokens were stored: the page goes
    to the dashboard without an error.  Or the login threw, or returned
    [null]: the page stays, the handler stores nothing, and the error is
    the message of the ApiError, or the fixed text for any other
    exception.  Or, in a browser, storing a token of the body threw,
    because the token does not convert to a string or because the
    browser refuses the write: the page stays and shows the fixed
    text, although the module variable already holds the access token
    of the body. *)
Theorem handleSubmit_outcome (st : State) (w : Api.World) :
  let signed_in := AuthApi.login env (email st) (password st) w in
  exists st' w',
    handleSubmit env st w = (Return tt, st', w')
    /\ loading st' = false
    /\ email st' = email st
    /\ password st' = password st
    /\ ((replaced st' = Some (js "/dashboard")
         /\ error st' = []
         /\ exists res access refresh w2,
              fst signed_in = Return res
              /\ Get res (js "access_token") = Return access
              /\ Get res (js "refresh_token") = Return refresh
              /\ Api.setAccessToken env access (snd signed_in) = (Return tt, w2)
              /\ Api.setRefreshToken env refresh w2 = (Return tt, w'))
        \/ (replaced st' = replaced st
            /\ w' = snd signed_in
            /\ exists e,
                 (fst signed_in = Throw e
                  \/ exists res, fst signed_in = Return res
                                 /\ Get res (js "access_token") = Throw e)
                 /\ error st' = shown e)
        \/ (replaced st' = replaced st
            /\ error st' = LOGIN_FAILED
            /\ Api.has_window env = true
            /\ exists res access e,
                 fst signed_in = Return res
                 /\ Get res (js "access_token") = Return access
                 /\ Api.accessToken w' = access
                 /\ ((exists text, e = TypeError text) \/ e = Api.quota_exceeded env)
                 /\ (Api.setAccessToken env access (snd signed_in) = (Throw e, w')
                     \/ exists refresh w2,
                          Api.setAccessToken env access (snd signed_in)
                          = (Return tt, w2)
                          /\ Get res (js "refresh_token") = Return refresh
                          /\ Api.setRefreshToken env refresh w2 = (Throw e, w')))).
Proof.
  cbv zeta. unfold handleSubmit. run_page.
  destruct (AuthApi.login env (email st) (password st) w) as [[res|e] w1].
  - destruct (Get res (js "access_token")) as [access|e] eqn:Ha.
    + destruct (Get res (js "refresh_token")) as [refresh|e] eqn:Hr;
        [|destruct res; cbn [Get] in Ha, Hr; discriminate].
      pose proof (ApiFacts.setAccessToken_world env access w1) as (Hacc & _).
      destruct (Api.setAccessToken env access w1) as [[[]|e1] w2] eqn:E1.
      * pose proof (ApiFacts.setRefreshToken_world env refresh w2) as (Hacc' & _).
        destruct (Api.setRefreshToken env refresh w2) as [[[]|e2] w3] eqn:E2.
        -- eexists _, _. split; [reflexivity|]. do 3 (split; [reflexivity|]).
           left. split; [reflexivity|]. split; [reflexivity|].
           exists res, access, refresh, w2. cbn [fst snd]. auto.
        -- destruct (ApiFacts.setRefreshToken_throws env _ _ _ _ E2) as (Hw & _ & He).
           pose proof He as Hkind. cbn [fst snd] in *.
           destruct Hkind as [[text ->] | ->];
             (eexists _, _; split; [reflexivity|]; do 3 (split; [reflexivity|]);
              right; right; split; [reflexivity|]; split; [reflexivity|];
              split; [exact Hw|];
              eexists res, access, _;
              split; [reflexivity|]; split; [assumption|];
              split; [congruence|]; split; [exact He|];
              right; exists refresh, w2; auto).
      * destruct (ApiFacts.setAccessToken_throws env _ _ _ _ E1) as (Hw & _ & He).
        pose proof He as Hkind. cbn [fst snd] in *.
        destruct Hkind as [[text ->] | ->];
          (eexists _, _; split; [reflexivity|]; do 3 (split; [reflexivity|]);
           right; right; split; [reflexivity|]; split; [reflexivity|];
           split; [exact Hw|];
           eexists res, access, _;
           split; [reflexivity|]; split; [assumption|];
           split; [assumption|]; split; [exact He|]; left; exact E1).
    + destruct e; (eexists _, _; split; [reflexivity|]; do 3 (split; [reflexivity|]);
        right; left; split; [reflexivity|]; split; [reflexivity|];
        eexists; split; [right; eexists; split; [reflexivity|eassumption]|reflexivity]).
  - destruct e; (eexists _, _; split; [reflexivity|]; do 3 (split; [reflexivity|]);
        right; left; split; [reflexivity|]; split; [reflexivity|];
        eexists; split; [left; reflexivity|reflexivity]).
Qed.

(** X14.  A stale session hides the answer to the login: when an access
    token is still stored, the login is answered 401 and the refresh fails,
    the page shows "Session expired" instead of what the back end said about
    the credentials, and stays where it is. *)
Theorem login_with_stale_session (st : State) (w w1 w2 : Api.World)
    (token : value) (h : gmap jsstring jsstring) (res : Api.Response) :
  let options := AuthApi.post env [(js "email", VStr (email st));
                                   (js "password", VStr (password st))] in
  let request :=
    {| Api.url := Api.API_BASE env ++ js "/auth/login";
       Api.init := Api.with_headers options h |} in
  Api.getAccessToken env w = (Return token, w1) ->
  truthy token = true ->
  Api.with_token env token (Api.base_headers options) = Return h ->
  Api.network env (request :: Api.fetch_log w1) = Some res ->
  Api.status res = 401%N ->
  Api.tryRefresh env (Api.log_fetch request w1) = (Return false, w2) ->
  exists st' w',
    handleSubmit env st w = (Return tt, st', w')
    /\ error st' = js "Session expired"
    /\ replaced st' = replaced st
    /\ loading st' = false.
Proof.
  cbv zeta. intros Htok Ht Hh Hnet Hs Href.
  assert (Hlogin : fst (AuthApi.login env (email st) (password st) w)
                   = Throw (ApiError 401 (js "Session expired") VUndefined)).
  { unfold AuthApi.login.
    rewrite (ApiFacts.apiFetch_run env _ _ w token w1 Htok), Hh. cbv zeta.
    rewrite Hnet, Hs, Ht. cbn [N.eqb Pos.eqb andb]. rewrite Href. reflexivity. }
  unfold handleSubmit. run_page.
  destruct (AuthApi.login env (email st) (password st) w) as [r w']. cbn [fst] in Hlogin.
  subst r. eexists _, _. split; [reflexivity|]. cbn. auto.
Qed.

End Component.

Import Samples.

(** Every request is answered 401, the refresh as well, and a token is
    stored. *)
Lemma login_with_stale_session_witness :
  exists st' w',
    handleSubmit (env_answering response_401) login_form world_signed_in
    = (Return tt, st', w')
    /\ error st' = js "Session expired".
Proof.
  destruct (login_with_stale_session (env_answering response_401) login_form
              world_signed_in
              (Api.set_accessToken (VStr (js "t1")) world_signed_in)
              (snd (Api.tryRefresh (env_answering response_401)
                      (Api.log_fetch
                         {| Api.url := js "/api/v1/auth/login";
                            Api.init :=
                              Api.with_headers
                                (AuthApi.post (env_answering response_401)
                                   [(js "email", VStr (js "you@example.com"));
                                    (js "password", VStr (js "secret"))])
                                {[ js "Authorization" := js "Bearer t1";
                                   js "Content-Type" := js "application/json" ]} |}
                         (Api.set_accessToken (VStr (js "t1")) world_signed_in))))
              (VStr (js "t1"))
              {[ js "Authorization" := js "Bearer t1";
                 js "Content-Type" := js "application/json" ]}
              response_401)
    as (st' & w' & Hrun & Herr & _);
    try (vm_compute; reflexivity).
  exists st', w'. split; assumption.
Defined.

(** The browser refuses the writes: the login is answered by tokens,
    and the page stays and shows the fixed text. *)
Example handleSubmit_full_storage :
  let run := handleSubmit env_full_storage login_form world_signed_out in
  fst (fst run) = Return tt
  /\ error (snd (fst run)) = LOGIN_FAILED
  /\ replaced (snd (fst run)) = None
  /\ Api.accessToken (snd run) = VStr (js "t2").
Proof. vm_compute. repeat split. Qed.

(** The login is answered by tokens of which the first does not convert:
    the page stays and shows the fixed text, and the module variable
    holds the token. *)
Example handleSubmit_unconvertible :
  let run := handleSubmit (env_answering response_odd_tokens) login_form
               world_signed_out in
  fst (fst run) = Return tt
  /\ error (snd (fst run)) = LOGIN_FAILED
  /\ replaced (snd (fst run)) = None
  /\ Api.accessToken (snd run) = unconvertible.
Proof. vm_compute. repeat split. Qed.

End LoginPageFacts.

(* ===================================================================== *)
(** * The dashboard layout                                              *)
(* ===================================================================== *)

Module LayoutFacts.
Import JS Page Layout.

Ltac run_page :=
  unfold Page.bind, Page.get, Page.set, Page.run, Page.field, Page.try_catch,
    Page.try_finally, Page.ret;
  cbn beta iota zeta.

Section Component.

Variable env : Api.Env.


(** X15.  Without a token the layout leaves for the login page at once: no
    request is made and nothing else changes, the loading flag included. *)
Theorem mount_without_token (st : State) (w : Api.World) :
  truthy (Api.accessToken (snd (Api.getAccessToken env w))) = false ->
  mount env st w
  = (Return tt, router_replace (js "/login") st, snd (Api.getAccessToken env w))
  /\ Api.fetch_log (snd (Api.getAccessToken env w)) = Api.fetch_log w
  /\ Api.localStorage (snd (Api.getAccessToken env w)) = Api.localStorage w.
Proof.
  intros Hfalsy.
  destruct (ApiFacts.getAccessToken_run env w) as (token & w1 & Htok & Hacc & Hls & _ & Hlog & _).
  rewrite Htok in *. cbn [snd] in *. rewrite Hacc in Hfalsy.
  split; [|auto].
  unfold mount. run_page. rewrite Htok, Hfalsy. reflexivity.
Qed.


(** X17.  Signing out never throws and always ends at the login page with no
    token left, whether the request of [logout] succeeded or not. *)
Theorem handleLogout_ends_session (st : State) (w : Api.World) :
  exists w',
    handleLogout env st w = (Return tt, router_replace (js "/login") st, w')
    /\ Api.accessToken w' = VNull
    /\ fst (Api.getAccessToken env w') = Return VNull
    /\ (Api.has_window env = true ->
        Api.localStorage w' !! js "access_token" = None
        /\ Api.localStorage w' !! js "refresh_token" = None).
Proof.
  unfold handleLogout. run_page. rewrite SessionFacts.logout_run.
  match goal with |- context [Api.apiFetch env ?p ?o w] =>
    destruct (Api.apiFetch env p o w) as [[res|e] w1]
  end; cbn [fst snd].
  - eexists. split; [reflexivity|]. apply (SessionFacts.cleared env w1).
  - destruct (Api.clearTokens env (snd (Api.clearTokens env w1))) as [r w3] eqn:Hc.
    pose proof (ApiFacts.clearTokens_run env (snd (Api.clearTokens env w1))) as Hrun.
    rewrite Hc in Hrun. injection Hrun as -> ->.
    eexists. split; [reflexivity|].
    pose proof (SessionFacts.cleared env (snd (Api.clearTokens env w1))) as H.
    cbv zeta in H. rewrite Hc in H. exact H.
Qed.

(** Choosing the account that is already current does nothing: no
    request, no change. *)
Theorem handleSwitchAccount_same_account (accountId : jsstring) (st : State)
    (w : Api.World) :
  currentAccountId st = VStr accountId ->
  handleSwitchAccount env accountId st w = (Return tt, st, w).
Proof.
  intros Hcur. unfold handleSwitchAccount. run_page. rewrite Hcur.
  unfold same_account. rewrite bool_decide_eq_true_2 by reflexivity. reflexivity.
Qed.

(** X18.  Switching the account never throws.  Either the page is left
    exactly as it was; or the switch was answered, its access token was
    stored, the request of [me] made after that was answered, and the
    page shows the user and the current account of that one answer and
    is refreshed once.  There is nothing in between: no page with the
    user of the answer and the previous account. *)
Theorem handleSwitchAccount_outcome (accountId : jsstring) (st : State) (w : Api.World) :
  exists st' w',
    handleSwitchAccount env accountId st w = (Return tt, st', w')
    /\ (st' = st
        \/ exists res w1 access w2 meRes u current,
             same_account accountId (currentAccountId st) = false
             /\ AuthApi.switchAccount env accountId w = (Return res, w1)
             /\ Get res (js "access_token") = Return access
             /\ Api.setAccessToken env access w1 = (Return tt, w2)
             /\ AuthApi.me env w2 = (Return meRes, w')
             /\ Get meRes (js "user") = Return u
             /\ Get meRes (js "current_account_id") = Return current
             /\ st' = router_refresh (setCurrentAccountId current (setUser u st))).
Proof.
  unfold handleSwitchAccount. run_page.
  destruct (same_account accountId (currentAccountId st)) eqn:Hsame; [eexists _, _; split; [reflexivity|]; left; reflexivity|].
  destruct (AuthApi.switchAccount env accountId w) as [[res|e] w1] eqn:Hsw; [|eexists _, _; split; [reflexivity|]; left; reflexivity].
  destruct (Get res (js "access_token")) as [access|e] eqn:Ha; [|eexists _, _; split; [reflexivity|]; left; reflexivity].
  destruct (Api.setAccessToken env access w1) as [[[]|e] w2] eqn:Hset; [|eexists _, _; split; [reflexivity|]; left; reflexivity].
  destruct (AuthApi.me env w2) as [[meRes|e] w3] eqn:Hme; [|eexists _, _; split; [reflexivity|]; left; reflexivity].
  destruct (Get meRes (js "user")) as [u|e] eqn:Hu; [|eexists _, _; split; [reflexivity|]; left; reflexivity].
  destruct (Get meRes (js "current_account_id")) as [current|e] eqn:Hc;
    [|destruct meRes; cbn [Get] in Hu, Hc; discriminate].
  eexists _, _. split; [reflexivity|]. right.
  exists res, w1, access, w2, meRes, u, current.
  repeat (split; [reflexivity || assumption|]). reflexivity.
Qed.

(** X19.  A switch can stop half way: once the switch request is
    answered, the module variable holds the new access token; and when
    the request of [me] that follows fails, or when storing the token
    throws (it does not convert to a string, or the browser refuses
    the write), the page still shows the previous account. *)
Theorem handleSwitchAccount_half_done (accountId : jsstring) (st : State)
    (w w1 : Api.World) (res access : value) :
  same_account accountId (currentAccountId st) = false ->
  AuthApi.switchAccount env accountId w = (Return res, w1) ->
  Get res (js "access_token") = Return access ->
  let stored := Api.setAccessToken env access w1 in
  Api.accessToken (snd stored) = access
  /\ (forall e w2,
        fst stored = Return tt ->
        AuthApi.me env (snd stored) = (Throw e, w2) ->
        handleSwitchAccount env accountId st w = (Return tt, st, w2))
  /\ (forall e,
        fst stored = Throw e ->
        handleSwitchAccount env accountId st w = (Return tt, st, snd stored)).
Proof.
  intros Hsame Hswitch Ha. cbv zeta. split; [|split].
  - apply (ApiFacts.setAccessToken_world env access w1).
  - intros e w2 Hstored Hme.
    unfold handleSwitchAccount. run_page. rewrite Hsame, Hswitch, Ha.
    destruct (Api.setAccessToken env access w1) as [r1 w1']. cbn [fst snd] in *.
    subst r1. rewrite Hme. reflexivity.
  - intros e Hstored.
    unfold handleSwitchAccount. run_page. rewrite Hsame, Hswitch, Ha.
    destruct (Api.setAccessToken env access w1) as [r1 w1']. cbn [fst snd] in *.
    subst r1. reflexivity.
Qed.

End Component.

Import Samples.

Lemma mount_without_token_witness :
  mount env_offline Layout.initial_state world_signed_out
  = (Return tt, router_replace (js "/login") Layout.initial_state, world_signed_out).
Proof.
  exact (proj1 (mount_without_token env_offline Layout.initial_state world_signed_out
                  eq_refl)).
Defined.


Lemma handleSwitchAccount_same_account_witness :
  handleSwitchAccount env_offline (js "acc1") layout_acc1 world_signed_in
  = (Return tt, layout_acc1, world_signed_in).
Proof.
  apply handleSwitchAccount_same_account. reflexivity.
Defined.

(** The switch to acc2 is answered with the token t2, then the network
    goes down. *)
Lemma handleSwitchAccount_half_done_witness :
  exists w2,
    handleSwitchAccount (env_one_answer response_tokens) (js "acc2") layout_acc1
      world_signed_in
    = (Return tt, layout_acc1, w2)
    /\ Api.accessToken w2 = VStr (js "t2").
Proof.
  destruct (handleSwitchAccount_half_done (env_one_answer response_tokens)
              (js "acc2") layout_acc1 world_signed_in
              (snd (AuthApi.switchAccount (env_one_answer response_tokens)
                      (js "acc2") world_signed_in))
              (VObj [(js "access_token", VStr (js "t2"));
                     (js "refresh_token", VStr (js "r2"))])
              (VStr (js "t2")))
    as (_ & Hme & _); [reflexivity|vm_compute; reflexivity|reflexivity|].
  eexists. split.
  - apply (Hme (TypeError (js "Failed to fetch"))); vm_compute; reflexivity.
  - vm_compute. reflexivity.
Defined.

(** The switch is answered by a token that does not convert: the page
    shows the previous account, and the module variable holds that
    token. *)
Example handleSwitchAccount_unconvertible :
  let run := handleSwitchAccount (env_one_answer response_odd_tokens) (js "acc2")
               layout_acc1 world_signed_in in
  fst run = (Return tt, layout_acc1)
  /\ Api.accessToken (snd run) = unconvertible
  /\ List.length (Api.fetch_log (snd run)) = 1%nat.
Proof. vm_compute. repeat split. Qed.

End LayoutFacts.

(* ===================================================================== *)
(** * The rules page: loading the groups, and what a submission leaves  *)
(* ===================================================================== *)

Module RulesPageStateFacts.
Import JS JSFacts AgentApi RulesPage.

Ltac run_handler :=
  unfold handleCreateRule, loadGroups, fetchGroups, fetchRules,
    createGroupRule, listGroupRules, listGroups, call, try_finally, try_catch,
    AgentApi.bind, AgentApi.get, AgentApi.set, AgentApi.ret;
  cbn beta iota zeta.

(** Reads the cells of a state that setters built. *)
Ltac state_simpl :=
  cbn [groups selectedGroupId rules loading saving error notice formState
       setGroups setSelectedGroupId setRules setLoading setSaving setError
       setNotice setForm].

(** A group with the id is found when some group has it. *)
Lemma some_group_find (groups : list AgentGroup.t) (id : jsstring) :
  some_group groups id = true ->
  exists g,
    List.find (fun g => bool_decide (AgentGroup.id g = id)) groups = Some g
    /\ In g groups /\ AgentGroup.id g = id.
Proof.
  unfold some_group. induction groups as [|g rest IH]; cbn [existsb List.find].
  - discriminate.
  - destruct (bool_decide (AgentGroup.id g = id)) eqn:Hg.
    + intros _. exists g. apply bool_decide_eq_true_1 in Hg. cbn. auto.
    + cbn [orb]. intros H. destruct (IH H) as (g' & Hf & Hin & Hid).
      exists g'. cbn. auto.
Qed.

Section Component.

Variable backend : Backend.
Variable groupIdFromQuery : jsstring.

(** The message the page shows for an exception of a submission. *)
Local Abbreviation shown e :=
  (match e with
   | ApiError _ message _ => message
   | _ => js "Failed to create rule."
   end).

Local Abbreviation payload st :=
  {| RuleData.name := trim (ruleName (formState st));
     RuleData.metric := ruleMetric (formState st);
     RuleData.operator := ruleOperator (formState st);
     RuleData.threshold := trim (ruleThreshold (formState st));
     RuleData.severity := Some (ruleSeverity (formState st));
     RuleData.window_seconds := Some (ruleWindow (formState st));
     RuleData.enabled := None;
     RuleData.webhook_url := None |}.

(** X20.  When the groups are loaded, the page shows them, and a group is
    selected whenever there is one: the group of the query string when it is
    among them, otherwise the group selected before when it still is,
    otherwise the first. Without groups the selection is empty. *)
Theorem fetchGroups_selection (st : State) (tr : list ApiCall)
    (res : list AgentGroup.t) :
  reply_groups backend (ListGroups :: tr) = Return res ->
  exists st',
    fetchGroups backend groupIdFromQuery st tr = (Return tt, st', ListGroups :: tr)
    /\ groups st' = res
    /\ (res = [] -> selectedGroupId st' = [])
    /\ (res <> [] ->
        exists g, selectedGroup st' = Some g /\ In g res
                  /\ AgentGroup.id g = selectedGroupId st')
    /\ (truthy_string groupIdFromQuery = true ->
        some_group res groupIdFromQuery = true ->
        selectedGroupId st' = groupIdFromQuery)
    /\ (truthy_string groupIdFromQuery && some_group res groupIdFromQuery = false ->
        truthy_string (selectedGroupId st) = true ->
        some_group res (selectedGroupId st) = true ->
        selectedGroupId st' = selectedGroupId st)
    /\ (truthy_string groupIdFromQuery && some_group res groupIdFromQuery = false ->
        truthy_string (selectedGroupId st) && some_group res (selectedGroupId st) = false ->
        selectedGroupId st' = match res with
                              | first :: _ => AgentGroup.id first
                              | [] => []
                              end)
    /\ rules st' = rules st /\ error st' = error st /\ notice st' = notice st
    /\ formState st' = formState st.
Proof.
  intros Hres. run_handler. rewrite Hres. cbn beta iota zeta.
  destruct res as [|first rest].
  - eexists. split; [reflexivity|]. cbn.
    split; [reflexivity|]. split; [reflexivity|]. split; [congruence|].
    split; [intros _; discriminate|]. split; [intros _ _; discriminate|].
    split; [reflexivity|]. auto.
  - destruct (truthy_string groupIdFromQuery && some_group (first :: rest) groupIdFromQuery)
      eqn:Hq.
    + eexists. split; [reflexivity|].
      apply andb_true_iff in Hq as [Hqt Hqs].
      state_simpl.
      split; [reflexivity|]. split; [discriminate|].
      split; [intros _; unfold selectedGroup; state_simpl;
              apply some_group_find; assumption|].
      split; [reflexivity|]. split; [discriminate|]. split; [discriminate|]. auto.
    + eexists. split; [reflexivity|].
      state_simpl.
      split; [reflexivity|]. split; [discriminate|].
      split.
      { intros _. unfold selectedGroup. state_simpl.
        destruct (truthy_string (selectedGroupId st)
                  && some_group (first :: rest) (selectedGroupId st)) eqn:Hp.
        - apply andb_true_iff in Hp as [_ Hp]. apply some_group_find; assumption.
        - exists first. cbn [List.find].
          rewrite bool_decide_eq_true_2 by reflexivity. cbn. auto. }
      split.
      { intros Hqt Hqs. rewrite Hqt, Hqs in Hq. discriminate. }
      split.
      { intros _ Hpt Hps. rewrite Hpt, Hps. reflexivity. }
      split.
      { intros _ Hp. rewrite Hp. reflexivity. }
      auto.
Qed.

(** X21.  Loading the groups never throws and always ends the loading state;
    when the request fails the groups and the selection stay as they were
    and the page says so. *)
Theorem loadGroups_outcome (st : State) (tr : list ApiCall) :
  exists st',
    loadGroups backend groupIdFromQuery st tr = (Return tt, st', ListGroups :: tr)
    /\ loading st' = false
    /\ match reply_groups backend (ListGroups :: tr) with
       | Return res => groups st' = res /\ error st' = error st
       | Throw _ =>
           groups st' = groups st
           /\ selectedGroupId st' = selectedGroupId st
           /\ error st' = js "Failed to load groups."
       end.
Proof.
  run_handler.
  destruct (reply_groups backend (ListGroups :: tr)) as [res|e]; cbn beta iota zeta.
  - destruct res as [|first rest]; [eexists; split; [reflexivity|]; cbn; auto|].
    destruct (truthy_string groupIdFromQuery && some_group (first :: rest) groupIdFromQuery);
      eexists; (split; [reflexivity|]); cbn; auto.
  - eexists. split; [reflexivity|]. cbn. auto.
Qed.

(** X22.  What an accepted submission does to the page. When the back end
    creates the rule, the name is cleared and the rest of the form kept, the
    notice says so, and the rules are those of the reload; when the reload
    fails the rules stay and the error of the reload is shown although the
    rule exists. When the back end refuses, the form, the notice and the
    rules are untouched and the error is shown. Either way the saving flag
    ends false. *)
Theorem handleCreateRule_effects (st : State) (tr : list ApiCall) :
  truthy_string (selectedGroupId st) = true ->
  blank (ruleName (formState st)) = false ->
  blank (ruleThreshold (formState st)) = false ->
  ltb (ruleWindow (formState st)) (of_Z 1) || Number_isNaN (ruleWindow (formState st))
  = false ->
  let created := CreateGroupRule (selectedGroupId st) (payload st) in
  let reload := ListGroupRules (selectedGroupId st) in
  exists st' tr',
    handleCreateRule backend st tr = (Return tt, st', tr')
    /\ saving st' = false
    /\ groups st' = groups st
    /\ selectedGroupId st' = selectedGroupId st
    /\ match reply_created backend (created :: tr) with
       | Return _ =>
           tr' = reload :: created :: tr
           /\ formState st' = with_ruleName [] (formState st)
           /\ notice st' = js "Rule added."
           /\ match reply_rules backend (reload :: created :: tr) with
              | Return rs => rules st' = rs /\ error st' = []
              | Throw e => rules st' = rules st /\ error st' = shown e
              end
       | Throw e =>
           tr' = created :: tr
           /\ formState st' = formState st
           /\ notice st' = notice st
           /\ rules st' = rules st
           /\ error st' = shown e
       end.
Proof.
  unfold blank. intros Hg Hn Ht Hw. cbv zeta. run_handler.
  rewrite Hg, Hn, Ht, Hw. cbn [negb]. cbn beta iota zeta.
  destruct (reply_created backend _) as [c|e]; cbn beta iota zeta.
  - destruct (reply_rules backend _) as [rs|e]; cbn beta iota zeta.
    + eexists _, _. split; [reflexivity|]. cbn. auto 10.
    + destruct e; eexists _, _; (split; [reflexivity|]); cbn; auto 10.
  - destruct e; eexists _, _; (split; [reflexivity|]); cbn; auto 10.
Qed.

(** X23.  Every template of the page passes the validation of the form: with
    a group selected, a click on a template followed by a submission calls
    [createGroupRule] with the fields of the template. *)
Theorem templates_pass_validation (template : RuleTemplate) (st : State)
    (tr : list ApiCall) :
  In template RULE_TEMPLATES ->
  truthy_string (selectedGroupId st) = true ->
  exists st1 tr1,
    applyTemplate template st tr = (Return tt, st1, tr1)
    /\ exists st' later data,
    handleCreateRule backend st1 tr1
    = (Return tt, st', later ++ CreateGroupRule (selectedGroupId st) data :: tr)
    /\ RuleData.name data = ruleName (form template)
    /\ RuleData.metric data = ruleMetric (form template)
    /\ RuleData.operator data = ruleOperator (form template)
    /\ RuleData.threshold data = ruleThreshold (form template)
    /\ RuleData.severity data = Some (ruleSeverity (form template))
    /\ RuleData.window_seconds data = Some (ruleWindow (form template)).
Proof.
  intros Hin Hg.
  assert (Hvalid : trim (ruleName (form template)) = ruleName (form template)
                   /\ trim (ruleThreshold (form template)) = ruleThreshold (form template)
                   /\ truthy_string (ruleName (form template)) = true
                   /\ truthy_string (ruleThreshold (form template)) = true
                   /\ ltb (ruleWindow (form template)) (of_Z 1)
                      || Number_isNaN (ruleWindow (form template)) = false).
  { cbn [In RULE_TEMPLATES] in Hin.
    repeat (destruct Hin as [<-|Hin]; [vm_compute; auto|]). contradiction. }
  destruct Hvalid as (Hn & Ht & Hnt & Htt & Hw).
  unfold applyTemplate. run_handler.
  eexists _, _. split; [reflexivity|]. state_simpl.
  rewrite Hg, Hn, Ht, Hnt, Htt, Hw. cbn [negb]. cbn beta iota zeta.
  destruct (reply_created backend _) as [c|e]; cbn beta iota zeta.
  - destruct (reply_rules backend _) as [rs|e]; cbn beta iota zeta.
    + eexists _, [_], _. split; [reflexivity|]. cbn. auto 10.
    + destruct e; eexists _, [_], _; (split; [reflexivity|]); cbn; auto 10.
  - destruct e; eexists _, [], _; (split; [reflexivity|]); cbn; auto 10.
Qed.

End Component.

Import Samples.

(** The page opens without a selection, and the back end has group g1. *)
Lemma fetchGroups_selection_witness :
  exists st',
    fetchGroups backend_one_alert [] initial_state [] = (Return tt, st', [ListGroups])
    /\ selectedGroupId st' = js "g1".
Proof.
  destruct (fetchGroups_selection backend_one_alert [] initial_state [] [group1] eq_refl)
    as (st' & Hrun & _ & _ & _ & _ & _ & Hfirst & _).
  exists st'. split; [exact Hrun|]. apply Hfirst; reflexivity.
Defined.

Lemma handleCreateRule_effects_witness :
  exists st' tr',
    handleCreateRule backend_ok (rules_page form_network_gt) [] = (Return tt, st', tr')
    /\ saving st' = false.
Proof.
  destruct (handleCreateRule_effects backend_ok (rules_page form_network_gt) [])
    as (st' & tr' & Hrun & Hs & _); try (vm_compute; reflexivity).
  exists st', tr'. split; assumption.
Defined.

Lemma templates_pass_validation_witness :
  exists st1 tr1,
    applyTemplate
      {| id := js "usb-removed"; title := js "USB device removed";
         description := js "Trigger when critical USB device is removed";
         form := {| ruleName := js "USB removed"; ruleMetric := js "usb";
                    ruleOperator := js "=="; ruleThreshold := js "removed";
                    ruleSeverity := critical; ruleWindow := of_Z 1 |} |}
      (rules_page INITIAL_FORM) []
    = (Return tt, st1, tr1).
Proof.
  destruct (templates_pass_validation backend_ok
              {| id := js "usb-removed"; title := js "USB device removed";
                 description := js "Trigger when critical USB device is removed";
                 form := {| ruleName := js "USB removed"; ruleMetric := js "usb";
                            ruleOperator := js "=="; ruleThreshold := js "removed";
                            ruleSeverity := critical; ruleWindow := of_Z 1 |} |}
              (rules_page INITIAL_FORM) [])
    as (st1 & tr1 & Hrun & _).
  - cbn [In RULE_TEMPLATES]. do 4 right. left. reflexivity.
  - reflexivity.
  - exists st1, tr1. exact Hrun.
Defined.

End RulesPageStateFacts.

(* ===================================================================== *)
(** * The alerts page: the headers, and what a submission leaves        *)
(* ===================================================================== *)

Module AlertsPageStateFacts.
Import JS JSFacts AgentApi AlertsPage.

Ltac run_handler :=
  unfold handleCreateChannel, fetchChannels, fetchAlertHistory,
    createGroupAlertChannel, listGroupAlertChannels, listGroupAlerts, call,
    try_finally, try_catch, AgentApi.bind, AgentApi.get, AgentApi.set, AgentApi.ret;
  cbn beta iota zeta.

Ltac state_simpl :=
  cbn [groups selectedGroupId channels alertHistory loading saving error notice
       channelType target webhookMethod webhookHeaders webhookBody
       setChannels setAlertHistory setSaving setError setNotice setTarget
       setWebhookMethod setWebhookHeaders setWebhookBody].

(** The loop keeps what it was given for the names it does not store. *)
Lemma collect_headers_lookup (entries : list (jsstring * JS.value))
    (acc m : gmap jsstring jsstring) (k : jsstring) :
  collect_headers entries acc = Return m ->
  ~ In k (List.map fst entries) \/ k = js "__proto__" ->
  m !! k = acc !! k.
Proof.
  revert acc. induction entries as [|[k' v] rest IH]; intros acc; cbn [collect_headers].
  - intros [= ->]. reflexivity.
  - destruct v; try discriminate. intros Hm Hk.
    rewrite (IH _ Hm) by (cbn [List.map In fst] in Hk; tauto).
    unfold assign. destruct (decide (k' = js "__proto__")) as [->|Hp]; [reflexivity|].
    apply lookup_insert_ne. cbn [List.map In fst] in Hk. intros ->. tauto.
Qed.

(** The headers returned for an object: every entry with a string value
    is a header, except one named [__proto__], which is dropped without
    a word.  (The entries of a parsed object have distinct names.) *)
Lemma collect_headers_complete (entries : list (jsstring * JS.value))
    (acc m : gmap jsstring jsstring) (k s : jsstring) :
  List.NoDup (List.map fst entries) ->
  collect_headers entries acc = Return m ->
  In (k, VStr s) entries ->
  k <> js "__proto__" ->
  m !! k = Some s.
Proof.
  revert acc. induction entries as [|[k' v] rest IH]; intros acc Hnd;
    cbn [collect_headers].
  - intros _ [].
  - cbn [List.map fst] in Hnd. apply List.NoDup_cons_iff in Hnd as [Hfresh Hnd].
    destruct v; try discriminate. intros Hm [[= -> ->]|Hin] Hk.
    + rewrite (collect_headers_lookup rest _ m k Hm) by (left; exact Hfresh).
      unfold assign. rewrite decide_False by assumption. apply lookup_insert_eq.
    + exact (IH _ Hnd Hm Hin Hk).
Qed.

Section Component.

Variable JSON_parse : jsstring -> completion JS.value.
Variable backend : Backend.

Local Abbreviation shown e :=
  (match e with
   | ApiError _ message _ => message
   | _ => js "Failed to add alert channel."
   end).

(** X24.  The headers [parseHeadersJson] returns for a text that parses as
    an object are exactly its entries, all strings, less the one named
    [__proto__]; nothing comes from elsewhere. *)
Theorem parseHeadersJson_exact (text : jsstring)
    (entries : list (jsstring * JS.value)) (m : gmap jsstring jsstring) :
  JSON_parse text = Return (VObj entries) ->
  List.NoDup (List.map fst entries) ->
  parseHeadersJson JSON_parse text = Return m ->
  blank text = false ->
  forall k s,
    m !! k = Some s <-> In (k, VStr s) entries /\ k <> js "__proto__".
Proof.
  unfold blank, parseHeadersJson. intros Hparse Hnd Hm Hb k s. rewrite Hb, Hparse in Hm.
  split.
  - intros Hk. split.
    + destruct (AlertsPageFacts.collect_headers_sound entries ∅ m k s Hm Hk) as [H|H];
        [rewrite lookup_empty in H; discriminate|exact H].
    + intros ->.
      rewrite (collect_headers_lookup entries ∅ m (js "__proto__") Hm) in Hk
        by (right; reflexivity).
      rewrite lookup_empty in Hk. discriminate.
  - intros [Hin Hk]. exact (collect_headers_complete entries ∅ m k s Hnd Hm Hin Hk).
Qed.

(** X25.  The payload of an email channel has no webhook field, and the text
    of the headers field is not even looked at: an email channel is created
    whatever that text is. *)
Theorem email_channel_ignores_webhook_fields (st : State) (tr : list ApiCall) :
  channelType st = email ->
  truthy_string (selectedGroupId st) = true ->
  blank (target st) = false ->
  exists st' later data,
    handleCreateChannel JSON_parse backend st tr
    = (Return tt, st', later ++ CreateGroupAlertChannel (selectedGroupId st) data :: tr)
    /\ ChannelData.type data = email
    /\ ChannelData.target data = trim (target st)
    /\ ChannelData.webhook_method data = None
    /\ ChannelData.webhook_headers data = None
    /\ ChannelData.webhook_body data = None.
Proof.
  unfold blank. intros Hty Hg Ht. run_handler. rewrite Hg, Ht, Hty.
  cbn [negb when_webhook]. cbn beta iota zeta.
  destruct (reply_created backend _) as [c|e]; cbn beta iota zeta.
  - destruct (reply_channels backend _) as [cs|e]; cbn beta iota zeta.
    + eexists _, [_], _. split; [reflexivity|]. cbn. auto 10.
    + destruct e; eexists _, [_], _; (split; [reflexivity|]); cbn; auto 10.
  - destruct e; eexists _, [], _; (split; [reflexivity|]); cbn; auto 10.
Qed.

(** X26.  What an accepted submission does to the page. When the back end
    creates the channel, the target, the method, the headers and the body go
    back to their defaults, the type is kept, the notice says so and the
    channels are those of the reload. When the back end refuses, what the
    user typed stays and the error is shown. Either way the saving flag ends
    false. *)
Theorem handleCreateChannel_effects (st : State) (tr : list ApiCall)
    (h : gmap jsstring jsstring) :
  truthy_string (selectedGroupId st) = true ->
  blank (target st) = false ->
  (channelType st = webhook ->
   parseHeadersJson JSON_parse (webhookHeaders st) = Return h) ->
  let data :=
    {| ChannelData.type := channelType st;
       ChannelData.target := trim (target st);
       ChannelData.enabled := None;
       ChannelData.webhook_method := when_webhook (channelType st) (Some (webhookMethod st));
       ChannelData.webhook_headers := when_webhook (channelType st) (Some h);
       ChannelData.webhook_body := when_webhook (channelType st) (Some (webhookBody st)) |} in
  let created := CreateGroupAlertChannel (selectedGroupId st) data in
  let reload := ListGroupAlertChannels (selectedGroupId st) in
  exists st' tr',
    handleCreateChannel JSON_parse backend st tr = (Return tt, st', tr')
    /\ saving st' = false
    /\ channelType st' = channelType st
    /\ selectedGroupId st' = selectedGroupId st
    /\ alertHistory st' = alertHistory st
    /\ match reply_created backend (created :: tr) with
       | Return _ =>
           tr' = reload :: created :: tr
           /\ target st' = []
           /\ webhookMethod st' = POST
           /\ webhookHeaders st' = DEFAULT_HEADERS
           /\ webhookBody st' = DEFAULT_BODY
           /\ notice st' = js "Alert channel added."
           /\ match reply_channels backend (reload :: created :: tr) with
              | Return cs => channels st' = cs /\ error st' = []
              | Throw e => channels st' = channels st /\ error st' = shown e
              end
       | Throw e =>
           tr' = created :: tr
           /\ target st' = target st
           /\ webhookMethod st' = webhookMethod st
           /\ webhookHeaders st' = webhookHeaders st
           /\ webhookBody st' = webhookBody st
           /\ notice st' = notice st
           /\ channels st' = channels st
           /\ error st' = shown e
       end.
Proof.
  unfold blank. intros Hg Ht Hparsed. cbv zeta. run_handler. rewrite Hg, Ht.
  cbn [negb]. cbn beta iota zeta.
  destruct (channelType st) eqn:Hty;
    [|rewrite (Hparsed eq_refl)];
    cbn [when_webhook]; cbn beta iota zeta;
    (destruct (reply_created backend _) as [c|e]; cbn beta iota zeta;
     [destruct (reply_channels backend _) as [cs|e]; cbn beta iota zeta;
      [|destruct e]
     |destruct e]);
    eexists _, _; (split; [reflexivity|]); cbn; rewrite Hty; auto 12.
Qed.

End Component.

Import Samples.

(** The default headers: one header, and none named [Accept]. *)
Lemma parseHeadersJson_exact_witness :
  ({[ js "Content-Type" := js "application/json" ]} : gmap jsstring jsstring)
    !! js "Accept" = Some (js "text/plain")
  <-> In (js "Accept", VStr (js "text/plain"))
        [(js "Content-Type", VStr (js "application/json"))]
      /\ js "Accept" <> js "__proto__".
Proof.
  apply (parseHeadersJson_exact JSON_parse_sample DEFAULT_HEADERS).
  - vm_compute. reflexivity.
  - repeat constructor. intros [].
  - vm_compute. reflexivity.
  - vm_compute. reflexivity.
Defined.

Lemma email_channel_ignores_webhook_fields_witness :
  exists st' later data,
    handleCreateChannel JSON_parse_sample backend_ok alerts_page_email []
    = (Return tt, st', later ++ CreateGroupAlertChannel (js "g1") data :: [])
    /\ ChannelData.webhook_headers data = None.
Proof.
  destruct (email_channel_ignores_webhook_fields JSON_parse_sample backend_ok
              alerts_page_email [] eq_refl eq_refl eq_refl)
    as (st' & later & data & Hrun & _ & _ & _ & Hh & _).
  exists st', later, data. split; assumption.
Defined.

Lemma handleCreateChannel_effects_witness :
  exists st' tr',
    handleCreateChannel JSON_parse_sample backend_ok (alerts_page []) []
    = (Return tt, st', tr')
    /\ saving st' = false.
Proof.
  destruct (handleCreateChannel_effects JSON_parse_sample backend_ok (alerts_page []) []
              {[ js "Content-Type" := js "application/json" ]} eq_refl eq_refl)
    as (st' & tr' & Hrun & Hs & _).
  - intros _. vm_compute. reflexivity.
  - exists st', tr'. split; assumption.
Defined.

End AlertsPageStateFacts.

(* ===================================================================== *)
(** * The agent page: the summary of an event                           *)
(* ===================================================================== *)

Module AgentDetailFacts.
Import JS JSFacts AgentDetail.

(** The names of the event types differ. *)
Ltac distinct_names :=
  match goal with
  | H : js _ = js _ |- _ => vm_compute in H; discriminate H
  end.

Section Component.

Variable shortest_digits : number -> jsstring.
Variable toFixed1 : number -> jsstring.
Variable toUpperCase : jsstring -> jsstring.

Local Abbreviation summary := (getEventSummary shortest_digits toFixed1 toUpperCase).

(** A usage that can be shown: absent, or a number. *)
Local Abbreviation showable part :=
  (match opt_get part (js "usagePercent") with
   | VUndefined | VNum _ => True
   | _ => False
   end).

Local Abbreviation absent part := (opt_get part (js "usagePercent") = VUndefined).

Lemma usage_returns (label name : jsstring) (part : value) :
  (exists p, usage toFixed1 label name part = Return p) <-> showable part.
Proof.
  unfold usage. destruct (opt_get part (js "usagePercent")); split;
    try (intros [p Hp]; discriminate); try contradiction; eauto.
Qed.

Lemma usage_none (label name : jsstring) (part : value) :
  usage toFixed1 label name part = Return None <-> absent part.
Proof.
  unfold usage. destruct (opt_get part (js "usagePercent")); split;
    try discriminate; reflexivity.
Qed.

Lemma usage_throws (label name : jsstring) (part : value) (e : exn) :
  usage toFixed1 label name part = Throw e -> exists message, e = TypeError message.
Proof.
  unfold usage. destruct (opt_get part (js "usagePercent"));
    intros H; inversion H; eauto.
Qed.

(** The values a summary converts to strings, in the order it converts
    them; the telemetry branch converts none. *)
Local Abbreviation converted event :=
  (if decide (type event = js "status") then
     [or_else (opt_get (data event) (js "status")) (VStr (js "unknown"))]
   else if decide (type event = js "scan") then
     [or_else (opt_get (data event) (js "action")) (VStr [])]
   else if decide (type event = js "anomaly") then
     [or_else (opt_get (data event) (js "severity")) (VStr (js "warning"));
      or_else (opt_get (data event) (js "message")) (VStr (js "Anomaly detected"))]
   else if decide (type event = js "response") then
     [nullish_else (opt_get (data event) (js "exitCode")) (VStr (js "?"))]
   else []).

(** Neither an object nor an array. *)
Local Abbreviation primitive v :=
  (match v with VObj _ | VArr _ => False | _ => True end).

Lemma String_primitive (v : value) :
  primitive v -> exists text, String_ shortest_digits v = Return text.
Proof.
  unfold String_. destruct v; try contradiction; intros _; eexists; reflexivity.
Qed.

(** X27.  An event whose type is not [telemetry] has a summary exactly
    when the fields the summary converts to strings do convert: the
    status (or 'unknown') of a status event, the action (or '') of a
    scan, the severity (or 'warning') and the message (or 'Anomaly
    detected') of an anomaly, the exit code (or '?' when it is nullish)
    of a response, and nothing for any other type.  So it has one
    whenever those fields are neither objects nor arrays, and for every
    type that is not one of the four.  When a field does not convert
    (an object with a key [toString] of its own, say) the summary
    throws a TypeError. *)
Theorem summary_unless_telemetry (event : AgentEvent) :
  type event <> js "telemetry" ->
  ((exists text, summary event = Return text)
   <-> forall v, In v (converted event) ->
         exists text, String_ shortest_digits v = Return text)
  /\ ((forall v, In v (converted event) -> primitive v) ->
      exists text, summary event = Return text)
  /\ (forall e, summary event = Throw e -> exists message, e = TypeError message).
Proof.
  intros Hty.
  assert (Hiff : (exists text, summary event = Return text)
                 <-> forall v, In v (converted event) ->
                       exists text, String_ shortest_digits v = Return text).
  { unfold getEventSummary. cbv zeta.
    destruct (decide (type event = js "status")) as [?Heq|?Hne].
    { destruct (String_ _ _) as [s|e] eqn:Hs; cbn [and_then]; split.
      - intros _ v [<-|[]]. eauto.
      - eauto.
      - intros [text Ht]. discriminate.
      - intros H. destruct (H _ (or_introl eq_refl)) as [text Ht]. congruence. }
    destruct (decide (type event = js "telemetry")) as [?Heq|?Hne]; [contradiction|].
    destruct (decide (type event = js "scan")) as [?Heq|?Hne].
    { destruct (String_ _ _) as [s|e] eqn:Hs; cbn [and_then]; split.
      - intros _ v [<-|[]]. eauto.
      - intros _. destruct (_ || _); [eauto|].
        repeat match goal with
               | |- context [decide ?P] => destruct (decide P) as [?Heq|?Hne]; [eauto|]
               end.
        eauto.
      - intros [text Ht]. discriminate.
      - intros H. destruct (H _ (or_introl eq_refl)) as [text Ht]. congruence. }
    destruct (decide (type event = js "anomaly")) as [?Heq|?Hne].
    { destruct (String_ _ (or_else (opt_get (data event) (js "severity")) _))
        as [s|e] eqn:Hs; cbn [and_then].
      - destruct (String_ _ (or_else (opt_get (data event) (js "message")) _))
          as [m|e] eqn:Hm; cbn [and_then]; split.
        + intros _ v [<-|[<-|[]]]; eauto.
        + eauto.
        + intros [text Ht]. discriminate.
        + intros H. destruct (H _ (or_intror (or_introl eq_refl))) as [text Ht].
          congruence.
      - split.
        + intros [text Ht]. discriminate.
        + intros H. destruct (H _ (or_introl eq_refl)) as [text Ht]. congruence. }
    destruct (decide (type event = js "response")) as [?Heq|?Hne].
    { destruct (String_ _ _) as [s|e] eqn:Hs; cbn [and_then]; split.
      - intros _ v [<-|[]]. eauto.
      - eauto.
      - intros [text Ht]. discriminate.
      - intros H. destruct (H _ (or_introl eq_refl)) as [text Ht]. congruence. }
    split; [intros _ v []|eauto]. }
  split; [exact Hiff|]. split.
  - intros Hprim. apply Hiff. intros v Hv. apply String_primitive, Hprim, Hv.
  - assert (Hthrows : forall v e, String_ shortest_digits v = Throw e ->
                        exists message, e = TypeError message)
      by (intros v e; apply ToString_throws).
    unfold getEventSummary. cbv zeta. intros e.
    destruct (decide (type event = js "status")) as [?Heq|?Hne].
    { destruct (String_ _ _) eqn:Hs; cbn [and_then]; [discriminate|].
      intros [= <-]. eauto. }
    destruct (decide (type event = js "telemetry")) as [?Heq|?Hne]; [contradiction|].
    destruct (decide (type event = js "scan")) as [?Heq|?Hne].
    { destruct (String_ _ _) eqn:Hs; cbn [and_then]; [|intros [= <-]; eauto].
      destruct (_ || _); [discriminate|].
      repeat match goal with
             | |- context [decide ?P] => destruct (decide P) as [?Heq|?Hne]; [discriminate|]
             end.
      discriminate. }
    destruct (decide (type event = js "anomaly")) as [?Heq|?Hne].
    { destruct (String_ _ (or_else (opt_get (data event) (js "severity")) _))
        eqn:Hs; cbn [and_then]; [|intros [= <-]; eauto].
      destruct (String_ _ (or_else (opt_get (data event) (js "message")) _))
        eqn:Hm; cbn [and_then]; [discriminate|intros [= <-]; eauto]. }
    destruct (decide (type event = js "response")) as [?Heq|?Hne].
    { destruct (String_ _ _) eqn:Hs; cbn [and_then]; [discriminate|].
      intros [= <-]. eauto. }
    discriminate.
Qed.

(** The parts pushed start with a letter that is not the S of "System
    metrics". *)
Lemma usage_part_head (label name : jsstring) (part : value) (p : jsstring) (c : N) :
  usage toFixed1 label name part = Return (Some p) ->
  head label = Some c ->
  head p = Some c.
Proof.
  unfold usage. destruct (opt_get part (js "usagePercent")); try discriminate.
  intros [= <-]. destruct label; [discriminate|]. cbn. auto.
Qed.

Lemma join_head (sep p : jsstring) (rest : list jsstring) (c : N) :
  head p = Some c -> head (join sep (p :: rest)) = Some c.
Proof.
  destruct p as [|c' p]; [discriminate|]. intros [= ->].
  destruct rest; reflexivity.
Qed.

(** X28.  The summary of a telemetry event. It exists exactly when each of
    the three usages is absent or a number, and throws a TypeError otherwise
    (a usage that is [null] or a string, say); it is "System metrics"
    exactly when all three usages are absent. *)
Theorem telemetry_summary (event : AgentEvent) :
  type event = js "telemetry" ->
  let cpu := opt_get (data event) (js "cpu") in
  let memory := opt_get (data event) (js "memory") in
  let disk := opt_get (data event) (js "disk") in
  ((exists text, summary event = Return text)
   <-> showable cpu /\ showable memory /\ showable disk)
  /\ ((exists message, summary event = Throw (TypeError message))
      <-> ~ (showable cpu /\ showable memory /\ showable disk))
  /\ (summary event = Return (js "System metrics")
      <-> absent cpu /\ absent memory /\ absent disk).
Proof.
  intros Hty. cbv zeta. unfold getEventSummary. cbv zeta.
  destruct (decide (type event = js "status")) as [Hs|_];
    [rewrite Hty in Hs; distinct_names|].
  destruct (decide (type event = js "telemetry")) as [_|]; [|contradiction].
  pose proof (usage_returns (js "CPU") (js "cpu") (opt_get (data event) (js "cpu"))) as R1.
  pose proof (usage_returns (js "Mem") (js "memory") (opt_get (data event) (js "memory"))) as R2.
  pose proof (usage_returns (js "Disk") (js "disk") (opt_get (data event) (js "disk"))) as R3.
  pose proof (usage_none (js "CPU") (js "cpu") (opt_get (data event) (js "cpu"))) as N1.
  pose proof (usage_none (js "Mem") (js "memory") (opt_get (data event) (js "memory"))) as N2.
  pose proof (usage_none (js "Disk") (js "disk") (opt_get (data event) (js "disk"))) as N3.
  pose proof (usage_part_head (js "CPU") (js "cpu") (opt_get (data event) (js "cpu"))) as H1.
  pose proof (usage_part_head (js "Mem") (js "memory") (opt_get (data event) (js "memory"))) as H2.
  pose proof (usage_part_head (js "Disk") (js "disk") (opt_get (data event) (js "disk"))) as H3.
  pose proof (usage_throws (js "CPU") (js "cpu") (opt_get (data event) (js "cpu"))) as T1.
  pose proof (usage_throws (js "Mem") (js "memory") (opt_get (data event) (js "memory"))) as T2.
  pose proof (usage_throws (js "Disk") (js "disk") (opt_get (data event) (js "disk"))) as T3.
  destruct (usage toFixed1 (js "CPU") _ _) as [p1|e1].
  2:{ destruct (T1 e1 eq_refl) as [m ->].
      assert (Hno : ~ showable (opt_get (data event) (js "cpu")))
        by (intros H; apply R1 in H as [p Hp]; discriminate).
      split; [split; [intros [t Ht]; discriminate|tauto]|].
      split; [split; [tauto|eauto]|].
      split; [discriminate|]. intros (Ha & _). apply N1 in Ha. discriminate. }
  destruct (usage toFixed1 (js "Mem") _ _) as [p2|e2].
  2:{ destruct (T2 e2 eq_refl) as [m ->].
      assert (Hno : ~ showable (opt_get (data event) (js "memory")))
        by (intros H; apply R2 in H as [p Hp]; discriminate).
      split; [split; [intros [t Ht]; discriminate|tauto]|].
      split; [split; [tauto|eauto]|].
      split; [discriminate|]. intros (_ & Ha & _). apply N2 in Ha. discriminate. }
  destruct (usage toFixed1 (js "Disk") _ _) as [p3|e3].
  2:{ destruct (T3 e3 eq_refl) as [m ->].
      assert (Hno : ~ showable (opt_get (data event) (js "disk")))
        by (intros H; apply R3 in H as [p Hp]; discriminate).
      split; [split; [intros [t Ht]; discriminate|tauto]|].
      split; [split; [tauto|eauto]|].
      split; [discriminate|]. intros (_ & _ & Ha). apply N3 in Ha. discriminate. }
  assert (Hall : showable (opt_get (data event) (js "cpu"))
                 /\ showable (opt_get (data event) (js "memory"))
                 /\ showable (opt_get (data event) (js "disk")))
    by (split; [apply R1; eauto|split; [apply R2; eauto|apply R3; eauto]]).
  split; [split; [intros _; exact Hall|eauto]|].
  split; [split; [intros [m Hm]; discriminate|tauto]|].
  assert (Hhead : forall parts c,
            head (join (js " / ") parts) = Some c -> c <> 83%N ->
            Return (join (js " / ") parts) <> Return (js "System metrics")).
  { intros parts c Hc Hne [= Heq]. rewrite Heq in Hc. vm_compute in Hc. congruence. }
  destruct p1 as [p1|], p2 as [p2|], p3 as [p3|]; cbn [push app];
    try (split; [intros Heq; exfalso; revert Heq;
                 first [ apply (Hhead _ 67%N);
                         [apply join_head, H1; reflexivity|discriminate]
                       | apply (Hhead _ 77%N);
                         [apply join_head, H2; reflexivity|discriminate]
                       | apply (Hhead _ 68%N);
                         [apply join_head, H3; reflexivity|discriminate] ]
                |intros (A1 & A2 & A3);
                 apply N1 in A1; apply N2 in A2; apply N3 in A3; discriminate]).
  split; [intros _|reflexivity].
  split; [apply N1; reflexivity|split; [apply N2; reflexivity|apply N3; reflexivity]].
Qed.

(** X29.  A scan event that carries a list of devices is summarised as a USB
    scan with their number, whatever its action says, provided the
    action converts to a string: the action is converted first, and
    when that throws, the summary throws the same TypeError. *)
Theorem scan_with_devices (event : AgentEvent) (items : list value) :
  type event = js "scan" ->
  opt_get (data event) (js "devices") = VArr items ->
  match String_ shortest_digits (or_else (opt_get (data event) (js "action")) (VStr []))
  with
  | Return _ =>
      summary event
      = Return (js "USB scan (" ++ decimal (N.of_nat (length items)) ++ js " devices)")
  | Throw e =>
      summary event = Throw e /\ exists message, e = TypeError message
  end.
Proof.
  intros Hty Hdev. unfold getEventSummary. cbv zeta. rewrite Hdev.
  destruct (decide (type event = js "status")) as [Hs|_];
    [rewrite Hty in Hs; distinct_names|].
  destruct (decide (type event = js "telemetry")) as [Hs|_];
    [rewrite Hty in Hs; distinct_names|].
  destruct (decide (type event = js "scan")) as [_|]; [|contradiction].
  destruct (String_ _ _) as [action|e] eqn:Hs; cbn [and_then].
  - cbn [truthy andb]. rewrite orb_true_r. reflexivity.
  - split; [reflexivity|]. exact (ToString_throws _ _ _ Hs).
Qed.

(** X30.  The summary of a response shows at most the first eight code units
    of the command id, and nothing of it when it is not a string; the
    exit code is shown as its string conversion, or as '?' when it is
    [null] or absent.  When the exit code does not convert to a string
    the summary throws the TypeError of the conversion. *)
Theorem response_summary (event : AgentEvent) :
  type event = js "response" ->
  exists command,
    (length command <= 8)%nat
    /\ match opt_get (data event) (js "commandId") with
       | VStr s => exists rest, s = command ++ rest
       | _ => command = []
       end
    /\ match String_ shortest_digits
                (nullish_else (opt_get (data event) (js "exitCode")) (VStr (js "?")))
       with
       | Return exit =>
           summary event = Return (js "Command " ++ command ++ js " exit " ++ exit)
           /\ match opt_get (data event) (js "exitCode") with
              | VUndefined | VNull => exit = js "?"
              | code => String_ shortest_digits code = Return exit
              end
       | Throw e =>
           summary event = Throw e /\ exists message, e = TypeError message
       end.
Proof.
  intros Hty. unfold getEventSummary. cbv zeta.
  destruct (decide (type event = js "status")) as [Hs|_];
    [rewrite Hty in Hs; distinct_names|].
  destruct (decide (type event = js "telemetry")) as [Hs|_];
    [rewrite Hty in Hs; distinct_names|].
  destruct (decide (type event = js "scan")) as [Hs|_];
    [rewrite Hty in Hs; distinct_names|].
  destruct (decide (type event = js "anomaly")) as [Hs|_];
    [rewrite Hty in Hs; distinct_names|].
  destruct (decide (type event = js "response")) as [_|]; [|contradiction].
  exists (match opt_get (data event) (js "commandId") with
          | VStr s => slice0 8 s
          | _ => []
          end).
  split; [|split].
  - destruct (opt_get (data event) (js "commandId")); cbn; try lia.
    unfold slice0. rewrite length_firstn. lia.
  - destruct (opt_get (data event) (js "commandId")); try reflexivity.
    exists (skipn 8 s). unfold slice0. symmetry. apply firstn_skipn.
  - destruct (String_ _ _) as [exit|e] eqn:Hs; cbn [and_then].
    + split; [reflexivity|].
      destruct (opt_get (data event) (js "exitCode")); cbn [nullish_else] in Hs;
        try exact Hs; unfold String_ in Hs; cbn in Hs; congruence.
    + split; [reflexivity|]. exact (ToString_throws _ _ _ Hs).
Qed.

End Component.

Import Samples.

Lemma summary_unless_telemetry_witness :
  exists text,
    getEventSummary no_digits toFixed_stub (fun s => s) event_status = Return text.
Proof.
  destruct (summary_unless_telemetry no_digits toFixed_stub (fun s => s) event_status)
    as (_ & Hprim & _).
  - intros H. vm_compute in H. discriminate H.
  - apply Hprim. intros v [<-|[]]. exact I.
Defined.

(** A CPU usage that is [null] makes the summary throw. *)
Lemma telemetry_summary_witness :
  exists message,
    getEventSummary no_digits toFixed_stub (fun s => s) event_telemetry_null
    = Throw (TypeError message).
Proof.
  apply (telemetry_summary no_digits toFixed_stub (fun s => s) event_telemetry_null
           eq_refl).
  vm_compute. tauto.
Defined.

(** The action says "health", the summary says USB. *)
Lemma scan_with_devices_witness :
  getEventSummary no_digits toFixed_stub (fun s => s) event_scan
  = Return (js "USB scan (2 devices)").
Proof.
  exact (scan_with_devices no_digits toFixed_stub (fun s => s) event_scan
           [VStr (js "kbd"); VStr (js "disk")] eq_refl eq_refl).
Defined.

(** An action that does not convert: no summary, devices or not. *)
Example scan_unconvertible_action :
  exists message,
    getEventSummary no_digits toFixed_stub (fun s => s) event_scan_odd
    = Throw (TypeError message).
Proof. eexists. vm_compute. reflexivity. Qed.

Lemma response_summary_witness :
  exists command,
    getEventSummary no_digits toFixed_stub (fun s => s) event_response
    = Return (js "Command " ++ command ++ js " exit 0")
    /\ (length command <= 8)%nat.
Proof.
  destruct (response_summary no_digits toFixed_stub (fun s => s) event_response eq_refl)
    as (command & Hlen & _ & Hrun).
  exists command. split; [|assumption].
  vm_compute in Hrun. destruct Hrun as [Hrun _]. exact Hrun.
Defined.

Example response_unconvertible_exit :
  exists message,
    getEventSummary no_digits toFixed_stub (fun s => s) event_response_odd
    = Throw (TypeError message).
Proof. eexists. vm_compute. reflexivity. Qed.

End AgentDetailFacts.
